(** * The container launcher of [app/run.py]

    A shallow embedding of [ContainerExecuter] and [RunCommand] over a model
    of the operating-system calls they make, followed by the properties of the
    launch sequence.

    The launcher is a script of system calls.  Its functions are written here
    in a state-and-exception monad over a [world]: the file tree seen through
    the mounts of the running process, its mount table, working directory and
    host name, and a log of every call in the order it is issued, tagged with
    the process that issues it. *)

From Stdlib Require Import ZArith Ascii String.
From stdpp Require Import gmap strings list pretty.

Local Open Scope string_scope.
Local Open Scope list_scope.
Local Open Scope Z_scope.

(** ** Data model (the three frozen dataclasses) *)

Record Image := mkImage {
  library : string;
  image : string;
  tag : string
}.

Record ContainerInitParams := mkContainerInitParams {
  params_image : Image;
  command : list string;
  container_id : string
}.

Record ContainerDir := mkContainerDir {
  root_dir : string;
  rw_dir : string;
  work_dir : string
}.

(** ** Path strings: [os.path.join] and the resolution of a path string *)

Module posixpath.

Definition sep : ascii := "/"%char.

Definition startswith_sep (s : string) : bool :=
  match s with
  | String c _ => bool_decide (c = sep)
  | EmptyString => false
  end.

Fixpoint endswith_sep (s : string) : bool :=
  match s with
  | EmptyString => false
  | String c EmptyString => bool_decide (c = sep)
  | String _ s' => endswith_sep s'
  end.

(** One round of the loop of [posixpath.join]: an absolute component
    replaces what was joined so far; otherwise it is appended, with a
    separator unless the path is empty or already ends in one. *)
Definition join2 (path b : string) : string :=
  if startswith_sep b then b
  else if bool_decide (path = EmptyString) || endswith_sep path then path +:+ b
  else path +:+ "/" +:+ b.

Definition join (a : string) (p : list string) : string := foldl join2 a p.

(** [s.split(c)]: the pieces of [s] between the occurrences of [c]. *)
Fixpoint split_on (c : ascii) (s : string) : list string :=
  match s with
  | EmptyString => [EmptyString]
  | String x s' =>
      if bool_decide (x = c) then EmptyString :: split_on c s'
      else match split_on c s' with
           | w :: ws => String x w :: ws
           | [] => [String x EmptyString]
           end
  end.

(** [s.partition(c)]: the text before the first [c] and the text after it
    ([None] when there is no [c]). *)
Fixpoint partition_on (c : ascii) (s : string) : string * option string :=
  match s with
  | EmptyString => (EmptyString, None)
  | String x s' =>
      if bool_decide (x = c) then (EmptyString, Some s')
      else let '(k, v) := partition_on c s' in (String x k, v)
  end.

End posixpath.

(** A resolved path: the names from the root of the process down to the
    entry.  The root itself is [[]]. *)
Abbreviation path := (list string).

(** One component of a path walk.  Empty components and [.] stay in place,
    [..] goes to the parent (symbolic links are not followed in this model,
    so the parent is the lexical one). *)
Definition step (p : path) (c : string) : path :=
  if bool_decide (c = EmptyString) || bool_decide (c = ".") then p
  else if bool_decide (c = "..") then removelast p
  else p ++ [c].

(** Where a path string leads, from the root if it is absolute and from the
    working directory otherwise. *)
Definition locate (cwd : path) (s : string) : path :=
  foldl step (if posixpath.startswith_sep s then [] else cwd)
        (posixpath.split_on posixpath.sep s).




(** ** The operating system as one process sees it *)

Inductive node :=
| Dir
| File (executable : bool)
| Symlink (target : string)
| Device (mode rdev : Z).

#[global] Instance node_eq_dec : EqDecision node.
Proof. solve_decision. Defined.

(** The entries of a file tree by resolved path.  The root is always a
    directory and has no entry of its own. *)
Definition lookup_node (v : gmap path node) (p : path) : option node :=
  match p with
  | [] => Some Dir
  | _ => v !! p
  end.

(** [strip p k] is [Some r] exactly when [k = p ++ r]. *)
Fixpoint strip (p k : path) : option path :=
  match p, k with
  | [], _ => Some k
  | a :: p', b :: k' => if bool_decide (a = b) then strip p' k' else None
  | _ :: _, [] => None
  end.

(** [below p k] is [Some r] exactly when [k] lies strictly below [p], at
    [p ++ r]. *)
Definition below (p k : path) : option path :=
  match strip p k with
  | Some (c :: r) => Some (c :: r)
  | _ => None
  end.

(** Move the entries of a tree: the entry at [k] goes to [f k], entries with
    [f k = None] are dropped. *)
Definition rekey (f : path -> option path) (v : gmap path node) : gmap path node :=
  list_to_map (omap (λ kv, (λ k', (k', kv.2)) <$> f kv.1) (map_to_list v)).

(** What lies strictly below [p], named relative to [p]. *)
Definition subtree (p : path) (v : gmap path node) : gmap path node :=
  rekey (below p) v.

(** A relative tree put below [p]. *)
Definition graft (p : path) (t : gmap path node) : gmap path node :=
  rekey (λ r, Some (p ++ r)) t.

(** Everything except what lies strictly below [p]. *)
Definition outside (p : path) (v : gmap path node) : gmap path node :=
  filter (λ kv, below p kv.1 = None) v.

Record mounted := mkMount {
  m_point : path;                (* where the file system is attached *)
  m_fstype : string;
  m_flags : Z;
  m_data : string;
  m_shared : bool;               (* propagation type: shared or private *)
  m_covered : gmap path node     (* what the mount hides, relative to [m_point] *)
}.

(** The state a process carries: its view of the file tree through its mount
    namespace, the mount table, the working directory, the host name of its
    UTS namespace, its umask and whether it holds the administrator
    capabilities. *)
Record procstate := mkProc {
  ps_view : gmap path node;
  ps_mounts : list mounted;
  ps_cwd : path;
  ps_hostname : string;
  ps_umask : Z;
  ps_privileged : bool
}.

Inductive errno :=
| EPERM | ENOENT | ECHILD | EACCES | EBUSY | EEXIST
| ENOTDIR | ENODEV | EINVAL | ENOTEMPTY.

#[global] Instance errno_eq_dec : EqDecision errno.
Proof. solve_decision. Defined.

Inductive result (A : Type) :=
| Done (a : A)
| Fail (e : errno).
Arguments Done {A} a.
Arguments Fail {A} e.

#[global] Instance result_eq_dec {A} `{EqDecision A} : EqDecision (result A).
Proof. solve_decision. Defined.

(** Constants of the Linux ABI that [linux] and [stat] export. *)
Definition MS_NOSUID : Z := 2.
Definition MS_NODEV : Z := 4.
Definition MS_REMOUNT : Z := 32.
Definition MS_BIND : Z := 4096.
Definition MS_MOVE : Z := 8192.
Definition MS_REC : Z := 16384.
Definition MS_UNBINDABLE : Z := 131072.
Definition MS_PRIVATE : Z := 262144.
Definition MS_SLAVE : Z := 524288.
Definition MS_SHARED : Z := 1048576.
Definition MS_STRICTATIME : Z := 16777216.
Definition MNT_DETACH : Z := 2.
Definition CLONE_NEWNS : Z := 131072.
Definition CLONE_NEWUTS : Z := 67108864.
Definition CLONE_NEWPID : Z := 536870912.
Definition CLONE_NEWNET : Z := 1073741824.
Definition S_IFCHR : Z := 8192.      (* 0o020000 *)

(** [os.makedev], as glibc's [gnu_dev_makedev] and its inverses. *)
Definition makedev (major minor : Z) : Z :=
  Z.lor (Z.lor (Z.shiftl (Z.land major 4095) 8)
               (Z.shiftl (Z.land major 4294963200) 32))
        (Z.lor (Z.land minor 255)
               (Z.shiftl (Z.land minor 4294967040) 12)).



Definition has_flag (flags bit : Z) : bool := negb (Z.land flags bit =? 0).

#[global] Instance result_ret : MRet result := λ A a, Done a.
#[global] Instance result_bind : MBind result := λ A B k r,
  match r with
  | Done a => k a
  | Fail e => Fail e
  end.

(** ** The system calls, as functions of the state of the calling process

    Each call checks what the kernel checks and answers [Fail] with the error
    number, or [Done] with the new state.  File permissions other than the
    administrator capability are not modelled, symbolic links are never
    followed, and the contents the kernel itself shows in [proc], [sysfs] and
    [devpts] are left out: a file system of these types starts empty, as
    [tmpfs] does. *)
Module Kernel.

Definition set_view (v : gmap path node) (ps : procstate) : procstate :=
  mkProc v (ps_mounts ps) (ps_cwd ps) (ps_hostname ps) (ps_umask ps)
         (ps_privileged ps).

Definition set_mounts (ms : list mounted) (ps : procstate) : procstate :=
  mkProc (ps_view ps) ms (ps_cwd ps) (ps_hostname ps) (ps_umask ps)
         (ps_privileged ps).

Definition set_cwd (d : path) (ps : procstate) : procstate :=
  mkProc (ps_view ps) (ps_mounts ps) d (ps_hostname ps) (ps_umask ps)
         (ps_privileged ps).

Definition set_hostname (h : string) (ps : procstate) : procstate :=
  mkProc (ps_view ps) (ps_mounts ps) (ps_cwd ps) h (ps_umask ps)
         (ps_privileged ps).

(** The empty path string resolves to nothing. *)
Definition resolve (ps : procstate) (s : string) : option path :=
  if bool_decide (s = EmptyString) then None
  else Some (locate (ps_cwd ps) s).

(** [os.path.exists] *)
Definition path_exists (s : string) (ps : procstate) : bool :=
  match resolve ps s with
  | Some p =>
      match lookup_node (ps_view ps) p with
      | Some _ => true
      | None => false
      end
  | None => false
  end.

(** Create the directories [base/n1], [base/n1/n2], ... that are missing. *)
Fixpoint mkdirs (base : path) (names : list string) (v : gmap path node)
  : result (gmap path node) :=
  match names with
  | [] => Done v
  | n :: ns =>
      let q := base ++ [n] in
      match v !! q with
      | None => mkdirs q ns (<[q := Dir]> v)
      | Some Dir => mkdirs q ns v
      | Some _ => Fail ENOTDIR
      end
  end.

(** [os.makedirs] with [exist_ok] left at [False]: the leaf must not exist. *)
Definition makedirs (s : string) (ps : procstate) : result procstate :=
  match resolve ps s with
  | None => Fail ENOENT
  | Some p =>
      match lookup_node (ps_view ps) p with
      | Some _ => Fail EEXIST
      | None => v ← mkdirs [] p (ps_view ps); Done (set_view v ps)
      end
  end.

(** A new entry in an existing directory. *)
Definition create (s : string) (n : node) (ps : procstate) : result procstate :=
  match resolve ps s with
  | None => Fail ENOENT
  | Some p =>
      match lookup_node (ps_view ps) (removelast p) with
      | None => Fail ENOENT
      | Some Dir =>
          match lookup_node (ps_view ps) p with
          | Some _ => Fail EEXIST
          | None => Done (set_view (<[p := n]> (ps_view ps)) ps)
          end
      | Some _ => Fail ENOTDIR
      end
  end.

Definition symlink (target linkpath : string) (ps : procstate) : result procstate :=
  create linkpath (Symlink target) ps.

(** [mknod]: the permission bits of [mode] are cut by the umask; making a
    device node needs the capability. *)
Definition mknod (s : string) (mode dev : Z) (ps : procstate) : result procstate :=
  ps' ← create s (Device (Z.land mode (Z.lnot (ps_umask ps))) dev) ps;
  if ps_privileged ps then Done ps' else Fail EPERM.

Definition sethostname (name : string) (ps : procstate) : result procstate :=
  if negb (ps_privileged ps) then Fail EPERM
  else if (64 <? String.length name)%nat then Fail EINVAL
  else Done (set_hostname name ps).

Definition chdir (s : string) (ps : procstate) : result procstate :=
  match resolve ps s with
  | None => Fail ENOENT
  | Some p =>
      match lookup_node (ps_view ps) p with
      | None => Fail ENOENT
      | Some Dir => Done (set_cwd p ps)
      | Some _ => Fail ENOTDIR
      end
  end.

(** *** Mounts *)

(** The mount on top at [p]; the table lists the newest mount first. *)
Definition find_mount (p : path) (ms : list mounted) : option mounted :=
  List.find (λ m, bool_decide (m_point m = p)) ms.

Definition longest (ms : list mounted) : option mounted :=
  foldr (λ m best,
           match best with
           | Some b =>
               if (length (m_point b) <=? length (m_point m))%nat
               then Some m else Some b
           | None => Some m
           end) None ms.

(** The mount an entry at [p] lives in, and the mount that the mount point
    [p] itself lives in. *)
Definition mount_of (p : path) (ms : list mounted) : option mounted :=
  longest (filter (λ m, is_Some (strip (m_point m) p)) ms).

Definition parent_mount_of (p : path) (ms : list mounted) : option mounted :=
  longest (filter (λ m, is_Some (below (m_point m) p)) ms).

Definition set_shared (b : bool) (m : mounted) : mounted :=
  mkMount (m_point m) (m_fstype m) (m_flags m) (m_data m) b (m_covered m).

Definition set_point (p : path) (m : mounted) : mounted :=
  mkMount p (m_fstype m) (m_flags m) (m_data m) (m_shared m) (m_covered m).

Definition set_covered (c : gmap path node) (m : mounted) : mounted :=
  mkMount (m_point m) (m_fstype m) (m_flags m) (m_data m) (m_shared m) c.

Definition set_propagation (shared rec : bool) (p : path) (ms : list mounted)
  : list mounted :=
  map (λ m, if bool_decide (m_point m = p)
               || (rec && bool_decide (is_Some (strip p (m_point m))))
            then set_shared shared m else m) ms.

Definition propagation_flags : Z :=
  Z.lor (Z.lor MS_SHARED MS_PRIVATE)
        (Z.lor MS_SLAVE MS_UNBINDABLE).

(** The [key=value] options of a mount data string, separated by commas;
    a later option overrides an earlier one of the same key. *)
Definition options (data : string) : list (string * option string) :=
  map (posixpath.partition_on "="%char) (posixpath.split_on ","%char data).

Definition option_value (key : string) (opts : list (string * option string))
  : option string :=
  match List.find (λ kv, bool_decide (kv.1 = key)) (rev opts) with
  | Some (_, Some v) => Some v
  | _ => None
  end.

(** The tree below a directory that serves as a layer of an overlay. *)
Definition layer (ps : procstate) (s : string) : result (gmap path node) :=
  match resolve ps s with
  | None => Fail ENOENT
  | Some p =>
      match lookup_node (ps_view ps) p with
      | None => Fail ENOENT
      | Some Dir => Done (subtree p (ps_view ps))
      | Some _ => Fail ENOTDIR
      end
  end.

(** Lower layers, the leftmost on top. *)
Fixpoint layers (ps : procstate) (dirs : list string) : result (gmap path node) :=
  match dirs with
  | [] => Done ∅
  | d :: ds => t ← layer ps d; ts ← layers ps ds; Done (t ∪ ts)
  end.

(** The merged tree of an overlay: the upper directory over the lower
    ones.  The tree is taken when the mount is made; what is written
    through the mount afterwards stays in the merged tree and is not copied
    into the upper directory, which the launcher never reads again.  An
    option the overlay driver does not know is refused. *)
Definition known_option (kv : string * option string) : bool :=
  match kv.2 with
  | Some _ => bool_decide (kv.1 ∈ ["lowerdir"; "upperdir"; "workdir"; "redirect_dir";
                                   "index"; "nfs_export"; "xino"; "metacopy";
                                   "uuid"; "verity"])
  | None => bool_decide (kv.1 ∈ ["volatile"; "userxattr"; "default_permissions"])
  end.

Definition overlay_tree (ps : procstate) (data : string) : result (gmap path node) :=
  let opts := options data in
  if negb (forallb known_option opts) then Fail EINVAL else
  match option_value "lowerdir" opts with
  | None => Fail EINVAL
  | Some lower =>
      lo ← layers ps (posixpath.split_on ":"%char lower);
      match option_value "upperdir" opts with
      | None => Done lo
      | Some upper =>
          match option_value "workdir" opts with
          | None => Fail EINVAL
          | Some work =>
              up ← layer ps upper; _ ← layer ps work; Done (up ∪ lo)
          end
      end
  end.

(** Attach a file system with the tree [t] at [target]: what was below the
    mount point is covered, and a mount made inside a shared mount is
    shared. *)
Definition new_mount (target : path) (fstype : string) (flags : Z) (data : string)
    (t : gmap path node) (ps : procstate) : procstate :=
  let v := ps_view ps in
  let shared := match mount_of target (ps_mounts ps) with
                | Some pm => m_shared pm
                | None => false
                end in
  set_mounts (mkMount target fstype flags data shared (subtree target v)
                :: ps_mounts ps)
             (set_view (outside target v ∪ graft target t) ps).

(** [mount(2)].  A propagation flag changes the propagation type of the
    mount at [target] (and, with [MS_REC], of the mounts below it);
    otherwise a new file system of type [fstype] is attached.  Remount,
    bind and move are outside the model and answered with [EINVAL]; the
    launcher requests none of them. *)
Definition mount (source : option string) (target : string) (fstype : option string)
    (flags : Z) (data : option string) (fstypes : list string) (ps : procstate)
  : result procstate :=
  match resolve ps target with
  | None => Fail ENOENT
  | Some t =>
      match lookup_node (ps_view ps) t with
      | None => Fail ENOENT
      | Some n =>
          if negb (ps_privileged ps) then Fail EPERM
          else if has_flag flags propagation_flags then
            let kind := Z.land flags (Z.lnot MS_REC) in
            if bool_decide (kind ∈ [MS_SHARED; MS_PRIVATE;
                                     MS_SLAVE; MS_UNBINDABLE])
               && bool_decide (is_Some (find_mount t (ps_mounts ps)))
            then Done (set_mounts
                         (set_propagation (has_flag flags MS_SHARED)
                            (has_flag flags MS_REC) t (ps_mounts ps)) ps)
            else Fail EINVAL
          else if has_flag flags (Z.lor MS_REMOUNT
                                    (Z.lor MS_BIND MS_MOVE))
          then Fail EINVAL
          else
            match n, fstype with
            | Dir, Some ty =>
                if bool_decide (ty ∈ fstypes) then
                  if bool_decide (ty = "overlay") then
                    tree ← overlay_tree ps (default EmptyString data);
                    Done (new_mount t ty flags (default EmptyString data) tree ps)
                  else
                    Done (new_mount t ty flags (default EmptyString data) ∅ ps)
                else Fail ENODEV
            | Dir, None => Fail EINVAL
            | _, _ => Fail ENOTDIR
            end
      end
  end.

(** The table without the mount on top at [p], and the mounts listed before
    it (the newer ones) and after it. *)
Fixpoint newer_than (p : path) (ms : list mounted) : list mounted :=
  match ms with
  | [] => []
  | m :: ms' => if bool_decide (m_point m = p) then [] else m :: newer_than p ms'
  end.

Fixpoint older_than (p : path) (ms : list mounted) : list mounted :=
  match ms with
  | [] => []
  | m :: ms' => if bool_decide (m_point m = p) then ms' else older_than p ms'
  end.

Fixpoint update_first (p : path) (f : mounted -> mounted) (ms : list mounted)
  : list mounted :=
  match ms with
  | [] => []
  | m :: ms' =>
      if bool_decide (m_point m = p) then f m :: ms'
      else m :: update_first p f ms'
  end.

(** Where a mount point of the old table lies after the root has moved to
    [n] and the old root to [orel]. *)
Definition repoint (n orel : path) (m : mounted) : mounted :=
  match below n (m_point m) with
  | Some r => set_point r m
  | None => set_point (orel ++ m_point m) m
  end.

(** [pivot_root(2)].  [new_root] must be a mount point other than the root,
    [put_old] a directory at or below it, and neither the root mount nor the
    mount that holds [new_root] may be shared.  Afterwards the tree of
    [new_root] is the root, and the old tree, with [new_root] taken off it,
    is mounted at [put_old].  A working directory that was the old root
    follows the root. *)
Definition pivot_root (new_root put_old : string) (ps : procstate)
  : result procstate :=
  match resolve ps new_root, resolve ps put_old with
  | Some n, Some o =>
      match lookup_node (ps_view ps) n, lookup_node (ps_view ps) o with
      | Some Dir, Some Dir =>
          if negb (ps_privileged ps) then Fail EPERM
          else if bool_decide (n = []) then Fail EBUSY
          else
            let ms := ps_mounts ps in
            match find_mount n ms, strip n o,
                  find_mount [] ms, parent_mount_of n ms with
            | Some mn, Some orel, Some mroot, Some mpar =>
                if m_shared mroot || m_shared mpar then Fail EINVAL
                else
                  let v := ps_view ps in
                  let inner := subtree n v in
                  let old := outside n v ∪ graft n (m_covered mn) in
                  let rest := update_first [] (set_covered (subtree orel inner))
                                (newer_than n ms ++ older_than n ms) in
                  Done (mkProc
                          (outside orel inner ∪ graft orel old)
                          (map (repoint n orel) rest ++ [set_point [] mn])
                          (if bool_decide (ps_cwd ps = []) then []
                           else match strip n (ps_cwd ps) with
                                | Some r => r
                                | None => orel ++ ps_cwd ps
                                end)
                          (ps_hostname ps) (ps_umask ps) (ps_privileged ps))
            | _, _, _, _ => Fail EINVAL
            end
      | None, _ | _, None => Fail ENOENT
      | _, _ => Fail ENOTDIR
      end
  | _, _ => Fail ENOENT
  end.

(** [umount2(2)].  The mount on top at [target] is taken off together with
    the mounts made inside it, and what it covered shows again.  Without
    [MNT_DETACH] a mount in use (holding the working directory or another
    mount) is busy. *)
Definition umount2 (target : string) (flags : Z) (ps : procstate)
  : result procstate :=
  match resolve ps target with
  | None => Fail ENOENT
  | Some t =>
      match lookup_node (ps_view ps) t with
      | None => Fail ENOENT
      | Some _ =>
          if negb (ps_privileged ps) then Fail EPERM
          else
            match t, find_mount t (ps_mounts ps) with
            | _ :: _, Some m =>
                let inside := filter (λ x, is_Some (below t (m_point x)))
                                     (newer_than t (ps_mounts ps)) in
                let busy := bool_decide (is_Some (strip t (ps_cwd ps)))
                            || bool_decide (inside ≠ []) in
                if busy && negb (has_flag flags MNT_DETACH) then Fail EBUSY
                else
                  Done (set_mounts
                          (filter (λ x, below t (m_point x) = None)
                                  (newer_than t (ps_mounts ps))
                             ++ older_than t (ps_mounts ps))
                          (set_view (outside t (ps_view ps) ∪ graft t (m_covered m))
                                    ps))
            | _, _ => Fail EINVAL
            end
      end
  end.

(** [rmdir(2)]: an empty directory that is not a mount point. *)
Definition rmdir (s : string) (ps : procstate) : result procstate :=
  match resolve ps s with
  | None => Fail ENOENT
  | Some p =>
      if bool_decide (p = []) then Fail EBUSY
      else
        match ps_view ps !! p with
        | None => Fail ENOENT
        | Some Dir =>
            if bool_decide (is_Some (find_mount p (ps_mounts ps))) then Fail EBUSY
            else if bool_decide (subtree p (ps_view ps) = ∅)
                 then Done (set_view (delete p (ps_view ps)) ps)
                 else Fail ENOTEMPTY
        | Some _ => Fail ENOTDIR
        end
  end.

(** What [execv] asks of the file it is to run. *)
Definition executable (s : string) (ps : procstate) : result unit :=
  match resolve ps s with
  | None => Fail ENOENT
  | Some p =>
      match lookup_node (ps_view ps) p with
      | None => Fail ENOENT
      | Some (File true) => Done tt
      | Some _ => Fail EACCES
      end
  end.

End Kernel.

(** ** The world of a launch, and the monad the launcher runs in *)

Inductive process :=
| Parent
| Child (pid : Z).

#[global] Instance process_eq_dec : EqDecision process.
Proof. solve_decision. Defined.

(** The exceptions of the launcher: [os] raises [OSError] (with its
    subclasses, told apart by the error number), the [linux] binding raises
    its own error for a system call that fails, and [command[0]] on an empty
    list raises [IndexError]. *)
Inductive exn :=
| OSError (e : errno)
| LinuxError (e : errno)
| IndexError.

#[global] Instance exn_eq_dec : EqDecision exn.
Proof. solve_decision. Defined.

Inductive termination :=
| Exited (code : Z)
| Signaled (sig : Z) (core : bool).

#[global] Instance termination_eq_dec : EqDecision termination.
Proof. solve_decision. Defined.

(** The status word [os.waitpid] returns. *)
Definition wait_status (t : termination) : Z :=
  match t with
  | Exited code => Z.shiftl (Z.land code 255) 8
  | Signaled sig core => Z.lor (Z.land sig 127) (if core then 128 else 0)
  end.

Inductive call :=
| Sethostname (name : string)
| Mount (source : option string) (target : string) (fstype : option string)
        (flags : Z) (data : option string)
| PathExists (p : string)
| Makedirs (p : string)
| Symlink_ (src dst : string)
| Mknod (p : string) (mode device : Z)
| PivotRoot (new_root put_old : string)
| Chdir (p : string)
| Umount2 (target : string) (flags : Z)
| Rmdir (p : string)
| Execvp (file : string) (args : list string)
| Clone (flags : Z)
| Waitpid (pid options : Z)
| Print (line : string)
| Exit (t : termination).

#[global] Instance call_eq_dec : EqDecision call.
Proof. solve_decision. Defined.

(** How the callback of a cloned child ended. *)
Inductive child_end :=
| Returned
| Raised (e : exn)
| Execed (file : string) (argv : list string).

Record child := mkChild {
  c_end : child_end;
  c_term : termination;
  c_state : procstate;      (* the state of the child when its callback ended *)
  c_waited : bool
}.

Record world := mkWorld {
  w_who : process;                      (* the process that is running *)
  w_proc : procstate;
  w_fstypes : list string;              (* file-system types the kernel knows *)
  w_path_env : list string;             (* the directories of [PATH] *)
  w_next_pid : Z;
  w_exit_of : child_end -> termination; (* how a child terminates, given how
                                           its callback ended: the business of
                                           the program it runs *)
  w_children : list (Z * child);
  w_trace : list (process * call)       (* every call, oldest first *)
}.

Definition set_who (p : process) (w : world) : world :=
  mkWorld p (w_proc w) (w_fstypes w) (w_path_env w) (w_next_pid w) (w_exit_of w)
          (w_children w) (w_trace w).

Definition set_proc (ps : procstate) (w : world) : world :=
  mkWorld (w_who w) ps (w_fstypes w) (w_path_env w) (w_next_pid w) (w_exit_of w)
          (w_children w) (w_trace w).

Definition set_children (cs : list (Z * child)) (w : world) : world :=
  mkWorld (w_who w) (w_proc w) (w_fstypes w) (w_path_env w) (w_next_pid w)
          (w_exit_of w) cs (w_trace w).

Definition set_trace (t : list (process * call)) (w : world) : world :=
  mkWorld (w_who w) (w_proc w) (w_fstypes w) (w_path_env w) (w_next_pid w)
          (w_exit_of w) (w_children w) t.

(** The result of running a piece of the launcher: a value, an exception, or
    the replacement of the process image by [execvp], after which no code of
    the launcher runs in this process. *)
Inductive outcome (A : Type) :=
| Ok (a : A)
| Raise (e : exn)
| Replaced (file : string) (argv : list string).
Arguments Ok {A} a.
Arguments Raise {A} e.
Arguments Replaced {A} file argv.

Definition M (A : Type) : Type := world -> outcome A * world.

#[global] Instance M_ret : MRet M := λ A a w, (Ok a, w).
#[global] Instance M_bind : MBind M := λ A B k m w,
  match m w with
  | (Ok a, w') => k a w'
  | (Raise e, w') => (Raise e, w')
  | (Replaced f a, w') => (Replaced f a, w')
  end.

Definition raise {A} (e : exn) : M A := λ w, (Raise e, w).

(** A step given directly as a function of the world. *)
Definition act {A} (f : world -> outcome A * world) : M A := f.

(** Record a call of the running process. *)
Definition log (c : call) : M unit :=
  λ w, (Ok tt, set_trace (w_trace w ++ [(w_who w, c)]) w).

(** A system call of the running process: the call is recorded, then it
    changes the state of the process or fails with an error number, which
    [wrap] turns into the exception of the library that made the call. *)
Definition syscall (c : call) (wrap : errno -> exn)
    (f : world -> result procstate) : M unit :=
  log c;;
  act (λ w, match f w with
            | Done ps => (Ok tt, set_proc ps w)
            | Fail e => (Raise (wrap e), w)
            end).

(** [for x in xs: body(x)] *)
Fixpoint for_ {A} (xs : list A) (body : A -> M unit) : M unit :=
  match xs with
  | [] => mret tt
  | x :: xs' => body x;; for_ xs' body
  end.

Definition print (line : string) : M unit := log (Print line).

(** The calls the launcher has made since the trace [t0] was taken. *)
Definition calls_since (t0 : list (process * call)) (w : world)
  : list (process * call) :=
  drop (length t0) (w_trace w).

(** What has been printed, oldest line first. *)
Definition printed (t : list (process * call)) : list string :=
  omap (λ ev, match ev.2 with Print l => Some l | _ => None end) t.

Module os.

Definition path_exists (p : string) : M bool :=
  log (PathExists p);; act (λ w, (Ok (Kernel.path_exists p (w_proc w)), w)).

Definition makedirs (name : string) : M unit :=
  syscall (Makedirs name) OSError (λ w, Kernel.makedirs name (w_proc w)).

Definition symlink (src dst : string) : M unit :=
  syscall (Symlink_ src dst) OSError (λ w, Kernel.symlink src dst (w_proc w)).

Definition mknod (p : string) (mode device : Z) : M unit :=
  syscall (Mknod p mode device) OSError
          (λ w, Kernel.mknod p mode device (w_proc w)).

Definition chdir (p : string) : M unit :=
  syscall (Chdir p) OSError (λ w, Kernel.chdir p (w_proc w)).

Definition rmdir (p : string) : M unit :=
  syscall (Rmdir p) OSError (λ w, Kernel.rmdir p (w_proc w)).

(** [os.execvp]: a name with a separator is run as it is, any other name is
    looked for in the directories of [PATH], in order.  The first
    candidate that can be run replaces the process image; if none can, the
    error is that of a candidate that exists but cannot be run, if there is
    one, and [ENOENT] otherwise. *)
Definition candidates (file : string) (path_env : list string) : list string :=
  if bool_decide (posixpath.split_on posixpath.sep file = [file])
  then (λ d, posixpath.join d [file]) <$> path_env
  else [file].

Definition execvp (file : string) (args : list string) : M unit :=
  log (Execvp file args);;
  act (λ w,
    let tries := (λ c, (c, Kernel.executable c (w_proc w)))
                   <$> candidates file (w_path_env w) in
    match List.find (λ t, bool_decide (t.2 = Done tt)) tries with
    | Some (c, _) => (Replaced c args, w)
    | None =>
        if bool_decide (Fail EACCES ∈ tries.*2)
        then (Raise (OSError EACCES), w)
        else (Raise (OSError ENOENT), w)
    end).

(** [os.waitpid]: in this model a child has run to its end when [clone]
    returns, so the wait finds it terminated; a child is waited for once. *)
Definition waitpid (pid options : Z) : M (Z * Z) :=
  log (Waitpid pid options);;
  act (λ w,
    match List.find (λ c, bool_decide (c.1 = pid) && negb (c_waited c.2))
                    (w_children w) with
    | Some (_, c) =>
        (Ok (pid, wait_status (c_term c)),
         set_children
           ((λ c', if bool_decide (c'.1 = pid)
                   then (c'.1, mkChild (c_end c'.2) (c_term c'.2) (c_state c'.2) true)
                   else c') <$> w_children w) w)
    | None => (Raise (OSError ECHILD), w)
    end).

End os.

Module linux.

Definition sethostname (name : string) : M unit :=
  syscall (Sethostname name) LinuxError
          (λ w, Kernel.sethostname name (w_proc w)).

Definition mount (source : option string) (target : string)
    (fstype : option string) (flags : Z) (data : option string) : M unit :=
  syscall (Mount source target fstype flags data) LinuxError
          (λ w, Kernel.mount source target fstype flags data (w_fstypes w)
                             (w_proc w)).

Definition pivot_root (new_root put_old : string) : M unit :=
  syscall (PivotRoot new_root put_old) LinuxError
          (λ w, Kernel.pivot_root new_root put_old (w_proc w)).

Definition umount2 (target : string) (flags : Z) : M unit :=
  syscall (Umount2 target flags) LinuxError
          (λ w, Kernel.umount2 target flags (w_proc w)).

(** [linux.clone(callback, flags, args)]: a child process runs the
    callback.  The child starts from the state of the caller; with
    [CLONE_NEWNS] and [CLONE_NEWUTS] its mounts and its host name are its
    own, without them they are those of the caller.  The caller does
    nothing but wait between the clone and the end of the child, so the
    child is run to its end here, and its calls enter the trace after the
    [Clone] and before the next call of the caller.  What the child and the
    program it runs leave on disk is not carried back to the caller, who
    does not look. *)
Definition clone {A} (callback : M A) (flags : Z) : M Z :=
  log (Clone flags);;
  act (λ w,
    if negb (ps_privileged (w_proc w)) then (Raise (LinuxError EPERM), w)
    else
      let pid := w_next_pid w in
      let '(r, wc) := callback (set_children [] (set_who (Child pid) w)) in
      let ending := match r with
                    | Ok _ => Returned
                    | Raise e => Raised e
                    | Replaced f a => Execed f a
                    end in
      let term := w_exit_of w ending in
      let pc := w_proc wc in
      let pp := w_proc w in
      let own_ns := has_flag flags CLONE_NEWNS in
      (Ok pid,
       mkWorld (w_who w)
         (mkProc (if own_ns then ps_view pp else ps_view pc)
                 (if own_ns then ps_mounts pp else ps_mounts pc)
                 (ps_cwd pp)
                 (if has_flag flags CLONE_NEWUTS
                  then ps_hostname pp else ps_hostname pc)
                 (ps_umask pp) (ps_privileged pp))
         (w_fstypes w) (w_path_env w) (pid + 1) (w_exit_of w)
         ((pid, mkChild ending term pc false) :: w_children w)
         (w_trace wc ++ [(Child pid, Exit term)]))).

End linux.

(** [repr] of a [str] and of a [ContainerDir], as the f-string of
    [ContainerExecuter.execute] prints them. *)
Module py.

Definition squote : ascii := "'"%char.
Definition dquote : ascii := ascii_of_nat 34.
Definition backslash : ascii := "\"%char.

Fixpoint contains (c : ascii) (s : string) : bool :=
  match s with
  | EmptyString => false
  | String x s' => bool_decide (x = c) || contains c s'
  end.

Definition hex_digit (n : N) : ascii :=
  nth (N.to_nat n) (list_ascii_of_string "0123456789abcdef") "0"%char.

Definition escape (quote c : ascii) : string :=
  let n := N_of_ascii c in
  if bool_decide (c = quote) || bool_decide (c = backslash)
  then String backslash (String c EmptyString)
  else if (n =? 9)%N then String backslash "t"
  else if (n =? 10)%N then String backslash "n"
  else if (n =? 13)%N then String backslash "r"
  else if (n <? 32)%N || (n =? 127)%N
  then String backslash
         (String "x" (String (hex_digit (n / 16)) (String (hex_digit (n mod 16))
                                                         EmptyString)))
  else String c EmptyString.

Fixpoint escape_all (quote : ascii) (s : string) : string :=
  match s with
  | EmptyString => EmptyString
  | String c s' => escape quote c +:+ escape_all quote s'
  end.

Definition repr_str (s : string) : string :=
  let q := if contains squote s && negb (contains dquote s)
           then dquote else squote in
  String q (escape_all q s +:+ String q EmptyString).

Definition repr_ContainerDir (d : ContainerDir) : string :=
  "ContainerDir(root_dir=" +:+ repr_str (root_dir d)
    +:+ ", rw_dir=" +:+ repr_str (rw_dir d)
    +:+ ", work_dir=" +:+ repr_str (work_dir d) +:+ ")".

(** [enumerate] *)
Definition enumerate {A} (l : list A) : list (Z * A) :=
  zip (seqZ 0 (Z.of_nat (length l))) l.

End py.

(** ** The launcher *)

Module ContainerExecuter.

Definition IMAGE_DATA_DIR : string := "/var/opt/app/images".
Definition CONTAINER_DATA_DIR : string := "/var/opt/app/container".

Definition _get_image_base_path (img : Image) (image_dir : string) : string :=
  posixpath.join image_dir
    [library img +:+ "_" +:+ image img +:+ "_" +:+ tag img].

Definition _get_container_data_base_path (container_id base_path : string)
  : string :=
  posixpath.join base_path [container_id].

Definition _create_container_root_dir (container_id : string) : M ContainerDir :=
  let container_data_base_dir :=
    _get_container_data_base_path container_id CONTAINER_DATA_DIR in
  let container_rootfs_dir := posixpath.join container_data_base_dir ["rootfs"] in
  let container_cow_rw_dir := posixpath.join container_data_base_dir ["cow_rw"] in
  let container_cow_workdir :=
    posixpath.join container_data_base_dir ["cow_workdir"] in
  for_ [container_rootfs_dir; container_cow_rw_dir; container_cow_workdir]
       (λ d, e ← os.path_exists d;
             if negb e then os.makedirs d else mret tt);;
  mret (mkContainerDir container_rootfs_dir container_cow_rw_dir
                       container_cow_workdir).

Definition _mount_image_dir (img : Image) (container_dir : ContainerDir) : M unit :=
  let image_path := _get_image_base_path img IMAGE_DATA_DIR in
  let image_root := posixpath.join image_path ["layers/contents"] in
  linux.mount (Some "overlay") (root_dir container_dir) (Some "overlay") MS_NODEV
    (Some ("lowerdir=" +:+ image_root
             +:+ ",upperdir=" +:+ rw_dir container_dir
             +:+ ",workdir=" +:+ work_dir container_dir)).

Definition _init_devices (dev_path : string) : M unit :=
  for_ (py.enumerate ["stdin"; "stdout"; "stderr"])
       (λ '(i, dev), os.symlink ("/proc/self/fd/" +:+ pretty i)
                                (posixpath.join dev_path [dev]));;
  os.symlink "/proc/self/fd" (posixpath.join dev_path ["fd"]);;
  let devices :=
    [("null", (S_IFCHR, 1, 3));
     ("zero", (S_IFCHR, 1, 5));
     ("random", (S_IFCHR, 1, 8));
     ("urandom", (S_IFCHR, 1, 9));
     ("console", (S_IFCHR, 136, 1));
     ("tty", (S_IFCHR, 5, 0));
     ("full", (S_IFCHR, 1, 7))] in
  for_ devices
       (λ '(device, (dev_type, major, minor)),
          os.mknod (posixpath.join dev_path [device])
                   (Z.lor 438 dev_type) (makedev major minor)).

Definition _init_system_dir (container_root_dir : string) : M unit :=
  let proc_dir := posixpath.join container_root_dir ["proc"] in
  let sysfs_dir := posixpath.join container_root_dir ["sys"] in
  let dev_dir := posixpath.join container_root_dir ["dev"] in
  for_ [proc_dir; sysfs_dir; dev_dir]
       (λ d, e ← os.path_exists d;
             if negb e then os.makedirs d else mret tt);;
  linux.mount (Some "proc") proc_dir (Some "proc") 0 (Some EmptyString);;
  linux.mount (Some "sysfs") sysfs_dir (Some "sysfs") 0 (Some EmptyString);;
  linux.mount (Some "tmpfs") dev_dir (Some "tmpfs")
              (Z.lor MS_NOSUID MS_STRICTATIME) (Some "mode=755");;
  let devpts_path := posixpath.join container_root_dir ["dev"; "pts"] in
  e ← os.path_exists devpts_path;
  (if negb e then
     os.makedirs devpts_path;;
     linux.mount (Some "devpts") devpts_path (Some "devpts") 0 (Some EmptyString)
   else mret tt);;
  _init_devices (posixpath.join container_root_dir ["dev"]).

Definition _change_root_dir (container_root_dir : string) : M unit :=
  let old_root := posixpath.join container_root_dir ["old_root"] in
  os.makedirs old_root;;
  linux.pivot_root container_root_dir old_root;;
  os.chdir "/";;
  linux.umount2 "/old_root" MNT_DETACH;;
  os.rmdir "/old_root".

Definition execute (init_params : ContainerInitParams) : M unit :=
  linux.sethostname (container_id init_params);;
  linux.mount None "/" None (Z.lor MS_PRIVATE MS_REC) None;;
  container_dir ← _create_container_root_dir (container_id init_params);
  print ("Created a new root fs for our container: "
           +:+ py.repr_ContainerDir container_dir);;
  _mount_image_dir (params_image init_params) container_dir;;
  _init_system_dir (root_dir container_dir);;
  _change_root_dir (root_dir container_dir);;
  match command init_params with
  | [] => raise IndexError
  | c0 :: _ => os.execvp c0 (command init_params)
  end.

End ContainerExecuter.

Module RunCommand.

Definition flags : Z :=
  Z.lor (Z.lor (Z.lor CLONE_NEWPID CLONE_NEWNS) CLONE_NEWUTS) CLONE_NEWNET.

Definition execute (init_params : ContainerInitParams) : M unit :=
  pid ← linux.clone (ContainerExecuter.execute init_params) flags;
  '(_, status) ← os.waitpid pid 0;
  print (pretty pid +:+ " exited with status " +:+ pretty status).

End RunCommand.

(** ** Vocabulary of the statements *)

(** A name that is one path component and names an entry. *)
Definition plain (name : string) : bool :=
  bool_decide (posixpath.split_on posixpath.sep name = [name])
  && negb (bool_decide (name = EmptyString) || bool_decide (name = ".")
           || bool_decide (name = "..")).

(** The directories [mkdirs] walks through. *)
Fixpoint dirs_along (base : path) (names : list string) : list path :=
  match names with
  | [] => []
  | n :: ns => (base ++ [n]) :: dirs_along (base ++ [n]) ns
  end.

(** The world once the running process has issued the call [c]. *)
Definition logged (c : call) (w : world) : world :=
  set_trace (w_trace w ++ [(w_who w, c)]) w.

(** ** A host to run the launcher on

    A host with one pulled image, [library/busybox:latest], whose root mount
    is shared, as an init system leaves it. *)
Module Host.

Definition tree_of (l : list (string * node)) : gmap path node :=
  list_to_map ((λ '(s, n), (locate [] s, n)) <$> l).

Definition disk : list (string * node) :=
  [("/var", Dir); ("/var/opt", Dir); ("/var/opt/app", Dir);
   ("/var/opt/app/images", Dir);
   ("/var/opt/app/images/library_busybox_latest", Dir);
   ("/var/opt/app/images/library_busybox_latest/layers", Dir);
   ("/var/opt/app/images/library_busybox_latest/layers/contents", Dir);
   ("/var/opt/app/images/library_busybox_latest/layers/contents/bin", Dir);
   ("/var/opt/app/images/library_busybox_latest/layers/contents/bin/echo",
    File true);
   ("/var/opt/app/images/library_busybox_latest/layers/contents/dev", Dir);
   ("/var/opt/app/images/library_busybox_latest/layers/contents/dev/pts", Dir);
   ("/var/opt/app/container", Dir);
   ("/home", Dir)].

Definition proc_of (files : list (string * node)) : procstate :=
  mkProc (tree_of files) [mkMount [] "ext4" 0 EmptyString true ∅]
         ["home"] "host" 18 true.

(** The program the container runs ends with status [code]; a child whose
    callback raises ends with status 255 and one whose callback returns with
    status 0. *)
Definition exit_of (code : Z) (e : child_end) : termination :=
  match e with
  | Execed _ _ => Exited code
  | Returned => Exited 0
  | Raised _ => Exited 255
  end.

Definition world_of (files : list (string * node)) (code : Z) : world :=
  mkWorld Parent (proc_of files)
          ["ext4"; "overlay"; "proc"; "sysfs"; "tmpfs"; "devpts"]
          ["/usr/bin"; "/bin"] 4242 (exit_of code) [] [].

Definition busybox : Image := mkImage "library" "busybox" "latest".

Definition params : ContainerInitParams :=
  mkContainerInitParams busybox ["echo"; "hello"] "c1".

(** The directories of container [c1], as the directory manager returns them. *)
Definition dirs : ContainerDir :=
  mkContainerDir "/var/opt/app/container/c1/rootfs"
                 "/var/opt/app/container/c1/cow_rw"
                 "/var/opt/app/container/c1/cow_workdir".

(** The same host with an image whose layers hold an entry [old_root]. *)
Definition disk_with_old_root : list (string * node) :=
  disk ++ [("/var/opt/app/images/library_busybox_latest/layers/contents/old_root",
            Dir)].

(** An image that was never pulled. *)
Definition alpine : Image := mkImage "library" "alpine" "latest".


(** The world a piece of the launcher leaves behind. *)
Definition after {A} (m : M A) (w : world) : world := (m w).2.

(** The child of a launch on the host, once the image is mounted on the root
    of [c1], and once the device initializer has run there. *)
Definition mounted_world : world :=
  after (linux.sethostname "c1";;
         linux.mount None "/" None (Z.lor MS_PRIVATE MS_REC) None;;
         ContainerExecuter._create_container_root_dir "c1";;
         ContainerExecuter._mount_image_dir busybox dirs)
        (set_children []
           (set_who (Child 4242)
              (logged (Clone RunCommand.flags) (world_of disk 0)))).

Definition initialized_world : world :=
  after (ContainerExecuter._init_system_dir (root_dir dirs)) mounted_world.

End Host.

(** ** What the specification speaks of *)

(** The lower directory of the overlay of an image: [layers/contents] in
    the directory of the image under the image data directory. *)
Definition image_contents (img : Image) : string :=
  posixpath.join ContainerExecuter.IMAGE_DATA_DIR
    [library img +:+ "_" +:+ image img +:+ "_" +:+ tag img; "layers/contents"].





(** [w'] is a later world of the same process as [w]: the trace of [w] has
    grown by calls of the process running in [w]. *)
Definition grows (w w' : world) : Prop :=
  w_who w' = w_who w
  ∧ ∃ cs, w_trace w' = w_trace w ++ ((λ c, (w_who w, c)) <$> cs).

(** A piece of the launcher that only adds calls of the running process. *)
Definition tagged {A} (m : M A) : Prop := ∀ w, grows w (m w).2.

(** The calls of [_init_devices] on the directory [dev_path], in order. *)
Definition device_calls (dev_path : string) : list call :=
  [Symlink_ "/proc/self/fd/0" (posixpath.join dev_path ["stdin"]);
   Symlink_ "/proc/self/fd/1" (posixpath.join dev_path ["stdout"]);
   Symlink_ "/proc/self/fd/2" (posixpath.join dev_path ["stderr"]);
   Symlink_ "/proc/self/fd" (posixpath.join dev_path ["fd"]);
   Mknod (posixpath.join dev_path ["null"]) (Z.lor 438 S_IFCHR) (makedev 1 3);
   Mknod (posixpath.join dev_path ["zero"]) (Z.lor 438 S_IFCHR) (makedev 1 5);
   Mknod (posixpath.join dev_path ["random"]) (Z.lor 438 S_IFCHR) (makedev 1 8);
   Mknod (posixpath.join dev_path ["urandom"]) (Z.lor 438 S_IFCHR) (makedev 1 9);
   Mknod (posixpath.join dev_path ["console"]) (Z.lor 438 S_IFCHR) (makedev 136 1);
   Mknod (posixpath.join dev_path ["tty"]) (Z.lor 438 S_IFCHR) (makedev 5 0);
   Mknod (posixpath.join dev_path ["full"]) (Z.lor 438 S_IFCHR) (makedev 1 7)].

(** A character device node of mode [0666] (438), as a process with the
    given umask creates it. *)
Definition chardev (umask major minor : Z) : node :=
  Device (Z.land (Z.lor 438 S_IFCHR) (Z.lnot umask)) (makedev major minor).

(** The device directory after the initialization: the mount point of
    [devpts], four symbolic links and seven character devices. *)
Definition dev_tree (umask : Z) : gmap path node :=
  list_to_map
    [(["pts"], Dir);
     (["stdin"], Symlink "/proc/self/fd/0");
     (["stdout"], Symlink "/proc/self/fd/1");
     (["stderr"], Symlink "/proc/self/fd/2");
     (["fd"], Symlink "/proc/self/fd");
     (["null"], chardev umask 1 3);
     (["zero"], chardev umask 1 5);
     (["random"], chardev umask 1 8);
     (["urandom"], chardev umask 1 9);
     (["console"], chardev umask 136 1);
     (["tty"], chardev umask 5 0);
     (["full"], chardev umask 1 7)].

(** The remount that makes [/] private, recursively. *)
Definition private_remount : call :=
  Mount None "/" None (Z.lor MS_PRIVATE MS_REC) None.

(** The specification on the order of the remount and the clone, read as:
    in the calls of a launch, the launching process makes the private
    remount before its clone call, and no child makes it. *)
Definition remount_before_clone (calls : list (process * call)) : Prop :=
  (∃ before after,
      calls = before ++ (Parent, Clone RunCommand.flags) :: after
      ∧ (Parent, private_remount) ∈ before)
  ∧ ∀ pid, (Child pid, private_remount) ∉ calls.

(** How the callback of the child ended, from the outcome of its run. *)
Definition ending {A} (r : outcome A) : child_end :=
  match r with
  | Ok _ => Returned
  | Raise e => Raised e
  | Replaced f a => Execed f a
  end.

(** The world in which the child of a launch from [w] starts. *)
Definition child_start (w : world) : world :=
  set_children [] (set_who (Child (w_next_pid w)) (logged (Clone RunCommand.flags) w)).

(** The line the launcher prints at the end. *)
Definition exit_line (pid status : Z) : string :=
  pretty pid +:+ " exited with status " +:+ pretty status.




(** ** Vocabulary of the further properties of the launcher *)

(** No mount of the process is shared. *)
Definition all_private (ps : procstate) : Prop :=
  Forall (λ m, m_shared m = false) (ps_mounts ps).

(** A piece of the launcher that keeps the property [P] of the state of the
    running process, however it ends. *)
Definition keeps {A} (P : procstate → Prop) (m : M A) : Prop :=
  ∀ w, P (w_proc w) → P (w_proc (m w).2).

(** A piece of the launcher that only adds calls of the running process, all
    of them calls that satisfy [Q], and leaves the search path alone. *)
Definition emits {A} (Q : call → Prop) (m : M A) : Prop :=
  ∀ w, w_who (m w).2 = w_who w
       ∧ w_path_env (m w).2 = w_path_env w
       ∧ ∃ cs, w_trace (m w).2 = w_trace w ++ ((λ c, (w_who w, c)) <$> cs)
               ∧ Forall Q cs.

(** A property of the mount table and the host name alone. *)
Definition namespace_only (P : procstate → Prop) : Prop :=
  ∀ ps ps', ps_mounts ps' = ps_mounts ps → ps_hostname ps' = ps_hostname ps →
            P ps → P ps'.

(** A piece of the launcher that never raises [IndexError]: its exceptions
    are those of its system calls. *)
Definition raises_os_errors {A} (m : M A) : Prop :=
  ∀ w e, (m w).1 = Raise e → e ≠ IndexError.

(** A piece of the launcher that never replaces the process image. *)
Definition never_replaces {A} (m : M A) : Prop :=
  ∀ w f a, (m w).1 ≠ Replaced f a.

Definition is_execvp (c : call) : bool :=
  match c with
  | Execvp _ _ => true
  | _ => false
  end.

(** A file tree that differs from [v] only by new directories. *)
Definition only_adds_dirs (v v' : gmap path node) : Prop :=
  ∀ k, v' !! k = v !! k ∨ (v !! k = None ∧ v' !! k = Some Dir).

(** What identifies a mount in the mount table: where it is, the type of
    the file system, the flags and the data it was mounted with. *)
Definition mount_entry (m : mounted) : path * string * Z * string :=
  (m_point m, m_fstype m, m_flags m, m_data m).

(** ** Regular expressions: the part of [re] that the two scripts use

    The patterns of [run.py] and [pull.py] are built from single characters,
    negated character sets, the greedy repetitions [*], [+] and [?], and
    capturing groups.  Matching is by backtracking, as [re] does it: a
    repetition first takes as much as it can and gives back one character
    at a time when what follows does not match. *)
Module re.

(** A pattern for one character. *)
Inductive item :=
| Chr (c : ascii)               (* the character itself *)
| NotIn (cs : string).          (* [[^cs]]: any character not in [cs] *)

Inductive regex :=
| One (i : item)
| Star (i : item)               (* [i*] *)
| Plus (i : item)               (* [i+] *)
| Cat (r1 r2 : regex)           (* [r1r2] *)
| Opt (r : regex)               (* [r?] *)
| Group (n : nat) (r : regex).  (* [(r)], the capturing group number [n] *)

(** A compiled pattern: the expression, and the numbers of the groups that
    have a name ([(?P<name>...)]). *)
Record Pattern := mkPattern {
  p_regex : regex;
  groupindex : gmap string nat
}.

(** A match: the text each group captured, by group number.  A group that
    took no part in the match has no entry. *)
Record Match := mkMatch {
  m_re : Pattern;
  m_captures : gmap nat string
}.

Definition accepts (i : item) (c : ascii) : bool :=
  match i with
  | Chr x => bool_decide (c = x)
  | NotIn cs => negb (py.contains c cs)
  end.

(** The text between the start of [s] and the start of its suffix [rest]. *)
Definition taken (s rest : string) : string :=
  substring 0 (String.length s - String.length rest)%nat s.

(** [i*] followed by [k]: the longest run of accepted characters first. *)
Fixpoint star {A} (p : ascii → bool) (s : string) (k : string → option A)
  : option A :=
  match s with
  | String c s' =>
      if p c then
        match star p s' k with
        | Some a => Some a
        | None => k s
        end
      else k s
  | EmptyString => k s
  end.

(** Match [r] at the start of [s] and go on with [k] on the rest of the
    text and the captures made so far. *)
Fixpoint exec (r : regex) (s : string) (g : gmap nat string)
    (k : string → gmap nat string → option (gmap nat string))
  : option (gmap nat string) :=
  match r with
  | One i =>
      match s with
      | String c s' => if accepts i c then k s' g else None
      | EmptyString => None
      end
  | Star i => star (accepts i) s (λ s', k s' g)
  | Plus i =>
      match s with
      | String c s' =>
          if accepts i c then star (accepts i) s' (λ s'', k s'' g) else None
      | EmptyString => None
      end
  | Cat r1 r2 => exec r1 s g (λ s' g', exec r2 s' g' k)
  | Opt r' =>
      match exec r' s g k with
      | Some m => Some m
      | None => k s g
      end
  | Group n r' => exec r' s g (λ s' g', k s' (<[n := taken s s']> g'))
  end.

(** [re.match(pattern, string)]: a match at the start of the string, which
    need not reach its end. *)
Definition match_ (p : Pattern) (s : string) : option Match :=
  mkMatch p <$> exec (p_regex p) s ∅ (λ _ g, Some g).

(** [m.group(name)] for a name the pattern declares: the captured text, or
    [None] for a group that took no part in the match. *)
Definition group (m : Match) (name : string) : option string :=
  n ← groupindex (m_re m) !! name; m_captures m !! n.

End re.

(** ** [uuid.uuid4] and the text of a UUID *)
Module uuid.

(** [int.from_bytes(bytes, byteorder='big')] *)
Definition from_bytes (bytes : list Byte.byte) : Z :=
  foldl (λ acc b, acc * 256 + Z.of_N (Byte.to_N b)) 0 bytes.

(** [UUID(bytes=..., version=...)]: the variant and version bits are set
    in the integer read from the bytes. *)
Definition UUID (bytes : list Byte.byte) (version : Z) : Z :=
  let int := from_bytes bytes in
  let int := Z.land int (Z.lnot (Z.shiftl 49152 48)) in     (* 0xc000 *)
  let int := Z.lor int (Z.shiftl 32768 48) in               (* 0x8000 *)
  let int := Z.land int (Z.lnot (Z.shiftl 61440 64)) in     (* 0xf000 *)
  Z.lor int (Z.shiftl version 76).

(** [uuid.uuid4()], given the sixteen bytes [os.urandom(16)] returns. *)
Definition uuid4 (urandom16 : list Byte.byte) : Z := UUID urandom16 4.

(** The last [k] hexadecimal digits of [n]; ['%032x' % n] for an [n] below
    [2^128], as the integer of a UUID is. *)
Fixpoint hex (k : nat) (n : Z) : string :=
  match k with
  | O => EmptyString
  | S k' => hex k' (n / 16)
              +:+ String (py.hex_digit (Z.to_N (n mod 16))) EmptyString
  end.

(** [str(uuid)] *)
Definition str (int : Z) : string :=
  let h := hex 32 int in
  substring 0 8 h +:+ "-" +:+ substring 8 4 h +:+ "-" +:+ substring 12 4 h
    +:+ "-" +:+ substring 16 4 h +:+ "-" +:+ substring 20 12 h.

End uuid.

(** ** The scripts' entry points *)

(** [x if x else d] for a text [x] that may be [None]: [None] and the empty
    text count as false. *)
Definition if_else (x : option string) (d : string) : string :=
  match x with
  | Some (String c s) => String c s
  | _ => d
  end.

(** How [main] ends when it does not raise: it returns, or [sys.exit] ends
    the interpreter with a status (the [SystemExit] it raises is caught
    nowhere in the scripts). *)
Inductive finish :=
| Returns
| SystemExit (code : Z).

#[global] Instance finish_eq_dec : EqDecision finish.
Proof. solve_decision. Defined.

Module run.

(** The pattern of [main], written here with blanks between its parts:
    [( (?P<library> [^/: ]* ) / )? (?P<image> [^/: ]+ ) ( : (?P<tag> [^/: ]* ) )?] *)
Definition IMAGE_NAME : re.Pattern :=
  re.mkPattern
    (re.Cat (re.Opt (re.Group 1 (re.Cat (re.Group 2 (re.Star (re.NotIn "/: ")))
                                        (re.One (re.Chr "/")))))
       (re.Cat (re.Group 3 (re.Plus (re.NotIn "/: ")))
               (re.Opt (re.Group 4 (re.Cat (re.One (re.Chr ":"))
                                           (re.Group 5 (re.Star (re.NotIn "/: "))))))))
    {[ "library" := 2%nat; "image" := 3%nat; "tag" := 5%nat ]}.

(** [main(args)], given the bytes [uuid.uuid4] draws from [os.urandom].
    [args[1]] of a shorter list raises [IndexError].  The group [image]
    takes part in every match; were it [None], the paths would be formatted
    with the text [None]. *)
Definition main (args : list string) (urandom16 : list Byte.byte) : M finish :=
  match args !! 1%nat with
  | None => raise IndexError
  | Some name =>
      match re.match_ IMAGE_NAME name with
      | None => print "invalid args";; mret (SystemExit 1)
      | Some m =>
          let library := if_else (re.group m "library") "library" in
          let image := default "None" (re.group m "image") in
          let tag := if_else (re.group m "tag") "latest" in
          let command := drop 2 args in
          RunCommand.execute
            (mkContainerInitParams (mkImage library image tag) command
                                   (uuid.str (uuid.uuid4 urandom16)));;
          mret Returns
      end
  end.

End run.

(** An image name as it is written on the command line: [library/] if there
    is a library, the image, [:tag] if there is a tag. *)
Definition image_name (lib : option string) (img : string) (tg : option string)
  : string :=
  match lib with Some l => l +:+ "/" | None => EmptyString end
    +:+ img
    +:+ match tg with Some t => ":" +:+ t | None => EmptyString end.

(** A text made of characters outside [cs]. *)
Fixpoint free_of (cs s : string) : bool :=
  match s with
  | EmptyString => true
  | String c s' => negb (py.contains c cs) && free_of cs s'
  end.

(** The first character of [s] is in [cs], or [s] is empty. *)
Definition stops_at (cs s : string) : bool :=
  match s with
  | EmptyString => true
  | String c _ => py.contains c cs
  end.

Definition first_is (c : ascii) (s : string) : bool :=
  match s with
  | String x _ => bool_decide (x = c)
  | EmptyString => false
  end.

(** What may follow an image name on the command line for a pattern to read
    the name as it was written, [cs] being the characters that end a name:
    the text after the name is empty or begins with a character of [cs]; it
    does not begin with [:] after a name without a tag, nor with [/] and a
    character of a name after a name with neither library nor tag. *)
Definition ends_name_in (cs : string) (lib tg : option string) (rest : string)
  : bool :=
  stops_at cs rest
  && (bool_decide (is_Some tg) || negb (first_is ":" rest))
  && (bool_decide (is_Some lib) || bool_decide (is_Some tg)
      || negb (first_is "/" rest)
      || match rest with
         | String _ r => stops_at cs r
         | EmptyString => true
         end).

Definition opt_free_of (cs : string) (s : option string) : bool :=
  match s with
  | Some t => free_of cs t
  | None => true
  end.

(** The text begins with a character of a name, or with [/] and then a
    character of a name. *)
Definition accepted_in (cs : string) (name : string) : bool :=
  match name with
  | String c s =>
      free_of cs (String c EmptyString)
      || (bool_decide (c = "/"%char)
          && match s with
             | String c2 _ => free_of cs (String c2 EmptyString)
             | EmptyString => false
             end)
  | EmptyString => false
  end.

(** For [run.py] a name ends at [/], [:] or a blank. *)
Definition ends_name : option string → option string → string → bool :=
  ends_name_in "/: ".

(** A text with no [/], [:] or blank in it. *)
Definition name_text (s : string) : bool := free_of "/: " s.

Definition opt_name_text (s : option string) : bool := opt_free_of "/: " s.

Definition accepted (name : string) : bool := accepted_in "/: " name.

(** * The image puller of [app/pull.py]

    [PullCommand] asks the registry for a manifest and for the layers it
    lists, writes them to files and unpacks them.  It is embedded in a
    state-and-exception monad over a world of its own: the file tree, what
    the files written hold, and a log of every effect in order.  What the
    registry answers, the text [json.dumps] prints for a value, and what an
    archive holds and how it is unpacked are given by the world and are left
    open.  Texts are sequences of bytes; their encoding is not modelled. *)

(** [os.path.dirname] *)
Module os_path.

(** [p[:p.rfind('/') + 1]] *)
Fixpoint head_of (p : string) : string :=
  match p with
  | EmptyString => EmptyString
  | String c p' =>
      if py.contains posixpath.sep p' then String c (head_of p')
      else if bool_decide (c = posixpath.sep) then String c EmptyString
      else EmptyString
  end.

(** [s == '/' * len(s)] *)
Fixpoint all_sep (s : string) : bool :=
  match s with
  | EmptyString => true
  | String c s' => bool_decide (c = posixpath.sep) && all_sep s'
  end.

(** [s.rstrip('/')] *)
Fixpoint rstrip_sep (s : string) : string :=
  match s with
  | EmptyString => EmptyString
  | String c s' =>
      match rstrip_sep s' with
      | EmptyString =>
          if bool_decide (c = posixpath.sep) then EmptyString
          else String c EmptyString
      | r => String c r
      end
  end.

Definition dirname (p : string) : string :=
  let head := head_of p in
  if negb (bool_decide (head = EmptyString)) && negb (all_sep head)
  then rstrip_sep head
  else head.

End os_path.

(** [s.replace(old, new)] for single characters. *)
Fixpoint replace_char (old new : ascii) (s : string) : string :=
  match s with
  | EmptyString => EmptyString
  | String c s' =>
      String (if bool_decide (c = old) then new else c) (replace_char old new s')
  end.

Module pull.

(** ** JSON values, as [response.json()] builds them

    A [dict] is the list of its items in the order of insertion, with
    distinct keys; a [float] is kept as the text [repr] prints for it. *)
#[warnings="-register-all"]
Inductive json :=
| JNull
| JBool (b : bool)
| JInt (n : Z)
| JFloat (repr : string)
| JStr (s : string)
| JList (l : list json)
| JDict (d : list (string * json)).

(** The exceptions of the puller. *)
Inductive exn :=
| HTTPError (status : Z)        (* [raise_for_status] *)
| RequestException              (* no answer, or an answer that breaks off *)
| JSONDecodeError               (* [response.json()] on a body that is no JSON *)
| KeyError (key : string)
| TypeError
| AttributeError
| OSError (e : errno)
| IsADirectoryError
| TarError                      (* [tarfile.open] on a file that is no archive *)
| ExtractError (what : string). (* an error of [extractall] *)

#[global] Instance exn_eq_dec : EqDecision exn.
Proof. solve_decision. Defined.

Inductive res (A : Type) :=
| Val (a : A)
| Exc (e : exn).
Arguments Val {A} a.
Arguments Exc {A} e.

#[export] Instance res_ret : MRet res := λ A a, Val a.
#[export] Instance res_bind : MBind res := λ A B k r,
  match r with
  | Val a => k a
  | Exc e => Exc e
  end.

(** [v[key]] for a text [key]: only a [dict] can be subscripted by a text. *)
Definition getitem (v : json) (key : string) : res json :=
  match v with
  | JDict d =>
      match List.find (λ kv, bool_decide (kv.1 = key)) d with
      | Some kv => Val kv.2
      | None => Exc (KeyError key)
      end
  | _ => Exc TypeError
  end.

Fixpoint chars (s : string) : list json :=
  match s with
  | EmptyString => []
  | String c s' => JStr (String c EmptyString) :: chars s'
  end.

(** [for x in v]: the elements of a list, the keys of a [dict], the
    characters of a text; nothing else can be iterated. *)
Definition iter (v : json) : res (list json) :=
  match v with
  | JList l => Val l
  | JDict d => Val (JStr <$> d.*1)
  | JStr s => Val (chars s)
  | _ => Exc TypeError
  end.

(** [[f(x) for x in l]], which stops at the first exception. *)
Fixpoint comprehension {A B} (f : A → res B) (l : list A) : res (list B) :=
  match l with
  | [] => Val []
  | x :: l' => y ← f x; ys ← comprehension f l'; Val (y :: ys)
  end.

Definition join_with (sep : string) (l : list string) : string :=
  match l with
  | [] => EmptyString
  | x :: l' => foldl (λ acc y, acc +:+ sep +:+ y) x l'
  end.

(** [repr(v)] and [str(v)], which differ on a text only. *)
Fixpoint repr (v : json) : string :=
  match v with
  | JNull => "None"
  | JBool true => "True"
  | JBool false => "False"
  | JInt n => pretty n
  | JFloat r => r
  | JStr s => py.repr_str s
  | JList l => "[" +:+ join_with ", " (map repr l) +:+ "]"
  | JDict d =>
      "{" +:+ join_with ", "
                (map (λ kv, py.repr_str kv.1 +:+ ": " +:+ repr kv.2) d)
          +:+ "}"
  end.

Definition str (v : json) : string :=
  match v with
  | JStr s => s
  | _ => repr v
  end.

(** ** The world of a pull *)

Record request := mkRequest {
  url : string;
  authorization : option string;     (* the [Authorization] header *)
  stream : bool
}.

#[global] Instance request_eq_dec : EqDecision request.
Proof. solve_decision. Defined.

Record response := mkResponse {
  status_code : Z;
  body : option json;                (* what [json()] decodes, if it can *)
  content : list (list Byte.byte);   (* the chunks [iter_content] hands over *)
  broken : bool                      (* the answer breaks off after them *)
}.

(** The effects of the puller. *)
Inductive event :=
| Printed (line : string)
| Requested (r : request)
| Tested (p : string)                       (* [os.path.exists] *)
| Made (p : string)                         (* [os.makedirs] *)
| Opened (p mode : string)
| WroteText (p text : string)
| Wrote (p : string) (chunk : list Byte.byte)
| TarOpened (p : string)
| Extracted (tar dest : string).

Inductive file_content :=
| Text (t : string)
| Binary (b : list Byte.byte).

Record disk := mkDisk {
  d_proc : procstate;                       (* the file tree *)
  d_files : gmap path file_content          (* what the files written hold *)
}.

Record world := mkWorld {
  w_disk : disk;
  w_events : list event;                    (* oldest first *)
  (* the registry: its answer to a request, given the requests before it;
     [None] when no answer comes *)
  w_registry : list request → request → option response;
  (* [json.dumps] with the options of the puller *)
  w_dumps : json → string;
  (* the names of the members of an archive, or [None] for a file that is
     no archive *)
  w_members : file_content → option (list string);
  (* what [extractall] makes of an archive in a directory *)
  w_extractall : file_content → string → disk → res disk
}.

Definition set_disk (d : disk) (w : world) : world :=
  mkWorld d (w_events w) (w_registry w) (w_dumps w) (w_members w)
          (w_extractall w).

Definition set_events (evs : list event) (w : world) : world :=
  mkWorld (w_disk w) evs (w_registry w) (w_dumps w) (w_members w)
          (w_extractall w).

Definition P (A : Type) : Type := world → res A * world.

#[export] Instance P_ret : MRet P := λ A a w, (Val a, w).
#[export] Instance P_bind : MBind P := λ A B k m w,
  match m w with
  | (Val a, w') => k a w'
  | (Exc e, w') => (Exc e, w')
  end.

Definition throw {A} (e : exn) : P A := λ w, (Exc e, w).

(** A value or an exception that does not depend on the world. *)
Definition lift {A} (r : res A) : P A := λ w, (r, w).

(** A step given directly as a function of the world. *)
Definition act {A} (f : world → res A * world) : P A := f.

Definition emit (ev : event) : P unit :=
  λ w, (Val tt, set_events (w_events w ++ [ev]) w).

Fixpoint for_ {A} (xs : list A) (body : A → P unit) : P unit :=
  match xs with
  | [] => mret tt
  | x :: xs' => body x;; for_ xs' body
  end.

Definition print (line : string) : P unit := emit (Printed line).

(** [if chunk:] is false on the empty chunk only. *)
Definition truthy (chunk : list Byte.byte) : bool :=
  match chunk with
  | [] => false
  | _ => true
  end.

(** The requests made so far, oldest first. *)
Definition requests_of (evs : list event) : list request :=
  omap (λ ev, match ev with Requested r => Some r | _ => None end) evs.

Module requests.

(** [requests.get(url, headers=..., stream=...)] *)
Definition get (u : string) (auth : option string) (streamed : bool)
  : P response :=
  act (λ w,
    let r := mkRequest u auth streamed in
    let w' := set_events (w_events w ++ [Requested r]) w in
    match w_registry w (requests_of (w_events w)) r with
    | Some a =>
        (* without [stream] the whole answer is read at once *)
        if negb streamed && broken a then (Exc RequestException, w')
        else (Val a, w')
    | None => (Exc RequestException, w')
    end).

(** [response.raise_for_status()] *)
Definition raise_for_status (r : response) : P unit :=
  if (400 <=? status_code r) && (status_code r <? 600)
  then throw (HTTPError (status_code r))
  else mret tt.

(** [response.json()] *)
Definition json_of (r : response) : P json :=
  match body r with
  | Some j => mret j
  | None => throw JSONDecodeError
  end.

End requests.

(** The files *)
Module files.

Definition path_exists (p : string) : P bool :=
  emit (Tested p);;
  act (λ w, (Val (Kernel.path_exists p (d_proc (w_disk w))), w)).

Definition makedirs (p : string) : P unit :=
  emit (Made p);;
  act (λ w,
    match Kernel.makedirs p (d_proc (w_disk w)) with
    | Done ps => (Val tt, set_disk (mkDisk ps (d_files (w_disk w))) w)
    | Fail e => (Exc (OSError e), w)
    end).

(** [open(p, 'w')] and [open(p, 'wb')].  The directory of the file must be
    there.  A missing file is created; a directory cannot be opened for
    writing; anything else that is there is opened and emptied.  The file
    object is the resolved path: what is written is kept under the name it
    was written under (links are not followed in this model). *)
Definition open_for_writing (p mode : string) (empty : file_content)
  : P path :=
  emit (Opened p mode);;
  act (λ w,
    let d := w_disk w in
    let ps := d_proc d in
    match Kernel.resolve ps p with
    | None => (Exc (OSError ENOENT), w)
    | Some q =>
        match lookup_node (ps_view ps) (removelast q) with
        | None => (Exc (OSError ENOENT), w)
        | Some Dir =>
            match lookup_node (ps_view ps) q with
            | None =>
                (Val q,
                 set_disk (mkDisk (Kernel.set_view (<[q := File false]> (ps_view ps)) ps)
                                  (<[q := empty]> (d_files d))) w)
            | Some Dir => (Exc IsADirectoryError, w)
            | Some _ =>
                (Val q, set_disk (mkDisk ps (<[q := empty]> (d_files d))) w)
            end
        | Some _ => (Exc (OSError ENOTDIR), w)
        end
    end).

Definition set_file (q : path) (c : file_content) (w : world) : world :=
  set_disk (mkDisk (d_proc (w_disk w)) (<[q := c]> (d_files (w_disk w)))) w.

(** [f.write(text)] on a file opened with ['w'] *)
Definition write_text (p : string) (f : path) (text : string) : P unit :=
  emit (WroteText p text);;
  act (λ w,
    (Val tt,
     set_file f (match d_files (w_disk w) !! f with
                 | Some (Text t) => Text (t +:+ text)
                 | _ => Text text
                 end) w)).

(** [f.write(chunk)] on a file opened with ['wb'] *)
Definition write (p : string) (f : path) (chunk : list Byte.byte) : P unit :=
  emit (Wrote p chunk);;
  act (λ w,
    (Val tt,
     set_file f (match d_files (w_disk w) !! f with
                 | Some (Binary b) => Binary (b ++ chunk)
                 | _ => Binary chunk
                 end) w)).

End files.

(** [tarfile]: an open archive is the contents of its file. *)
Module tarfile.

Definition open_ (p : string) : P file_content :=
  emit (TarOpened p);;
  act (λ w,
    let d := w_disk w in
    match Kernel.resolve (d_proc d) p with
    | None => (Exc (OSError ENOENT), w)
    | Some q =>
        match d_files d !! q with
        | None => (Exc (OSError ENOENT), w)
        | Some c =>
            match w_members w c with
            | Some _ => (Val c, w)
            | None => (Exc TarError, w)
            end
        end
    end).

(** [[m.name for m in tar.getmembers()]] *)
Definition getmembers (tar : file_content) : P (list string) :=
  act (λ w, (Val (default [] (w_members w tar)), w)).

Definition extractall (p : string) (tar : file_content) (dest : string)
  : P unit :=
  emit (Extracted p dest);;
  act (λ w,
    match w_extractall w tar dest (w_disk w) with
    | Val d => (Val tt, set_disk d w)
    | Exc e => (Exc e, w)
    end).

End tarfile.

(** ** The registry client *)
Module DockerRegistoryClient.

Definition REGISTRY_ENDPOINT : string := "https://registry-1.docker.io/v2".

Record RegistoryAuthTokenResponse := mkRegistoryAuthTokenResponse {
  token_content : json
}.

Definition token (r : RegistoryAuthTokenResponse) : res json :=
  getitem (token_content r) "token".

Record ImageManifestResponse := mkImageManifestResponse {
  manifest_content : json
}.

Definition name (r : ImageManifestResponse) : res json :=
  getitem (manifest_content r) "name".

Definition tag (r : ImageManifestResponse) : res json :=
  getitem (manifest_content r) "tag".

Definition layer_digests (r : ImageManifestResponse) : res (list json) :=
  layers ← getitem (manifest_content r) "fsLayers";
  layers ← iter layers;
  comprehension (λ layer, getitem layer "blobSum") layers.

Definition auth_url (library image : string) : string :=
  "https://auth.docker.io/token?service=registry.docker.io&scope=repository:"
    +:+ library +:+ "/" +:+ image +:+ ":pull".

Definition get_image_pull_auth_token (library image : string)
  : P RegistoryAuthTokenResponse :=
  let url := auth_url library image in
  print ("Get authtoken, url: " +:+ url);;
  response ← requests.get url None false;
  requests.raise_for_status response;;
  content ← requests.json_of response;
  mret (mkRegistoryAuthTokenResponse content).

(** The [Authorization] header of a request: the token is asked for while
    the header is built, before the request itself is made. *)
Definition bearer (library image : string) : P string :=
  r ← get_image_pull_auth_token library image;
  t ← lift (token r);
  mret ("Bearer " +:+ str t).

Definition manifest_url (library image tag : string) : string :=
  REGISTRY_ENDPOINT +:+ "/" +:+ library +:+ "/" +:+ image
    +:+ "/manifests/" +:+ tag.

Definition blob_url (library image layer_digest : string) : string :=
  REGISTRY_ENDPOINT +:+ "/" +:+ library +:+ "/" +:+ image
    +:+ "/blobs/" +:+ layer_digest.

Definition get_manifest (library image tag : string) : P ImageManifestResponse :=
  let url := manifest_url library image tag in
  print ("Downloading manifest, url: " +:+ url);;
  header ← bearer library image;
  response ← requests.get url (Some header) false;
  requests.raise_for_status response;;
  content ← requests.json_of response;
  mret (mkImageManifestResponse content).

(** [download_layer] is a generator.  Its body runs when the caller asks
    for the first chunk; it hands over the chunks that are not empty, and
    raises after them when the answer breaks off.  It has no effect of its
    own between two chunks, so it is given here as the step that makes the
    requests and returns the chunks together with how they end. *)
Definition download_layer (library image layer_digest : string)
  : P (list (list Byte.byte) * bool) :=
  print ("Fetching layer " +:+ layer_digest +:+ " ..");;
  header ← bearer library image;
  response ← requests.get (blob_url library image layer_digest)
                          (Some header) true;
  requests.raise_for_status response;;
  mret (filter (λ chunk, truthy chunk = true) (content response),
        broken response).

End DockerRegistoryClient.

Module PullCommand.

Definition IMAGE_DATA_DIR : string := "/var/opt/app/images".

(** [os.path.join(a, b)] where [b] has to be a text. *)
Definition join_json (a : string) (b : json) : res string :=
  match b with
  | JStr s => Val (posixpath.join a [s])
  | _ => Exc TypeError
  end.

(** [v.replace('/', '_')], which only a text has. *)
Definition replace_json (v : json) : res string :=
  match v with
  | JStr s => Val (replace_char "/" "_" s)
  | _ => Exc AttributeError
  end.

(** The body of the loop over the layers. *)
Definition fetch_layer (library image image_layers_path contents_path : string)
    (digest : json) : P unit :=
  print ("Fetching layer " +:+ str digest +:+ "..");;
  joined ← lift (join_json image_layers_path digest);
  let local_layer_tar_name := joined +:+ ".tar" in
  f ← files.open_for_writing local_layer_tar_name "wb" (Binary []);
  '(chunks, broken) ←
    DockerRegistoryClient.download_layer library image (str digest);
  for_ chunks
    (λ chunk, if truthy chunk
              then files.write local_layer_tar_name f chunk
              else mret tt);;
  (if broken : bool then throw RequestException else mret tt);;
  tar ← tarfile.open_ local_layer_tar_name;
  members ← tarfile.getmembers tar;
  for_ (take 10 members) (λ member, print ("- " +:+ member));;
  print "...";;
  tarfile.extractall local_layer_tar_name tar contents_path;;
  print "extract done".

Definition execute (library image tag : string) : P unit :=
  let base_dir := os_path.dirname "/var/opt/app/" in
  let images_dir := posixpath.join base_dir ["images"] in
  e ← files.path_exists images_dir;
  (if negb e then files.makedirs images_dir else mret tt);;
  manifest ← DockerRegistoryClient.get_manifest library image tag;
  name ← lift (DockerRegistoryClient.name manifest);
  replaced ← lift (replace_json name);
  tg ← lift (DockerRegistoryClient.tag manifest);
  let image_name_friendly := replaced +:+ "_" +:+ str tg in
  let image_base_dir := posixpath.join images_dir [image_name_friendly] in
  let manifest_path :=
    posixpath.join images_dir [image_name_friendly +:+ ".json"] in
  manifest_file ← files.open_for_writing manifest_path "w" (Text EmptyString);
  text ← act (λ w, (Val (w_dumps w (DockerRegistoryClient.manifest_content
                                      manifest)), w));
  files.write_text manifest_path manifest_file text;;
  let image_layers_path := posixpath.join image_base_dir ["layers"] in
  let contents_path := posixpath.join image_layers_path ["contents"] in
  e ← files.path_exists contents_path;
  (if negb e then files.makedirs contents_path else mret tt);;
  digests ← lift (DockerRegistoryClient.layer_digests manifest);
  for_ digests (fetch_layer library image image_layers_path contents_path);;
  print ("Save docker image to " +:+ image_base_dir).

End PullCommand.

(** The pattern of [main], written here with blanks between its parts:
    [( (?P<library> [^/:]* ) / )? (?P<image> [^/:]+ ) (:)? (?P<tag> [^/:]* )] *)
Definition IMAGE_NAME : re.Pattern :=
  re.mkPattern
    (re.Cat (re.Opt (re.Group 1 (re.Cat (re.Group 2 (re.Star (re.NotIn "/:")))
                                        (re.One (re.Chr "/")))))
       (re.Cat (re.Group 3 (re.Plus (re.NotIn "/:")))
          (re.Cat (re.Opt (re.Group 4 (re.One (re.Chr ":"))))
                  (re.Group 5 (re.Star (re.NotIn "/:"))))))
    {[ "library" := 2%nat; "image" := 3%nat; "tag" := 5%nat ]}.

(** [main(image_name)] *)
Definition main (image_name : string) : P finish :=
  match re.match_ IMAGE_NAME image_name with
  | None => print "invalid args";; mret (SystemExit 1)
  | Some m =>
      let library := if_else (re.group m "library") "library" in
      let image := default "None" (re.group m "image") in
      let tag := if_else (re.group m "tag") "latest" in
      PullCommand.execute library image tag;;
      mret Returns
  end.

(** ** What a run of the puller adds to the log *)

(** The events of a run from [w] to [w']. *)
Definition new_events (w w' : world) : list event :=
  drop (length (w_events w)) (w_events w').

(** [w'] is [w] after the events [evs]: the log has grown by them, and the
    registry, [json.dumps] and the archives are those of [w]. *)
Definition extends (w w' : world) (evs : list event) : Prop :=
  w_events w' = w_events w ++ evs
  ∧ w_registry w' = w_registry w
  ∧ w_dumps w' = w_dumps w
  ∧ w_members w' = w_members w
  ∧ w_extractall w' = w_extractall w.

(** The request for a token to pull from a repository. *)
Definition token_request (library image : string) : request :=
  mkRequest (DockerRegistoryClient.auth_url library image) None false.

(** A sequence of requests made of exchanges: a token request that the
    registry answers with a token, then a request that carries this token
    in its [Authorization] header.  [hist] are the requests made before. *)
Inductive exchanges (w : world) (tok : request)
  : list request → list request → Prop :=
| exchanges_nil (hist : list request) : exchanges w tok hist []
| exchanges_cons (hist : list request) (answer : response) (content t : json)
    (a : request) (rs : list request) :
    w_registry w hist tok = Some answer →
    body answer = Some content →
    getitem content "token" = Val t →
    authorization a = Some ("Bearer " +:+ str t) →
    exchanges w tok (hist ++ [tok; a]) rs →
    exchanges w tok hist (tok :: a :: rs).

(** The archives unpacked: the file and the directory of each
    [extractall], oldest first. *)
Definition extractions (evs : list event) : list (string * string) :=
  omap (λ ev, match ev with Extracted p d => Some (p, d) | _ => None end) evs.

(** The files opened for writing, oldest first. *)
Definition opened (evs : list event) : list string :=
  omap (λ ev, match ev with Opened p _ => Some p | _ => None end) evs.

(** Every manifest the registry sends for an image satisfies [Q]. *)
Definition manifests (w : world) (library image tag : string)
    (Q : json → Prop) : Prop :=
  ∀ hist auth answer content,
    w_registry w hist
      (mkRequest (DockerRegistoryClient.manifest_url library image tag) auth false)
      = Some answer →
    body answer = Some content →
    Q content.

(** The manifests of the registry carry the name and the tag they were
    asked under. *)
Definition names_as_asked (w : world) (library image tag : string) : Prop :=
  manifests w library image tag
    (λ content,
       getitem content "name" = Val (JStr (library +:+ "/" +:+ image))
       ∧ getitem content "tag" = Val (JStr tag)).

(** The manifests of the registry have no text for a name, or no tag (as
    those of the second schema, which have neither). *)
Definition unnamed (w : world) (library image tag : string) : Prop :=
  manifests w library image tag
    (λ content,
       ¬ ∃ n tg, getitem content "name" = Val (JStr n)
                 ∧ getitem content "tag" = Val tg).

(** Unpacking an archive into a directory leaves the directory in place. *)
Definition unpacking_keeps (w : world) (dir : string) : Prop :=
  ∀ tar d d',
    w_extractall w tar dir d = Val d' →
    Kernel.path_exists dir (d_proc d) = true →
    Kernel.path_exists dir (d_proc d') = true.

(** Every event of [m] satisfies [Q]. *)
Definition logs {A} (Q : event → Prop) (m : P A) : Prop :=
  ∀ w r w', m w = (r, w') → ∃ evs, extends w w' evs ∧ Forall Q evs.

(** The requests of [m] are exchanges, but for a last token request that
    got no usable answer, after which [m] raises. *)
Definition exchanging {A} (tok : request) (m : P A) : Prop :=
  ∀ w r w', m w = (r, w') →
    ∃ evs rs tail,
      extends w w' evs
      ∧ requests_of evs = rs ++ tail
      ∧ exchanges w tok (requests_of (w_events w)) rs
      ∧ (tail = [] ∨ (tail = [tok] ∧ ∃ e, r = Exc e)).

End pull.

(** A registry with one small image, and a host on which nothing was pulled
    yet. *)
Module Hub.

Import pull.

Definition token_answer : response :=
  mkResponse 200 (Some (JDict [("token", JStr "t0")])) [] false.

(** A manifest of the first schema, and one of the second. *)
Definition manifest : json :=
  JDict [("name", JStr "library/busybox");
         ("tag", JStr "latest");
         ("fsLayers", JList [JDict [("blobSum", JStr "sha256:aa")];
                             JDict [("blobSum", JStr "sha256:bb")];
                             JDict [("blobSum", JStr "sha256:aa")]])].

Definition manifest_v2 : json :=
  JDict [("schemaVersion", JInt 2); ("layers", JList [])].

Definition registry (manifest : json) (hist : list request) (r : request)
  : option response :=
  if bool_decide (url r = DockerRegistoryClient.auth_url "library" "busybox")
  then Some token_answer
  else if bool_decide
            (url r = DockerRegistoryClient.manifest_url "library" "busybox" "latest")
  then Some (mkResponse 200 (Some manifest) [] false)
  else if bool_decide
            (url r = DockerRegistoryClient.blob_url "library" "busybox" "sha256:aa")
  then Some (mkResponse 200 None [[Byte.x61; Byte.x62]; []; [Byte.x63]] false)
  else if bool_decide
            (url r = DockerRegistoryClient.blob_url "library" "busybox" "sha256:bb")
  then Some (mkResponse 200 None [[Byte.x64]] false)
  else Some (mkResponse 404 None [] false).

Definition disk : list (string * node) :=
  [("/var", Dir); ("/var/opt", Dir); ("/var/opt/app", Dir); ("/home", Dir)].

Definition world_of (manifest : json) : world :=
  mkWorld (mkDisk (Host.proc_of disk) ∅) []
          (registry manifest)
          (λ _, "{}")
          (λ _, Some ["bin"; "bin/sh"])
          (λ _ _ d, Val d).

(** The same host before a registry that answers every request with the
    status 401. *)
Definition refusing : world :=
  mkWorld (mkDisk (Host.proc_of disk) ∅) []
          (λ _ _, Some (mkResponse 401 None [] false))
          (λ _, "{}")
          (λ _, None)
          (λ _ _ d, Val d).

(** The world a step leaves. *)
Definition after {A} (m : P A) (w : world) : world := (m w).2.

End Hub.
(** * Properties *)

(** ** Path strings *)

Section path_strings.

Import posixpath.

Lemma append_nil (s : string) : EmptyString +:+ s = s.
Proof. reflexivity. Qed.

Lemma append_cons (x : ascii) (a b : string) :
  String x a +:+ b = String x (a +:+ b).
Proof. reflexivity. Qed.

Lemma append_assoc (a b c : string) : (a +:+ b) +:+ c = a +:+ (b +:+ c).
Proof.
  induction a as [|x a IH]; [done |]. by rewrite !append_cons, IH.
Qed.

Lemma split_on_cons (c : ascii) (s : string) :
  ∃ w ws, split_on c s = w :: ws.
Proof.
  induction s as [|x s (w & ws & IH)]; simpl; [by eauto |].
  case_bool_decide; [by eauto |]. rewrite IH. by eauto.
Qed.

Lemma split_on_app (c : ascii) (a b : string) :
  split_on c (a +:+ String c b) = split_on c a ++ split_on c b.
Proof.
  induction a as [|x a IH].
  - rewrite append_nil. simpl. by rewrite bool_decide_true.
  - rewrite append_cons. simpl. case_bool_decide; [by rewrite IH |].
    rewrite IH. by destruct (split_on_cons c a) as (w & ws & ->).
Qed.

Lemma startswith_sep_app (a b : string) :
  a ≠ EmptyString → startswith_sep (a +:+ b) = startswith_sep a.
Proof. by destruct a. Qed.

Lemma endswith_sep_inv (s : string) :
  endswith_sep s = true → ∃ s', s = s' +:+ "/".
Proof.
  induction s as [|x s IH]; [done |]. simpl. destruct s as [|y s].
  - intros ->%bool_decide_eq_true. by exists EmptyString.
  - intros [s' ->]%IH. by exists (String x s').
Qed.


Lemma plain_step (name : string) (p : path) :
  plain name = true → step p name = p ++ [name].
Proof.
  unfold plain, step. intros [_ H]%andb_prop.
  apply negb_true_iff in H. apply orb_false_iff in H as [H ->].
  by rewrite H.
Qed.

Lemma plain_not_absolute (name : string) :
  plain name = true → startswith_sep name = false.
Proof.
  unfold plain. intros [H _]%andb_prop. apply bool_decide_eq_true in H.
  destruct name as [|x name]; [done |]. simpl in *.
  case_bool_decide; [done | done].
Qed.

(** Joining a plain name to a non-empty path leads to the entry of that
    name in the directory the path leads to. *)
Lemma locate_join2 (cwd : path) (t name : string) :
  t ≠ EmptyString → plain name = true →
  locate cwd (join2 t name) = locate cwd t ++ [name].
Proof.
  intros Ht Hp. unfold join2. rewrite (plain_not_absolute _ Hp).
  rewrite bool_decide_false by done. simpl.
  assert (Hsplit : split_on sep name = [name]).
  { apply andb_prop in Hp as [H _]. by apply bool_decide_eq_true in H. }
  destruct (endswith_sep t) eqn:He; unfold locate.
  - destruct (endswith_sep_inv _ He) as [t' ->].
    rewrite append_assoc, append_cons, append_nil. unfold sep in *.
    rewrite (split_on_app "/" t' name), (split_on_app "/" t' EmptyString), Hsplit.
    assert (Hs : ∀ b, startswith_sep (t' +:+ String "/" b)
                      = startswith_sep (t' +:+ "/")).
    { intros b. by destruct t'. }
    rewrite (Hs name), !foldl_app. simpl.
    by rewrite (plain_step _ _ Hp).
  - rewrite startswith_sep_app by done.
    rewrite append_cons, append_nil. unfold sep in *.
    rewrite (split_on_app "/" t name), Hsplit, foldl_app. simpl.
    by rewrite (plain_step _ _ Hp).
Qed.

Lemma join2_not_empty (t name : string) :
  name ≠ EmptyString → join2 t name ≠ EmptyString.
Proof.
  unfold join2. intros Hn. destruct (startswith_sep name); [done |].
  destruct (_ || _); destruct t; rewrite ?append_nil, ?append_cons; done.
Qed.

End path_strings.

(** ** File trees *)

Section trees.

Implicit Types (p k r : path) (v t : gmap path node).

Lemma strip_Some p k r : strip p k = Some r ↔ k = p ++ r.
Proof.
  revert k. induction p as [|a p IH]; intros k; simpl.
  - split; [by intros [= ->] | by intros ->].
  - destruct k as [|b k]; [done |]. case_bool_decide as Hab.
    + subst b. rewrite IH. split; [by intros -> | by intros [= ->]].
    + split; [done | by intros [= ? ?]].
Qed.

Lemma strip_app p r : strip p (p ++ r) = Some r.
Proof. by apply strip_Some. Qed.

Lemma strip_None p k : strip p k = None ↔ ∀ r, k ≠ p ++ r.
Proof.
  split.
  - intros H r ->. by rewrite strip_app in H.
  - intros H. destruct (strip p k) as [r|] eqn:E; [|done].
    apply strip_Some in E. by destruct (H r).
Qed.

Lemma below_Some p k r : below p k = Some r ↔ k = p ++ r ∧ r ≠ [].
Proof.
  unfold below. destruct (strip p k) as [[|c r']|] eqn:E.
  - split; [done |]. intros [-> Hr]. rewrite strip_app in E. by simplify_eq.
  - apply strip_Some in E as ->. split; [by intros [= <-] |].
    by intros [<-%(inj (app p)) _].
  - split; [done |]. intros [-> _]. by rewrite strip_app in E.
Qed.

Lemma below_app p r : r ≠ [] → below p (p ++ r) = Some r.
Proof. intros. by apply below_Some. Qed.

Lemma below_None p k : below p k = None ↔ ∀ r, r ≠ [] → k ≠ p ++ r.
Proof.
  split.
  - intros H r Hr ->. by rewrite below_app in H.
  - intros H. destruct (below p k) as [r|] eqn:E; [|done].
    apply below_Some in E as [-> Hr]. by destruct (H r).
Qed.

Lemma below_self p : below p p = None.
Proof.
  apply below_None. intros r Hr H. destruct Hr.
  apply (inj (app p)). by rewrite app_nil_r.
Qed.

(** The entry that a re-keyed tree has at [k'], when [f] sends a single
    key there, and when it sends none. *)
Lemma lookup_rekey_Some f v k k' :
  f k = Some k' → (∀ k2, f k2 = Some k' → k2 = k) →
  rekey f v !! k' = v !! k.
Proof.
  intros Hk Hinj. unfold rekey. apply option_eq. intros n. split.
  - intros ([k2 n2] & Hin & Hg)%elem_of_list_to_map_2%list_elem_of_omap.
    simpl in Hg. destruct (f k2) as [k3|] eqn:E; simplify_eq/=.
    apply elem_of_map_to_list in Hin. by rewrite <- (Hinj _ E).
  - intros Hv. apply elem_of_list_to_map_1'.
    + intros y ([k2 n2] & Hin & Hg)%list_elem_of_omap.
      simpl in Hg. destruct (f k2) as [k3|] eqn:E; simplify_eq/=.
      apply elem_of_map_to_list in Hin. rewrite (Hinj _ E) in Hin. congruence.
    + apply list_elem_of_omap. exists (k, n). split.
      * by apply elem_of_map_to_list.
      * simpl. by rewrite Hk.
Qed.

Lemma lookup_rekey_None f v k' :
  (∀ k, f k ≠ Some k') → rekey f v !! k' = None.
Proof.
  intros Hf. unfold rekey. apply not_elem_of_list_to_map_1.
  intros ([k2 n] & Hk & ([k n2] & Hin & Hg)%list_elem_of_omap)%list_elem_of_fmap.
  simpl in *. destruct (f k) as [k3|] eqn:E; simplify_eq/=. by destruct (Hf k).
Qed.

Lemma lookup_subtree p v r :
  subtree p v !! r = if bool_decide (r = []) then None else v !! (p ++ r).
Proof.
  unfold subtree. case_bool_decide as Hr.
  - apply lookup_rekey_None. intros k [_ ?]%below_Some. done.
  - apply lookup_rekey_Some; [by apply below_app |].
    by intros k2 [-> _]%below_Some.
Qed.

Lemma lookup_graft p t k :
  graft p t !! k = match strip p k with Some r => t !! r | None => None end.
Proof.
  unfold graft. destruct (strip p k) as [r|] eqn:E.
  - apply strip_Some in E as ->. apply lookup_rekey_Some; [done |].
    by intros k2 [= ->%(inj (app p))].
  - apply lookup_rekey_None. intros r [= <-]. by rewrite strip_app in E.
Qed.

Lemma lookup_outside p v k :
  outside p v !! k = match below p k with Some _ => None | None => v !! k end.
Proof.
  unfold outside. rewrite map_lookup_filter.
  destruct (v !! k) as [n|]; simpl; [|by destruct (below p k)].
  case_guard as Hg; simpl in Hg; [by rewrite Hg |].
  by destruct (below p k).
Qed.

Lemma lookup_union_node v1 v2 k :
  (v1 ∪ v2) !! k = match v1 !! k with Some n => Some n | None => v2 !! k end.
Proof.
  rewrite lookup_union. by destruct (v1 !! k), (v2 !! k).
Qed.

Lemma graft_empty p : graft p ∅ = ∅.
Proof. apply map_empty. intros k. rewrite lookup_graft. by destruct (strip p k). Qed.

End trees.

(** ** The kernel calls *)

Section kernel_facts.

Import Kernel.
Implicit Types (p q : path) (v : gmap path node) (ps : procstate).


Lemma mkdirs_lookup base names v v' q :
  mkdirs base names v = Done v' →
  v' !! q = match v !! q with
            | Some n => Some n
            | None => if bool_decide (q ∈ dirs_along base names)
                      then Some Dir else None
            end.
Proof.
  revert base v. induction names as [|n ns IH]; intros base v.
  - intros [= <-]. destruct (v !! q); [done |].
    by rewrite bool_decide_false by apply not_elem_of_nil.
  - cbn [mkdirs dirs_along].
    destruct (v !! (base ++ [n])) as [[| | |]|] eqn:E; try done.
    + intros ->%IH. destruct (decide (q = base ++ [n])) as [->|Hne].
      * by rewrite E.
      * destruct (v !! q); [done |].
        rewrite (bool_decide_ext (q ∈ _ :: _) (q ∈ dirs_along (base ++ [n]) ns));
          [done |]. rewrite elem_of_cons. split; [by intros [?|?] | by right].
    + intros ->%IH. destruct (decide (q = base ++ [n])) as [->|Hne].
      * rewrite lookup_insert_eq, E.
        rewrite (bool_decide_true (_ ∈ _ :: _)); [done | by left].
      * rewrite lookup_insert_ne by done. destruct (v !! q); [done |].
        rewrite (bool_decide_ext (q ∈ _ :: _) (q ∈ dirs_along (base ++ [n]) ns));
          [done |]. rewrite elem_of_cons. split; [by intros [?|?] | by right].
Qed.

Lemma elem_of_dirs_along base names q :
  q ∈ dirs_along base names →
  ∃ r, r ≠ [] ∧ r `prefix_of` names ∧ q = base ++ r.
Proof.
  revert base. induction names as [|n ns IH]; intros base; simpl.
  - by intros ?%not_elem_of_nil.
  - intros [->|(r & Hr & Hpre & ->)%IH]%elem_of_cons.
    + exists [n]. split_and!; [done | by apply prefix_cons, prefix_nil | done].
    + exists (n :: r). split_and!; [done | by apply prefix_cons |].
      by rewrite <- app_assoc.
Qed.

Lemma dirs_along_last base names :
  names ≠ [] → base ++ names ∈ dirs_along base names.
Proof.
  revert base. induction names as [|n ns IH]; intros base Hne; [done |]. simpl.
  destruct ns as [|n' ns]; [by left |]. right.
  rewrite (cons_middle n), app_assoc. by apply IH.
Qed.

(** A successful [makedirs]: the leaf was missing and is a directory
    afterwards; nothing that existed has changed. *)
Lemma makedirs_Done s ps ps' :
  makedirs s ps = Done ps' →
  ∃ p v', resolve ps s = Some p ∧ lookup_node (ps_view ps) p = None
          ∧ mkdirs [] p (ps_view ps) = Done v' ∧ ps' = set_view v' ps.
Proof.
  unfold makedirs. destruct (resolve ps s) as [p|]; [|done].
  destruct (lookup_node (ps_view ps) p) eqn:E; [done |].
  destruct (mkdirs [] p (ps_view ps)) as [v'|] eqn:Ev; [|done].
  intros [= <-]. by eauto 10.
Qed.

Lemma resolve_set_view v ps s : resolve (set_view v ps) s = resolve ps s.
Proof. done. Qed.

Lemma makedirs_exists s ps ps' :
  makedirs s ps = Done ps' → path_exists s ps' = true.
Proof.
  intros (p & v' & Hres & Hnone & Hmk & ->)%makedirs_Done.
  unfold path_exists. rewrite resolve_set_view, Hres.
  destruct p as [|c p]; [done |]. cbn [lookup_node ps_view set_view] in *.
  rewrite (mkdirs_lookup _ _ _ _ (c :: p) Hmk), Hnone.
  rewrite bool_decide_true; [done |]. by apply (dirs_along_last []).
Qed.

Lemma makedirs_keeps s ps ps' s' :
  makedirs s ps = Done ps' → path_exists s' ps = true → path_exists s' ps' = true.
Proof.
  intros (p & v' & Hres & Hnone & Hmk & ->)%makedirs_Done.
  unfold path_exists. rewrite resolve_set_view.
  destruct (resolve ps s') as [q|]; [|done].
  destruct q as [|c q]; [done |]. cbn [lookup_node ps_view set_view].
  rewrite (mkdirs_lookup _ _ _ _ (c :: q) Hmk).
  by destruct (ps_view ps !! (c :: q)).
Qed.

Lemma makedirs_exists_fails s ps :
  path_exists s ps = true → makedirs s ps = Fail EEXIST.
Proof.
  unfold path_exists, makedirs. destruct (resolve ps s) as [p|]; [|done].
  by destruct (lookup_node (ps_view ps) p).
Qed.

End kernel_facts.

(** ** Running the launcher *)


Section running.

Context {A B : Type}.

Lemma bind_run (m : M A) (k : A → M B) (w : world) :
  (m ≫= k) w = match m w with
               | (Ok a, w') => k a w'
               | (Raise e, w') => (Raise e, w')
               | (Replaced f a, w') => (Replaced f a, w')
               end.
Proof. reflexivity. Qed.

Lemma bind_Ok (m : M A) (k : A → M B) (w w' : world) (b : B) :
  (m ≫= k) w = (Ok b, w') → ∃ a w1, m w = (Ok a, w1) ∧ k a w1 = (Ok b, w').
Proof.
  rewrite bind_run. destruct (m w) as [[a|e|f a] w1]; [by eauto | done | done].
Qed.

End running.

(** A run is its outcome paired with the world it leaves. *)
Lemma run_eta {A} (m : M A) (w : world) (r : outcome A) :
  (m w).1 = r → m w = (r, Host.after m w).
Proof. unfold Host.after. by destruct (m w) as [r' w']; intros [= ->]. Qed.

Lemma syscall_run (c : call) (wrap : errno → exn) (f : world → result procstate)
    (w : world) :
  syscall c wrap f w = match f (logged c w) with
                       | Done ps => (Ok tt, set_proc ps (logged c w))
                       | Fail e => (Raise (wrap e), logged c w)
                       end.
Proof. reflexivity. Qed.

Lemma syscall_Ok (c : call) (wrap : errno → exn) (f : world → result procstate)
    (w w' : world) (u : unit) :
  syscall c wrap f w = (Ok u, w') →
  ∃ ps, f (logged c w) = Done ps ∧ w' = set_proc ps (logged c w).
Proof.
  rewrite syscall_run. destruct (f (logged c w)) as [ps|e]; [|done].
  intros [= _ <-]. by eauto.
Qed.

Lemma path_exists_run (p : string) (w : world) :
  os.path_exists p w
  = (Ok (Kernel.path_exists p (w_proc w)), logged (PathExists p) w).
Proof. reflexivity. Qed.

Lemma w_trace_logged (c : call) (w : world) :
  w_trace (logged c w) = w_trace w ++ [(w_who w, c)].
Proof. reflexivity. Qed.

Lemma calls_since_app (t0 evs : list (process * call)) (w : world) :
  w_trace w = t0 ++ evs → calls_since t0 w = evs.
Proof. unfold calls_since. intros ->. by rewrite drop_app_length. Qed.

(** ** The directory manager *)

Section directory_manager.

Import ContainerExecuter.

(** The body of the two loops that create a directory unless it exists. *)
Lemma ensure_run (d : string) (w : world) :
  (e ← os.path_exists d; if negb e then os.makedirs d else mret tt) w
  = if Kernel.path_exists d (w_proc w)
    then (Ok tt, logged (PathExists d) w)
    else os.makedirs d (logged (PathExists d) w).
Proof.
  rewrite bind_run, path_exists_run. by destruct (Kernel.path_exists d (w_proc w)).
Qed.

Lemma ensure_Ok (d : string) (w w' : world) :
  (e ← os.path_exists d; if negb e then os.makedirs d else mret tt) w = (Ok tt, w') →
  Kernel.path_exists d (w_proc w') = true
  ∧ ∀ s, Kernel.path_exists s (w_proc w) = true →
         Kernel.path_exists s (w_proc w') = true.
Proof.
  rewrite ensure_run. destruct (Kernel.path_exists d (w_proc w)) eqn:E.
  - intros [= <-]. by split.
  - intros (ps & Hmk & ->)%syscall_Ok. simpl in *. split.
    + by eapply makedirs_exists.
    + intros s. by eapply makedirs_keeps.
Qed.

Lemma for_ensure_Ok (ds : list string) (w w' : world) :
  for_ ds (λ d, e ← os.path_exists d; if negb e then os.makedirs d else mret tt) w
    = (Ok tt, w') →
  (∀ d, d ∈ ds → Kernel.path_exists d (w_proc w') = true)
  ∧ ∀ s, Kernel.path_exists s (w_proc w) = true →
         Kernel.path_exists s (w_proc w') = true.
Proof.
  revert w. induction ds as [|d ds IH]; intros w; cbn [for_].
  - intros [= <-]. split; [by intros d ?%elem_of_nil | done].
  - intros ([] & w1 & [Hd Hk]%ensure_Ok & [Hds Hk']%IH)%bind_Ok. split.
    + intros d' [->|?]%elem_of_cons; [by apply Hk' | by apply Hds].
    + intros s Hs. by apply Hk', Hk.
Qed.

Lemma for_ensure_existing (ds : list string) (w : world) :
  (∀ d, d ∈ ds → Kernel.path_exists d (w_proc w) = true) →
  for_ ds (λ d, e ← os.path_exists d; if negb e then os.makedirs d else mret tt) w
  = (Ok tt, foldl (λ w d, logged (PathExists d) w) w ds).
Proof.
  revert w. induction ds as [|d ds IH]; intros w Hds; cbn [for_]; [done |].
  rewrite bind_run, ensure_run, (Hds d) by (by left).
  apply IH. intros d' Hd'. apply Hds. by right.
Qed.

(** C8: the directory manager is idempotent.  After a call that succeeded, a
    second call for the same container id returns the same three paths,
    raises nothing, and creates nothing: it only asks whether each of the
    three directories exists.  The paths are those joined from the container
    data directory, the id, and [rootfs], [cow_rw] and [cow_workdir]. *)
Theorem create_container_root_dir_idempotent
    (container_id : string) (w w1 : world) (d : ContainerDir) :
  _create_container_root_dir container_id w = (Ok d, w1) →
  ∃ w2,
    _create_container_root_dir container_id w1 = (Ok d, w2)
    ∧ w_proc w2 = w_proc w1
    ∧ calls_since (w_trace w1) w2
      = [(w_who w1, PathExists (root_dir d));
         (w_who w1, PathExists (rw_dir d));
         (w_who w1, PathExists (work_dir d))]
    ∧ d = mkContainerDir
            (posixpath.join CONTAINER_DATA_DIR [container_id; "rootfs"])
            (posixpath.join CONTAINER_DATA_DIR [container_id; "cow_rw"])
            (posixpath.join CONTAINER_DATA_DIR [container_id; "cow_workdir"]).
Proof.
  unfold _create_container_root_dir.
  intros ([] & w' & [Hds _]%for_ensure_Ok & [= <- <-])%bind_Ok.
  eexists. split_and!; [| | | reflexivity].
  - rewrite bind_run, (for_ensure_existing _ _ Hds). reflexivity.
  - reflexivity.
  - apply calls_since_app. cbn [foldl w_trace logged set_trace w_who].
    by rewrite <- !app_assoc.
Qed.

End directory_manager.

(** ** Image paths *)

(** C9: the path of an image on disk does not determine the image.  The
    references [a/b_c:t] and [a_b/c:t] differ and have the same base path,
    whatever the tag [t] and the image directory. *)
Theorem image_base_path_not_injective (t image_dir : string) :
  mkImage "a" "b_c" t ≠ mkImage "a_b" "c" t
  ∧ ContainerExecuter._get_image_base_path (mkImage "a" "b_c" t) image_dir
    = ContainerExecuter._get_image_base_path (mkImage "a_b" "c" t) image_dir.
Proof. split; [done | reflexivity]. Qed.

(** ** The root switcher: an [old_root] that is already there *)

(** C10: when the root directory handed to the root switcher already has an
    entry [old_root], the switch fails in its first step: [os.makedirs]
    raises [OSError] with [EEXIST] ([FileExistsError]), and no call follows
    it, so the pivot is never attempted and the state of the process is left
    as it was. *)
Theorem change_root_dir_old_root_exists (container_root_dir : string) (w : world) :
  Kernel.path_exists (posixpath.join container_root_dir ["old_root"]) (w_proc w)
    = true →
  ContainerExecuter._change_root_dir container_root_dir w
  = (Raise (OSError EEXIST),
     logged (Makedirs (posixpath.join container_root_dir ["old_root"])) w).
Proof.
  intros H. unfold ContainerExecuter._change_root_dir, os.makedirs.
  rewrite bind_run, syscall_run. cbn [w_proc logged set_trace].
  by rewrite (makedirs_exists_fails _ _ H).
Qed.

(** The idempotence, on the host: the directories of container [c1] are
    created by the first call and only looked at by the second. *)
Lemma create_container_root_dir_idempotent_witness :
  let w := Host.world_of Host.disk 0 in
  let w1 := Host.after (ContainerExecuter._create_container_root_dir "c1") w in
  ∃ w2,
    ContainerExecuter._create_container_root_dir "c1" w1 = (Ok Host.dirs, w2)
    ∧ w_proc w2 = w_proc w1
    ∧ calls_since (w_trace w1) w2
      = [(w_who w1, PathExists (root_dir Host.dirs));
         (w_who w1, PathExists (rw_dir Host.dirs));
         (w_who w1, PathExists (work_dir Host.dirs))]
    ∧ Host.dirs = mkContainerDir
            (posixpath.join ContainerExecuter.CONTAINER_DATA_DIR ["c1"; "rootfs"])
            (posixpath.join ContainerExecuter.CONTAINER_DATA_DIR ["c1"; "cow_rw"])
            (posixpath.join ContainerExecuter.CONTAINER_DATA_DIR
                            ["c1"; "cow_workdir"]).
Proof.
  intros w w1.
  apply (create_container_root_dir_idempotent "c1" w w1 Host.dirs).
  apply (run_eta (ContainerExecuter._create_container_root_dir "c1") w
                 (Ok Host.dirs)).
  vm_compute. reflexivity.
Defined.

(** ** The overlay mount *)

Section overlay.

Import Kernel ContainerExecuter.


Lemma split_on_free (c : ascii) (s : string) :
  py.contains c s = false → posixpath.split_on c s = [s].
Proof.
  induction s as [|x s IH]; [done |]. simpl.
  intros [Hx Hs]%orb_false_iff. rewrite Hx, IH; done.
Qed.









End overlay.

(** ** A missing image *)



(** ** An image that holds [old_root] *)

(** On a host whose image holds an entry [old_root]: the launch gets as far
    as the root switch; there [old_root] shows in the merged root and the
    switch fails with [EEXIST].  Seen from the launcher, the child raised this
    error, its last call was the [makedirs] of [old_root], no pivot was
    attempted, and the status printed is that of a failed child. *)
Lemma change_root_dir_old_root_exists_witness :
  let w0 := Host.world_of Host.disk_with_old_root 0 in
  let child := set_children [] (set_who (Child 4242) (logged (Clone RunCommand.flags) w0)) in
  let w := Host.after
             (linux.sethostname "c1";;
              linux.mount None "/" None (Z.lor MS_PRIVATE MS_REC) None;;
              ContainerExecuter._create_container_root_dir "c1";;
              ContainerExecuter._mount_image_dir Host.busybox Host.dirs;;
              ContainerExecuter._init_system_dir (root_dir Host.dirs)) child in
  ContainerExecuter._change_root_dir (root_dir Host.dirs) w
  = (Raise (OSError EEXIST),
     logged (Makedirs "/var/opt/app/container/c1/rootfs/old_root") w)
  ∧ let w' := Host.after (RunCommand.execute Host.params) w0 in
    c_end <$> (w_children w').*2 = [Raised (OSError EEXIST)]
    ∧ drop 33 (w_trace w')
      = [(Child 4242, Makedirs "/var/opt/app/container/c1/rootfs/old_root");
         (Child 4242, Exit (Exited 255)); (Parent, Waitpid 4242 0);
         (Parent, Print "4242 exited with status 65280")]
    ∧ forallb (λ ev, match ev.2 with PivotRoot _ _ => false | _ => true end)
              (w_trace w') = true.
Proof.
  intros w0 child w. split.
  - apply (change_root_dir_old_root_exists (root_dir Host.dirs) w).
    vm_compute. reflexivity.
  - vm_compute. done.
Defined.

(** ** What the calls of the device initializer and of the root switcher
       leave behind *)

Section kernel_inversion.

Import Kernel.
Implicit Types (ps : procstate) (v : gmap path node).

Lemma resolve_Some ps s p :
  resolve ps s = Some p → s ≠ EmptyString ∧ p = locate (ps_cwd ps) s.
Proof. unfold resolve. case_bool_decide; [done |]. by intros [= <-]. Qed.

(** A new mount of a file system that starts empty. *)
Lemma mount_fresh_Done source target ty flags data fstypes ps ps' :
  mount source target (Some ty) flags data fstypes ps = Done ps' →
  has_flag flags propagation_flags = false →
  ty ≠ "overlay" →
  target ≠ EmptyString
  ∧ lookup_node (ps_view ps) (locate (ps_cwd ps) target) = Some Dir
  ∧ ps' = new_mount (locate (ps_cwd ps) target) ty flags (default EmptyString data)
                    ∅ ps.
Proof.
  unfold mount, resolve. intros H Hflags Hty. rewrite Hflags in H.
  case_bool_decide; [done |].
  destruct (lookup_node _ _) as [n|]; [|done].
  destruct (negb (ps_privileged ps)); [done |].
  destruct (has_flag flags _); [done |].
  destruct n; try done. case_bool_decide; [|done].
  rewrite bool_decide_false in H by done. by injection H as <-.
Qed.

Lemma new_mount_fresh_lookup t ty flags data ps k :
  ps_view (new_mount t ty flags data ∅ ps) !! k
  = match below t k with
    | Some _ => None
    | None => ps_view ps !! k
    end.
Proof.
  cbn. rewrite lookup_union_node, lookup_outside, graft_empty, lookup_empty.
  destruct (below t k); [done |]. by destruct (ps_view ps !! k).
Qed.

Lemma create_Done s n ps ps' :
  create s n ps = Done ps' →
  s ≠ EmptyString
  ∧ lookup_node (ps_view ps) (locate (ps_cwd ps) s) = None
  ∧ ps' = set_view (<[locate (ps_cwd ps) s := n]> (ps_view ps)) ps.
Proof.
  unfold create, resolve. case_bool_decide; [done |].
  destruct (lookup_node _ (removelast _)) as [[| | |]|]; try done.
  destruct (lookup_node _ (locate _ _)); [done |]. by intros [= <-].
Qed.

Lemma mknod_Done s mode dev ps ps' :
  mknod s mode dev ps = Done ps' →
  s ≠ EmptyString
  ∧ lookup_node (ps_view ps) (locate (ps_cwd ps) s) = None
  ∧ ps' = set_view (<[locate (ps_cwd ps) s
                      := Device (Z.land mode (Z.lnot (ps_umask ps))) dev]>
                      (ps_view ps)) ps.
Proof.
  unfold mknod.
  destruct (create _ _ _) as [ps1|] eqn:E; [|done]. cbn.
  destruct (ps_privileged ps); [|done]. intros [= <-]. by apply create_Done.
Qed.

Lemma chdir_Done s ps ps' :
  chdir s ps = Done ps' → ps' = set_cwd (locate (ps_cwd ps) s) ps.
Proof.
  unfold chdir, resolve. case_bool_decide; [done |].
  destruct (lookup_node _ _) as [[| | |]|]; try done. by intros [= <-].
Qed.

Lemma pivot_root_Done new_root put_old ps ps' :
  pivot_root new_root put_old ps = Done ps' →
  let n := locate (ps_cwd ps) new_root in
  let v := ps_view ps in
  ∃ mn orel,
    strip n (locate (ps_cwd ps) put_old) = Some orel
    ∧ find_mount n (ps_mounts ps) = Some mn
    ∧ ps_view ps'
      = outside orel (subtree n v)
          ∪ graft orel (outside n v ∪ graft n (m_covered mn)).
Proof.
  unfold pivot_root, resolve. intros H.
  repeat (case_match; try done); simplify_eq/=; by eauto.
Qed.

Lemma umount2_Done target flags ps ps' :
  umount2 target flags ps = Done ps' →
  let t := locate (ps_cwd ps) target in
  ∃ m, find_mount t (ps_mounts ps) = Some m
       ∧ ps_view ps' = outside t (ps_view ps) ∪ graft t (m_covered m)
       ∧ ps_cwd ps' = ps_cwd ps.
Proof.
  unfold umount2, resolve. case_bool_decide; [done |].
  destruct (lookup_node _ _); [|done]. destruct (negb _); [done |].
  destruct (locate _ _) as [|c t]; [done |].
  destruct (find_mount _ _) as [m|]; [|done].
  destruct (_ && _); [done |]. intros [= <-]. by eauto.
Qed.

Lemma rmdir_Done s ps ps' :
  rmdir s ps = Done ps' →
  let p := locate (ps_cwd ps) s in
  subtree p (ps_view ps) = ∅
  ∧ find_mount p (ps_mounts ps) = None
  ∧ ps' = set_view (delete p (ps_view ps)) ps.
Proof.
  unfold rmdir, resolve. case_bool_decide; [done |].
  case_bool_decide; [done |].
  destruct (ps_view ps !! _) as [[| | |]|]; try done.
  case_bool_decide as Hm; [done |]. case_bool_decide; [|done].
  intros [= <-]. split_and!; [done | | done].
  destruct (find_mount _ _); [|done]. by destruct Hm.
Qed.

End kernel_inversion.

(** ** The root switcher *)

Section root_switcher.

Import Kernel ContainerExecuter.

Lemma prefix_app_singleton (n r : path) (c : string) :
  n ++ r `prefix_of` n ++ [c] → r = [] ∨ r = [c].
Proof.
  intros [k Hk]%prefix_app_inv. destruct r as [|a r]; [by left |]. right.
  destruct r as [|b r]; [by injection Hk as -> | done].
Qed.

(** C7: a root switch that succeeds makes five calls: it creates
    [old_root] in the new root, pivots onto the new root with the old root
    put at [old_root], changes to [/], detaches [/old_root] and removes the
    directory.  The new root was a mount point.  Afterwards the working
    directory is [/]; [/old_root] neither exists nor is a mount point; and
    every other entry [r] of the root is the entry that was at [r] below the
    new root before the switch. *)
Theorem change_root_dir_switches (container_root_dir : string) (w w' : world) :
  _change_root_dir container_root_dir w = (Ok tt, w') →
  let new_root := locate (ps_cwd (w_proc w)) container_root_dir in
  let old_root := posixpath.join container_root_dir ["old_root"] in
  calls_since (w_trace w) w'
  = [(w_who w, Makedirs old_root);
     (w_who w, PivotRoot container_root_dir old_root);
     (w_who w, Chdir "/");
     (w_who w, Umount2 "/old_root" MNT_DETACH);
     (w_who w, Rmdir "/old_root")]
  ∧ is_Some (find_mount new_root (ps_mounts (w_proc w)))
  ∧ ps_cwd (w_proc w') = []
  ∧ path_exists "/old_root" (w_proc w') = false
  ∧ find_mount ["old_root"] (ps_mounts (w_proc w')) = None
  ∧ ∀ r, r ≠ [] →
         ps_view (w_proc w') !! r
         = match strip ["old_root"] r with
           | Some _ => None
           | None => ps_view (w_proc w) !! (new_root ++ r)
           end.
Proof.
  intros H new_root old_root. revert H.
  unfold _change_root_dir, os.makedirs, linux.pivot_root, os.chdir,
    linux.umount2, os.rmdir.
  intros ([] & w1 & (ps1 & H1 & ->)%syscall_Ok & H)%bind_Ok.
  apply bind_Ok in H as ([] & w2 & (ps2 & H2 & ->)%syscall_Ok & H).
  apply bind_Ok in H as ([] & w3 & (ps3 & H3 & ->)%syscall_Ok & H).
  apply bind_Ok in H as ([] & w4 & (ps4 & H4 & ->)%syscall_Ok & H).
  apply syscall_Ok in H as (ps5 & H5 & ->).
  cbn [w_proc set_proc logged set_trace] in *.
  (* the five calls, one after the other *)
  apply makedirs_Done in H1 as (o & v1 & Ho & Hnone & Hmk & ->).
  apply resolve_Some in Ho as [_ ->].
  assert (Hroot : container_root_dir ≠ EmptyString).
  { intros ->. by unfold pivot_root, resolve in H2. }
  assert (Ho : locate (ps_cwd (w_proc w))
                 (posixpath.join container_root_dir ["old_root"])
               = new_root ++ ["old_root"]).
  { by apply (locate_join2 _ container_root_dir "old_root"). }
  rewrite Ho in *.
  apply pivot_root_Done in H2 as (mn & orel & Hstrip & Hmn & Hv2).
  cbn [ps_cwd ps_view ps_mounts set_view] in Hstrip, Hmn, Hv2.
  fold new_root in Hstrip, Hmn, Hv2.
  change (posixpath.join2 container_root_dir "old_root")
    with (posixpath.join container_root_dir ["old_root"]) in Hstrip.
  rewrite Ho, strip_app in Hstrip. injection Hstrip as <-.
  apply chdir_Done in H3 as ->.
  apply umount2_Done in H4 as (m & Hm & Hv4 & Hcwd4).
  cbn [ps_cwd ps_view ps_mounts set_cwd] in Hm, Hv4, Hcwd4.
  change (locate _ "/") with (@nil string) in Hm, Hv4, Hcwd4.
  change (locate [] "/old_root") with ["old_root"] in Hm, Hv4.
  apply rmdir_Done in H5 as (Hempty & Hnomount & ->).
  rewrite Hcwd4 in Hempty, Hnomount |- *.
  change (locate [] "/old_root") with ["old_root"] in Hempty, Hnomount |- *.
  cbn [w_proc set_proc ps_view ps_cwd ps_mounts set_view].
  assert (Hview : ∀ r, r ≠ [] →
            delete ["old_root"] (ps_view ps4) !! r
            = match strip ["old_root"] r with
              | Some _ => None
              | None => ps_view (w_proc w) !! (new_root ++ r)
              end).
  { intros r Hr. destruct (strip ["old_root"] r) as [r'|] eqn:Er.
    - apply strip_Some in Er as ->. destruct r' as [|c r'].
      + apply lookup_delete_eq.
      + rewrite lookup_delete_ne by done.
        pose proof (lookup_subtree ["old_root"] (ps_view ps4) (c :: r')) as Hs.
        rewrite Hempty, lookup_empty in Hs. by rewrite bool_decide_false in Hs.
    - assert (Hb : below ["old_root"] r = None).
      { unfold below. by rewrite Er. }
      rewrite lookup_delete_ne by (intros <-; by vm_compute in Er).
      rewrite Hv4, lookup_union_node, lookup_outside, Hb, lookup_graft, Er.
      rewrite Hv2, lookup_union_node, lookup_outside, Hb, lookup_graft, Er.
      rewrite lookup_subtree, bool_decide_false by done.
      rewrite (mkdirs_lookup _ _ _ _ (new_root ++ r) Hmk).
      destruct (ps_view (w_proc w) !! (new_root ++ r)) as [x|]; [done |].
      rewrite bool_decide_false; [done |].
      intros (k & _ & Hpre & Hk)%elem_of_dirs_along. simpl in Hk. subst k.
      apply prefix_app_singleton in Hpre as [->| ->]; [done |].
      by vm_compute in Er. }
  split_and!.
  - apply calls_since_app. cbn [w_trace set_proc logged set_trace w_who].
    by rewrite <- !app_assoc.
  - by rewrite Hmn.
  - done.
  - unfold path_exists, resolve. cbn [ps_cwd ps_view set_view].
    rewrite bool_decide_false by done.
    change (locate _ "/old_root") with ["old_root"].
    cbn [lookup_node]. by rewrite (Hview ["old_root"]).
  - done.
  - exact Hview.
Qed.

End root_switcher.

(** ** Pieces of the launcher that only add calls *)

Section tagging.

Lemma grows_refl (w : world) : grows w w.
Proof. split; [done |]. exists []. by rewrite app_nil_r. Qed.

Lemma grows_trans (w1 w2 w3 : world) : grows w1 w2 → grows w2 w3 → grows w1 w3.
Proof.
  intros [Hw (cs & Ht)] [Hw' (cs' & Ht')]. split; [congruence |].
  exists (cs ++ cs'). by rewrite Ht', Ht, Hw, fmap_app, app_assoc.
Qed.

Lemma grows_logged (c : call) (w : world) : grows w (logged c w).
Proof. split; [done |]. by exists [c]. Qed.

Lemma grows_set_proc (ps : procstate) (w w' : world) :
  grows w w' → grows w (set_proc ps w').
Proof. done. Qed.

Lemma tagged_ret {A} (a : A) : tagged (mret a : M A).
Proof. intros w. apply grows_refl. Qed.

Lemma tagged_raise {A} (e : exn) : tagged (raise e : M A).
Proof. intros w. apply grows_refl. Qed.

Lemma tagged_bind {A B} (m : M A) (k : A → M B) :
  tagged m → (∀ a, tagged (k a)) → tagged (m ≫= k).
Proof.
  intros Hm Hk w. rewrite bind_run. specialize (Hm w).
  destruct (m w) as [[a|e|f a] w1]; [|done..].
  exact (grows_trans _ _ _ Hm (Hk a w1)).
Qed.

Lemma tagged_log (c : call) : tagged (log c).
Proof. intros w. apply grows_logged. Qed.

Lemma tagged_syscall (c : call) (wrap : errno → exn) (f : world → result procstate) :
  tagged (syscall c wrap f).
Proof.
  intros w. rewrite syscall_run.
  destruct (f (logged c w)); apply grows_logged.
Qed.

Lemma tagged_path_exists (p : string) : tagged (os.path_exists p).
Proof. intros w. apply grows_logged. Qed.

Lemma tagged_execvp (file : string) (args : list string) :
  tagged (os.execvp file args).
Proof.
  intros w. unfold os.execvp, act. rewrite bind_run. cbn [log]. cbv beta.
  repeat case_match; apply (grows_logged (Execvp file args) w).
Qed.

Lemma tagged_for {A} (xs : list A) (body : A → M unit) :
  (∀ x, tagged (body x)) → tagged (for_ xs body).
Proof.
  intros Hb. induction xs as [|x xs IH]; cbn [for_];
    [apply tagged_ret | by apply tagged_bind].
Qed.

Lemma tagged_if {A} (b : bool) (m1 m2 : M A) :
  tagged m1 → tagged m2 → tagged (if b then m1 else m2).
Proof. by destruct b. Qed.

End tagging.

Create HintDb tagged.

#[local] Hint Resolve tagged_ret tagged_raise tagged_log tagged_syscall
  tagged_path_exists tagged_execvp : tagged.

Ltac tagged_tac :=
  unfold os.makedirs, os.symlink, os.mknod, os.chdir, os.rmdir,
    linux.sethostname, linux.mount, linux.pivot_root, linux.umount2, print;
  cbv zeta;
  repeat first
    [ progress auto with tagged
    | apply tagged_for; intros ?
    | apply tagged_if
    | apply tagged_bind; [|intros ?]
    | match goal with |- tagged (let '(_, _) := ?x in _) => destruct x end
    | match goal with |- tagged (match ?x with _ => _ end) => destruct x end ].

Section tagged_launcher.

Import ContainerExecuter.

Lemma tagged_create_container_root_dir (container_id : string) :
  tagged (_create_container_root_dir container_id).
Proof. unfold _create_container_root_dir. tagged_tac. Qed.

Lemma tagged_mount_image_dir (img : Image) (cd : ContainerDir) :
  tagged (_mount_image_dir img cd).
Proof. unfold _mount_image_dir, linux.mount. tagged_tac. Qed.

Lemma tagged_init_devices (dev_path : string) : tagged (_init_devices dev_path).
Proof. unfold _init_devices, os.symlink, os.mknod. tagged_tac. Qed.

#[local] Hint Resolve tagged_init_devices : tagged.

Lemma tagged_init_system_dir (container_root_dir : string) :
  tagged (_init_system_dir container_root_dir).
Proof. unfold _init_system_dir. tagged_tac. Qed.

Lemma tagged_change_root_dir (container_root_dir : string) :
  tagged (_change_root_dir container_root_dir).
Proof. unfold _change_root_dir. tagged_tac. Qed.

End tagged_launcher.

(** ** The launch *)

Section launch.

Import ContainerExecuter.

#[local] Hint Resolve tagged_create_container_root_dir tagged_mount_image_dir
  tagged_init_system_dir tagged_change_root_dir : tagged.

Lemma tagged_execute (p : ContainerInitParams) : tagged (execute p).
Proof. unfold execute. tagged_tac. Qed.

(** The launch, call by call: the clone, the run of the child from its
    start to its end, the wait and the printed line. *)
Lemma RunCommand_execute_run (p : ContainerInitParams) (w : world) :
  ps_privileged (w_proc w) = true →
  let pid := w_next_pid w in
  let rc := execute p (child_start w) in
  let term := w_exit_of w (ending rc.1) in
  (RunCommand.execute p w).1 = Ok tt
  ∧ w_trace (RunCommand.execute p w).2
    = w_trace rc.2
        ++ [(Child pid, Exit term);
            (w_who w, Waitpid pid 0);
            (w_who w, Print (exit_line pid (wait_status term)))]
  ∧ ∃ cs, w_children (RunCommand.execute p w).2
          = (pid, mkChild (ending rc.1) term (w_proc rc.2) true) :: cs.
Proof.
  intros Hpriv. cbv zeta.
  unfold RunCommand.execute, linux.clone, os.waitpid, print, act.
  rewrite !bind_run. cbn [log set_trace w_proc]. rewrite Hpriv. cbn [negb].
  change (set_children [] (set_who _ _)) with (child_start w).
  destruct (execute p (child_start w)) as [r wc]. cbn [fst snd].
  rewrite !bind_run. cbn [log w_children set_trace].
  cbn [find fst snd c_waited negb].
  rewrite bool_decide_true by done. cbn [andb].
  cbn [fmap list_fmap fst snd c_term c_end c_state w_trace set_children
       w_children w_who logged set_trace w_exit_of w_next_pid].
  rewrite bool_decide_true by done. cbn.
  split_and!; [done | by rewrite <- !app_assoc | by eauto].
Qed.




(** The calls of a launch by a process that may clone: the clone, the calls
    of the child, the end of the child, the wait and the printed line. *)
Lemma launch_calls (p : ContainerInitParams) (w : world) :
  ps_privileged (w_proc w) = true →
  let pid := w_next_pid w in
  let term := w_exit_of w (ending (execute p (child_start w)).1) in
  ∃ child_calls,
    w_trace (execute p (child_start w)).2
    = w_trace w ++ (w_who w, Clone RunCommand.flags)
        :: ((λ c, (Child pid, c)) <$> child_calls)
    ∧ calls_since (w_trace w) (Host.after (RunCommand.execute p) w)
      = (w_who w, Clone RunCommand.flags)
          :: ((λ c, (Child pid, c)) <$> child_calls)
          ++ [(Child pid, Exit term);
              (w_who w, Waitpid pid 0);
              (w_who w, Print (exit_line pid (wait_status term)))].
Proof.
  intros Hpriv pid term.
  destruct (RunCommand_execute_run p w Hpriv) as (_ & Htrace & _).
  destruct (tagged_execute p (child_start w)) as [_ (cs & Hcs)].
  exists cs. cbn [child_start w_trace w_who set_children set_who logged set_trace]
    in Hcs.
  rewrite <- app_assoc in Hcs. split; [exact Hcs |].
  apply calls_since_app. unfold Host.after. rewrite Htrace, Hcs.
  by rewrite <- !app_assoc.
Qed.


(** The amended C1: in a launch, the clone is the first call and the only
    call of the launching process before it waits; a private remount of [/]
    is never made by the launching process, only by the child.  When the
    clone and the setting of the host name succeed, the remount is the
    second call of the child, right after [sethostname]: after the clone
    and before any directory is created or any file system mounted. *)
Theorem remount_after_clone_in_child (p : ContainerInitParams) (w : world) :
  w_who w = Parent →
  let pid := w_next_pid w in
  let calls := calls_since (w_trace w) (Host.after (RunCommand.execute p) w) in
  (∃ rest, calls = (Parent, Clone RunCommand.flags) :: rest
           ∧ ∀ who, (who, private_remount) ∈ rest → who = Child pid)
  ∧ (ps_privileged (w_proc w) = true →
     (String.length (container_id p) ≤ 64)%nat →
     ∃ rest, calls = (Parent, Clone RunCommand.flags)
                       :: (Child pid, Sethostname (container_id p))
                       :: (Child pid, private_remount) :: rest).
Proof.
  intros Hwho pid calls. subst calls.
  destruct (ps_privileged (w_proc w)) eqn:Hpriv.
  - destruct (launch_calls p w Hpriv) as (cs & Hchild & ->).
    rewrite Hwho in *. split.
    + eexists. split; [done |].
      intros who [(c & [= -> _] & _)%list_elem_of_fmap|Hin]%elem_of_app; [done |].
      rewrite !elem_of_cons, elem_of_nil in Hin.
      by destruct Hin as [[= _ ?]|[[= _ ?]|[[= _ ?]|[]]]].
    + intros _ Hlen.
      assert (Hhead : ∃ cs', cs = Sethostname (container_id p)
                                    :: private_remount :: cs').
      { revert Hchild. unfold execute, linux.sethostname.
        rewrite bind_run, syscall_run. unfold Kernel.sethostname.
        cbn [child_start w_proc set_children set_who logged set_trace].
        rewrite Hpriv. cbn [negb].
        apply Nat.leb_le in Hlen. rewrite Nat.ltb_antisym, Hlen. cbn [negb].
        set (k := λ _ : (), _). unfold linux.mount.
        rewrite bind_run, syscall_run.
        set (w2 := logged _ (set_proc _ _)).
        assert (Hk : ∀ w3, w_who w3 = Child pid → w_trace w3 = w_trace w2 →
                     ∃ cs', w_trace (k () w3).2
                            = w_trace w2 ++ ((λ c, (Child pid, c)) <$> cs')).
        { intros w3 Hw3 Ht3.
          assert (Htag : tagged (k ())) by (subst k; tagged_tac).
          destruct (Htag w3) as [_ (cs' & ->)]. rewrite Ht3, Hw3. by eauto. }
        destruct (Kernel.mount _ _ _ _ _ _ _) as [ps3|e].
        - destruct (Hk (set_proc ps3 w2) eq_refl eq_refl) as (cs' & ->).
          subst w2. unfold child_start.
          cbn [w_trace logged set_proc set_trace w_who set_children set_who].
          rewrite Hwho, <- !app_assoc. intros Heq%(inj (app _)).
          injection Heq as Heq.
          destruct cs as [|c1 [|c2 cs2]]; simplify_eq/=. by eauto.
        - subst w2. unfold child_start.
          cbn [w_trace logged set_proc set_trace w_who set_children set_who snd].
          rewrite Hwho, <- !app_assoc. intros Heq%(inj (app _)).
          injection Heq as Heq.
          destruct cs as [|c1 [|c2 cs2]]; simplify_eq/=. by eauto. }
      destruct Hhead as (cs' & ->). by eauto.
  - split; [|done].
    exists []. split; [|by intros who ?%elem_of_nil].
    apply calls_since_app. unfold Host.after, RunCommand.execute, linux.clone, act.
    rewrite !bind_run. cbn [log set_trace w_proc]. rewrite Hpriv. cbn.
    by rewrite Hwho.
Qed.

End launch.

(** ** The launch on the host *)

(** The launch of [echo hello] in the busybox image: the clone comes first,
    and the child makes the private remount. *)
Lemma remount_after_clone_in_child_witness :
  let w := Host.world_of Host.disk 0 in
  let calls := calls_since (w_trace w)
                 (Host.after (RunCommand.execute Host.params) w) in
  (∃ rest, calls = (Parent, Clone RunCommand.flags) :: rest
           ∧ ∀ who, (who, private_remount) ∈ rest → who = Child 4242)
  ∧ (ps_privileged (w_proc w) = true →
     (String.length (container_id Host.params) ≤ 64)%nat →
     ∃ rest, calls = (Parent, Clone RunCommand.flags)
                       :: (Child 4242, Sethostname (container_id Host.params))
                       :: (Child 4242, private_remount) :: rest).
Proof.
  intros w.
  pose proof (remount_after_clone_in_child Host.params w eq_refl) as H.
  cbv zeta in H. change (w_next_pid w) with 4242 in H. exact H.
Defined.

(** C1 as stated fails: in the launch on the host the launching process
    never makes the private remount, so it does not make it before its
    clone. *)
Lemma remount_not_before_clone :
  ¬ remount_before_clone
      (calls_since [] (Host.after (RunCommand.execute Host.params)
                                  (Host.world_of Host.disk 0))).
Proof.
  unfold remount_before_clone. intros H. destruct H as [H _].
  destruct H as (before & after & Heq & Hin).
  assert (Hn : bool_decide
                 ((Parent, private_remount)
                    ∈ calls_since [] (Host.after (RunCommand.execute Host.params)
                                                 (Host.world_of Host.disk 0)))
               = false) by (vm_compute; reflexivity).
  apply bool_decide_eq_false_1 in Hn. apply Hn. rewrite Heq.
  apply elem_of_app. by left.
Qed.



(** ** The device initializer *)

Section device_initializer.

Import Kernel ContainerExecuter.

Lemma lookup_insert_under (d : path) (n : string) (x : node)
    (v : gmap path node) (r : path) :
  <[d ++ [n] := x]> v !! (d ++ r)
  = if decide ([n] = r) then Some x else v !! (d ++ r).
Proof.
  rewrite lookup_insert. repeat case_decide; try done.
  - by destruct H0; apply (inj (app d)).
  - by destruct H; f_equal.
Qed.

(** Take apart a run that succeeded, call by call. *)
Ltac run_ok H :=
  cbv beta in H;
  lazymatch type of H with
  | (_ ≫= _) _ = (Ok _, _) =>
      let H1 := fresh "H" in
      apply bind_Ok in H as ([] & ? & H1 & H); run_ok H1; run_ok H
  | syscall _ _ _ _ = (Ok _, _) =>
      let Hc := fresh "Hc" in
      apply syscall_Ok in H as (? & Hc & ->);
      cbn [w_proc set_proc logged set_trace ps_cwd ps_umask ps_view set_view]
        in Hc;
      first [ apply mknod_Done in Hc as (_ & _ & ->)
            | apply create_Done in Hc as (_ & _ & ->) ]
  | mret _ _ = (Ok _, _) => inversion H; subst; clear H
  end.

(** [_init_devices] on a directory: its eleven calls, and the eleven entries
    they add. *)
Lemma init_devices_Ok (dev_path : string) (w w' : world) :
  _init_devices dev_path w = (Ok tt, w') →
  dev_path ≠ EmptyString →
  let d := locate (ps_cwd (w_proc w)) dev_path in
  let u := ps_umask (w_proc w) in
  w_trace w' = w_trace w ++ ((λ c, (w_who w, c)) <$> device_calls dev_path)
  ∧ ps_mounts (w_proc w') = ps_mounts (w_proc w)
  ∧ ps_view (w_proc w')
    = <[d ++ ["full"] := chardev u 1 7]>
      (<[d ++ ["tty"] := chardev u 5 0]>
      (<[d ++ ["console"] := chardev u 136 1]>
      (<[d ++ ["urandom"] := chardev u 1 9]>
      (<[d ++ ["random"] := chardev u 1 8]>
      (<[d ++ ["zero"] := chardev u 1 5]>
      (<[d ++ ["null"] := chardev u 1 3]>
      (<[d ++ ["fd"] := Symlink "/proc/self/fd"]>
      (<[d ++ ["stderr"] := Symlink "/proc/self/fd/2"]>
      (<[d ++ ["stdout"] := Symlink "/proc/self/fd/1"]>
      (<[d ++ ["stdin"] := Symlink "/proc/self/fd/0"]>
         (ps_view (w_proc w)))))))))))).
Proof.
  intros H Hne d u. revert H. unfold _init_devices, os.symlink, os.mknod.
  change (py.enumerate ["stdin"; "stdout"; "stderr"])
    with [(0, "stdin"); (1, "stdout"); (2, "stderr")].
  cbn [for_].
  change (pretty 0) with "0". change (pretty 1) with "1".
  change (pretty 2) with "2".
  assert (Hloc : ∀ name, plain name = true →
            locate (ps_cwd (w_proc w)) (posixpath.join2 dev_path name)
            = d ++ [name]).
  { intros name Hp. by apply (locate_join2 _ dev_path name). }
  intros H. run_ok H.
  cbn [w_trace w_proc set_proc logged set_trace w_who ps_mounts ps_view set_view
       ps_cwd ps_umask].
  rewrite !Hloc by done. split_and!; [|done|done].
  rewrite <- !app_assoc. reflexivity.
Qed.


Lemma for_ensure_frame (ds : list string) (w w' : world) :
  for_ ds (λ d, e ← os.path_exists d; if negb e then os.makedirs d else mret tt) w
    = (Ok tt, w') →
  ps_cwd (w_proc w') = ps_cwd (w_proc w)
  ∧ ps_umask (w_proc w') = ps_umask (w_proc w)
  ∧ grows w w'.
Proof.
  intros H. split_and!.
  - revert w H. induction ds as [|d ds IH]; intros w; cbn [for_].
    + by intros [= <-].
    + intros ([] & w1 & H1 & ->%IH)%bind_Ok. revert H1. rewrite ensure_run.
      destruct (path_exists d (w_proc w)); [by intros [= <-] |].
      intros (ps & (? & ? & _ & _ & _ & ->)%makedirs_Done & ->)%syscall_Ok. done.
  - revert w H. induction ds as [|d ds IH]; intros w; cbn [for_].
    + by intros [= <-].
    + intros ([] & w1 & H1 & ->%IH)%bind_Ok. revert H1. rewrite ensure_run.
      destruct (path_exists d (w_proc w)); [by intros [= <-] |].
      intros (ps & (? & ? & _ & _ & _ & ->)%makedirs_Done & ->)%syscall_Ok. done.
  - assert (Ht : tagged (for_ ds (λ d, e ← os.path_exists d;
                                  if negb e then os.makedirs d else mret tt)))
      by tagged_tac.
    specialize (Ht w). by rewrite H in Ht.
Qed.

(** A successful run of the device initializer, from the mount of the
    [tmpfs] on: the calls it makes, the mount at the head of the mount table,
    and the entries below the device directory. *)
Lemma init_system_dir_Ok (container_root_dir : string) (w w' : world) :
  _init_system_dir container_root_dir w = (Ok tt, w') →
  let dev_dir := posixpath.join container_root_dir ["dev"] in
  let devpts_path := posixpath.join container_root_dir ["dev"; "pts"] in
  let d := locate (ps_cwd (w_proc w)) dev_dir in
  (∃ pre,
      calls_since (w_trace w) w'
      = pre ++ ((λ c, (w_who w, c)) <$>
                  [Mount (Some "tmpfs") dev_dir (Some "tmpfs")
                         (Z.lor MS_NOSUID MS_STRICTATIME) (Some "mode=755");
                   PathExists devpts_path;
                   Makedirs devpts_path;
                   Mount (Some "devpts") devpts_path (Some "devpts") 0
                         (Some EmptyString)]
                  ++ device_calls dev_dir))
  ∧ (∃ m ms, ps_mounts (w_proc w') = m :: ms
             ∧ m_point m = d ++ ["pts"] ∧ m_fstype m = "devpts")
  ∧ subtree d (ps_view (w_proc w')) = dev_tree (ps_umask (w_proc w)).
Proof.
  intros H dev_dir devpts_path d. revert H.
  unfold _init_system_dir, linux.mount.
  intros ([] & w1 & (Hcwd1 & Hu1 & Hw1 & pre & Hpre)%for_ensure_frame & H)%bind_Ok.
  apply bind_Ok in H as ([] & w2 & (ps2 & H2 & ->)%syscall_Ok & H).
  apply bind_Ok in H as ([] & w3 & (ps3 & H3 & ->)%syscall_Ok & H).
  apply bind_Ok in H as ([] & w4 & (ps4 & H4 & ->)%syscall_Ok & H).
  cbn [w_proc w_fstypes set_proc logged set_trace] in H2, H3, H4.
  apply mount_fresh_Done in H2 as (_ & _ & ->); [|done..].
  apply mount_fresh_Done in H3 as (_ & _ & ->); [|done..].
  apply mount_fresh_Done in H4 as (_ & _ & ->); [|done..].
  cbn [ps_cwd new_mount set_mounts set_view] in H.
  rewrite Hcwd1 in H. fold dev_dir d in H.
  (* the directory of [devpts] is not there, below the fresh [tmpfs] *)
  assert (Hdev : dev_dir ≠ EmptyString) by (by apply join2_not_empty).
  assert (Hpts : ∀ cwd, locate cwd devpts_path = locate cwd dev_dir ++ ["pts"]).
  { intros cwd. by apply (locate_join2 cwd dev_dir "pts"). }
  apply bind_Ok in H as (e & w5 & He & H).
  rewrite path_exists_run in He. injection He as <- <-.
  change (posixpath.join2 (posixpath.join2 container_root_dir "dev") "pts")
    with devpts_path in H.
  set (ps4 := new_mount d "tmpfs" _ _ _ _) in H.
  assert (Hcwd4 : ps_cwd ps4 = ps_cwd (w_proc w)) by exact Hcwd1.
  assert (Hv4 : ∀ r, r ≠ [] → ps_view ps4 !! (d ++ r) = None).
  { intros r Hr. subst ps4.
    by rewrite new_mount_fresh_lookup, (below_app _ _ Hr). }
  assert (He : path_exists devpts_path ps4 = false).
  { unfold path_exists, resolve. case_bool_decide; [done |].
    rewrite Hcwd4, Hpts. fold d.
    destruct (d ++ ["pts"]) as [|c l] eqn:E; [by destruct d |].
    cbn [lookup_node]. rewrite <- E. by rewrite Hv4. }
  cbn [w_proc set_proc logged set_trace] in H. rewrite He in H. cbn [negb] in H.
  apply bind_Ok in H as ([] & w6 & H6 & H).
  apply bind_Ok in H6 as ([] & w5 & (ps5 & H5 & ->)%syscall_Ok
                          & (ps6 & H6 & ->)%syscall_Ok).
  cbn [w_proc w_fstypes set_proc logged set_trace] in H5, H6.
  apply makedirs_Done in H5 as (o & v5 & Ho & _ & Hmk & ->).
  apply resolve_Some in Ho as [_ ->]. rewrite Hcwd4, Hpts in Hmk. fold d in Hmk.
  apply mount_fresh_Done in H6 as (_ & _ & ->); [|done..].
  cbn [ps_cwd set_view] in H. rewrite Hcwd4, Hpts in H. fold d in H.
  set (ps6 := new_mount _ _ _ _ _ _) in H.
  assert (Hbase : ∀ r, r ≠ [] →
            ps_view ps6 !! (d ++ r)
            = if decide (["pts"] = r) then Some Dir else None).
  { intros r Hr. subst ps6. rewrite new_mount_fresh_lookup. cbn [ps_view set_view].
    rewrite (mkdirs_lookup _ _ _ _ (d ++ r) Hmk), (Hv4 r Hr).
    case_decide as Hpr.
    - subst r. rewrite below_self.
      rewrite bool_decide_true; [done |].
      apply (dirs_along_last []). by destruct d.
    - destruct (below _ _); [done |]. rewrite bool_decide_false; [done |].
      intros (k & _ & Hk & Heq)%elem_of_dirs_along. simpl in Heq. subst k.
      by apply prefix_app_singleton in Hk as [->| ->]. }
  apply init_devices_Ok in H as (Htrace & Hmounts & Hview); [|done].
  cbn [w_proc set_proc logged set_trace ps_cwd ps_umask w_trace w_who] in
    Htrace, Hmounts, Hview.
  change (ps_cwd ps6) with (ps_cwd (w_proc w1)) in Hview.
  rewrite Hcwd1 in Hview. fold dev_dir d in Hview.
  change (ps_umask ps6) with (ps_umask (w_proc w1)) in Hview.
  rewrite Hu1 in Hview.
  rewrite Hw1 in Htrace.
  split_and!.
  - exists (((λ c, (w_who w, c)) <$> pre)
              ++ [(w_who w, Mount (Some "proc")
                              (posixpath.join container_root_dir ["proc"])
                              (Some "proc") 0 (Some EmptyString));
                  (w_who w, Mount (Some "sysfs")
                              (posixpath.join container_root_dir ["sys"])
                              (Some "sysfs") 0 (Some EmptyString))]).
    apply calls_since_app. rewrite Htrace, Hpre, fmap_app.
    rewrite <- !app_assoc. reflexivity.
  - rewrite Hmounts. subst ps6. cbn [ps_mounts new_mount set_mounts]. by eauto.
  - apply map_eq. intros r. rewrite lookup_subtree, Hview.
    case_bool_decide as Hr; [by subst r |].
    rewrite !lookup_insert_under, (Hbase r Hr).
    unfold dev_tree. cbn [list_to_map foldr fst snd uncurry].
    rewrite !lookup_insert, lookup_empty.
    repeat (case_decide; simplify_eq/=; try done).
Qed.

End device_initializer.

(** ** The device initializer: what it leaves in the device directory *)

Section device_directory.

Import Kernel ContainerExecuter.

(** C3: a device initializer that succeeds always mounts [devpts] on
    [dev/pts] of the root directory, whether or not the directory was there
    before.  The test of the source, which guards the creation of the
    directory and the mount alike, is made right after a fresh [tmpfs] has
    been mounted on [dev], where nothing exists yet: it always finds
    [dev/pts] missing, so the directory is created and the mount is made.
    The three calls follow each other, the mount is at the head of the mount
    table in the end, and its mount point is a directory. *)
Theorem init_system_dir_mounts_devpts (container_root_dir : string) (w w' : world) :
  _init_system_dir container_root_dir w = (Ok tt, w') →
  let devpts_path := posixpath.join container_root_dir ["dev"; "pts"] in
  let pts := locate (ps_cwd (w_proc w))
                    (posixpath.join container_root_dir ["dev"]) ++ ["pts"] in
  (∃ pre post,
      calls_since (w_trace w) w'
      = pre ++ [(w_who w, PathExists devpts_path);
                (w_who w, Makedirs devpts_path);
                (w_who w, Mount (Some "devpts") devpts_path (Some "devpts") 0
                                (Some EmptyString))] ++ post)
  ∧ (∃ m ms, ps_mounts (w_proc w') = m :: ms
             ∧ m_point m = pts ∧ m_fstype m = "devpts")
  ∧ ps_view (w_proc w') !! pts = Some Dir.
Proof.
  intros (Hcalls & Hmount & Htree)%init_system_dir_Ok devpts_path pts.
  split_and!.
  - destruct Hcalls as (pre & ->).
    exists (pre ++ [(w_who w, Mount (Some "tmpfs")
                                (posixpath.join container_root_dir ["dev"])
                                (Some "tmpfs") (Z.lor MS_NOSUID MS_STRICTATIME)
                                (Some "mode=755"))]).
    eexists. rewrite <- !app_assoc. reflexivity.
  - exact Hmount.
  - pose proof (lookup_subtree
                  (locate (ps_cwd (w_proc w))
                          (posixpath.join container_root_dir ["dev"]))
                  (ps_view (w_proc w')) ["pts"]) as Hl.
    rewrite Htree in Hl. rewrite bool_decide_false in Hl by done.
    unfold pts. rewrite <- Hl. reflexivity.
Qed.


End device_directory.

(** ** The device initializer and the root switcher on the host *)

(** On the host the image holds [dev/pts], so the directory is there before
    the initializer runs; the initializer creates it anew below the [tmpfs]
    and mounts [devpts] on it. *)
Lemma init_system_dir_mounts_devpts_witness :
  let w := Host.mounted_world in
  Kernel.path_exists "/var/opt/app/container/c1/rootfs/dev/pts" (w_proc w) = true
  ∧ ∃ pre post,
      calls_since (w_trace w) Host.initialized_world
      = pre ++ [(w_who w, PathExists (posixpath.join (root_dir Host.dirs)
                                                     ["dev"; "pts"]));
                (w_who w, Makedirs (posixpath.join (root_dir Host.dirs)
                                                   ["dev"; "pts"]));
                (w_who w, Mount (Some "devpts")
                                (posixpath.join (root_dir Host.dirs) ["dev"; "pts"])
                                (Some "devpts") 0 (Some EmptyString))] ++ post.
Proof.
  intros w. split; [vm_compute; reflexivity |].
  refine (proj1 (init_system_dir_mounts_devpts (root_dir Host.dirs) w
                   Host.initialized_world _)).
  apply (run_eta (ContainerExecuter._init_system_dir (root_dir Host.dirs)) w
                 (Ok tt)).
  vm_compute. reflexivity.
Defined.


(** On the host, the root switch of the child of the launch: afterwards the
    working directory is the root, and [bin/echo] of the image is at
    [/bin/echo]. *)
Lemma change_root_dir_switches_witness :
  let w := Host.initialized_world in
  let w' := Host.after (ContainerExecuter._change_root_dir (root_dir Host.dirs)) w in
  ps_cwd (w_proc w') = []
  ∧ Kernel.path_exists "/old_root" (w_proc w') = false
  ∧ ps_view (w_proc w') !! ["bin"; "echo"] = Some (File true).
Proof.
  intros w w'.
  assert (Hrun : ContainerExecuter._change_root_dir (root_dir Host.dirs) w
                 = (Ok tt, w')).
  { apply (run_eta (ContainerExecuter._change_root_dir (root_dir Host.dirs)) w
                   (Ok tt)).
    vm_compute. reflexivity. }
  destruct (change_root_dir_switches (root_dir Host.dirs) w w' Hrun)
    as (_ & _ & Hcwd & Hgone & _ & Hview).
  split_and!; [exact Hcwd | exact Hgone |].
  rewrite (Hview ["bin"; "echo"]) by discriminate.
  vm_compute. reflexivity.
Defined.

(** ** The paths, written out *)

Section literal_paths.

Import posixpath ContainerExecuter.

Lemma endswith_sep_app (a b : string) :
  b ≠ EmptyString → endswith_sep (a +:+ b) = endswith_sep b.
Proof.
  intros Hb. induction a as [|x a IH]; [done |].
  rewrite append_cons, <- IH.
  destruct (a +:+ b) eqn:E; [|reflexivity].
  destruct a, b; first [done | discriminate E].
Qed.

Lemma join2_relative (a b : string) :
  a ≠ EmptyString → endswith_sep a = false → startswith_sep b = false →
  join2 a b = a +:+ "/" +:+ b.
Proof.
  intros Ha He Hb. unfold join2.
  by rewrite Hb, He, bool_decide_false.
Qed.

(** The contents directory of an image whose library does not begin with a
    separator and whose tag does not end with one is
    [/var/opt/app/images/{library}_{image}_{tag}/layers/contents]. *)
Lemma image_contents_literal (img : Image) :
  startswith_sep (library img) = false → endswith_sep (tag img) = false →
  image_contents img
  = "/var/opt/app/images/" +:+ library img +:+ "_" +:+ image img +:+ "_"
      +:+ tag img +:+ "/layers/contents".
Proof.
  intros Hlib Htag. unfold image_contents, join. cbn [foldl].
  set (x := library img +:+ "_" +:+ image img +:+ "_" +:+ tag img).
  assert (Hx : startswith_sep x = false).
  { subst x. by destruct (library img). }
  assert (Hne : x ≠ EmptyString).
  { subst x. destruct (library img); [|done]. by rewrite append_nil. }
  assert (Hend : endswith_sep x = false).
  { subst x. rewrite endswith_sep_app by done.
    rewrite endswith_sep_app by (by destruct (image img)).
    rewrite endswith_sep_app by done.
    destruct (tag img) as [|c t] eqn:Et; [reflexivity |].
    rewrite (endswith_sep_app "_") by done. exact Htag. }
  rewrite (join2_relative IMAGE_DATA_DIR x) by done.
  rewrite join2_relative; [| by destruct x | | done].
  - subst x. unfold IMAGE_DATA_DIR. rewrite !append_assoc. reflexivity.
  - rewrite endswith_sep_app by (by rewrite append_cons).
    rewrite (endswith_sep_app (String "/" EmptyString)) by done. exact Hend.
Qed.

(** The directories of a container whose id is not empty and neither begins
    nor ends with a separator are
    [/var/opt/app/container/{id}/rootfs], [.../cow_rw] and [.../cow_workdir]. *)
Lemma container_dir_literal (container_id name : string) :
  container_id ≠ EmptyString →
  startswith_sep container_id = false → endswith_sep container_id = false →
  plain name = true →
  join CONTAINER_DATA_DIR [container_id; name]
  = "/var/opt/app/container/" +:+ container_id +:+ "/" +:+ name.
Proof.
  intros Hne Hs He Hp. unfold join. cbn [foldl].
  rewrite (join2_relative CONTAINER_DATA_DIR container_id) by done.
  rewrite join2_relative.
  - unfold CONTAINER_DATA_DIR. rewrite !append_assoc. reflexivity.
  - done.
  - rewrite endswith_sep_app by (by rewrite append_cons).
    rewrite (endswith_sep_app (String "/" EmptyString)) by done. exact He.
  - by apply plain_not_absolute.
Qed.

End literal_paths.

(** A component that begins with a separator takes the place of what was
    joined before it. *)
Example image_contents_absolute_library :
  image_contents (mkImage "/x" "b" "c") = "/x_b_c/layers/contents".
Proof. reflexivity. Qed.

Example container_dir_absolute_id :
  posixpath.join ContainerExecuter.CONTAINER_DATA_DIR ["/x"; "rootfs"]
  = "/x/rootfs".
Proof. reflexivity. Qed.

Example join_absolute :
  posixpath.join "/var/opt/app/images" ["/x_b_c"] = "/x_b_c".
Proof. reflexivity. Qed.

Example join_three :
  posixpath.join "/c/rootfs" ["dev"; "pts"] = "/c/rootfs/dev/pts".
Proof. reflexivity. Qed.

Example locate_abs :
  locate ["tmp"] "/var//opt/./app/../x" = ["var"; "opt"; "x"].
Proof. reflexivity. Qed.

Example repr_plain : py.repr_str "/a/b" = "'/a/b'".
Proof. reflexivity. Qed.

(** The launch of [echo hello] on the host, as the launcher's caller sees
    it: what is printed, and how the child ended. *)
Example launch_on_host :
  let w' := Host.after (RunCommand.execute Host.params) (Host.world_of Host.disk 0) in
  printed (w_trace w')
  = ["Created a new root fs for our container: ContainerDir(root_dir='/var/opt/app/container/c1/rootfs', rw_dir='/var/opt/app/container/c1/cow_rw', work_dir='/var/opt/app/container/c1/cow_workdir')";
     "4242 exited with status 0"]
  ∧ c_end <$> (w_children w').*2 = [Execed "/bin/echo" ["echo"; "hello"]].
Proof. vm_compute. split; reflexivity. Qed.

(** [os.makedirs] is not idempotent: right after it has succeeded, the same
    call fails with [EEXIST]. *)
Lemma makedirs_not_idempotent (name : string) (w w1 : world) :
  os.makedirs name w = (Ok tt, w1) →
  os.makedirs name w1 = (Raise (OSError EEXIST), logged (Makedirs name) w1).
Proof.
  unfold os.makedirs. intros (ps & Hmk & ->)%syscall_Ok.
  rewrite syscall_run. cbn [w_proc set_proc logged set_trace] in *.
  by rewrite (makedirs_exists_fails _ _ (makedirs_exists _ _ _ Hmk)).
Qed.

(** What the private remount is for: on the host, whose root mount is shared,
    a child that skips the remount is refused the pivot. *)
Example pivot_refused_on_shared_root :
  let w := Host.after
             (ContainerExecuter._create_container_root_dir "c1";;
              ContainerExecuter._mount_image_dir Host.busybox Host.dirs;;
              ContainerExecuter._init_system_dir (root_dir Host.dirs))
             (child_start (Host.world_of Host.disk 0)) in
  (ContainerExecuter._change_root_dir (root_dir Host.dirs) w).1
  = Raise (LinuxError EINVAL).
Proof. vm_compute. reflexivity. Qed.

(** * Further properties of the launcher *)

(** ** What a piece of the launcher keeps, emits and never does *)

Section keeping.

Context {A B : Type}.
Implicit Types (P : procstate → Prop) (Q : call → Prop).

Lemma keeps_ret P (a : A) : keeps P (mret a : M A).
Proof. by intros w. Qed.

Lemma keeps_raise P (e : exn) : keeps P (raise e : M A).
Proof. by intros w. Qed.

Lemma keeps_bind P (m : M A) (k : A → M B) :
  keeps P m → (∀ a, keeps P (k a)) → keeps P (m ≫= k).
Proof.
  intros Hm Hk w HP. rewrite bind_run. specialize (Hm w HP).
  destruct (m w) as [[a|e|f a] w1]; [|done..]. by apply Hk.
Qed.

Lemma keeps_if P (b : bool) (m1 m2 : M A) :
  keeps P m1 → keeps P m2 → keeps P (if b then m1 else m2).
Proof. by destruct b. Qed.

Lemma emits_ret Q (a : A) : emits Q (mret a : M A).
Proof. intros w. split_and!; [done..|]. exists []. by rewrite app_nil_r. Qed.

Lemma emits_raise Q (e : exn) : emits Q (raise e : M A).
Proof. intros w. split_and!; [done..|]. exists []. by rewrite app_nil_r. Qed.

Lemma emits_bind Q (m : M A) (k : A → M B) :
  emits Q m → (∀ a, emits Q (k a)) → emits Q (m ≫= k).
Proof.
  intros Hm Hk w. rewrite bind_run.
  destruct (Hm w) as (Hw & He & cs & Ht & Hcs).
  destruct (m w) as [[a|e|f a] w1]; [|by eauto 10..].
  destruct (Hk a w1) as (Hw' & He' & cs' & Ht' & Hcs'). cbn [fst snd] in *.
  split_and!; [congruence.. |]. exists (cs ++ cs').
  rewrite Ht', Ht, Hw, fmap_app, app_assoc. split; [done |].
  by apply Forall_app.
Qed.

Lemma emits_if Q (b : bool) (m1 m2 : M A) :
  emits Q m1 → emits Q m2 → emits Q (if b then m1 else m2).
Proof. by destruct b. Qed.

Lemma never_replaces_ret (a : A) : never_replaces (mret a : M A).
Proof. by intros w f x. Qed.

Lemma never_replaces_raise (e : exn) : never_replaces (raise e : M A).
Proof. by intros w f x. Qed.

Lemma never_replaces_bind (m : M A) (k : A → M B) :
  never_replaces m → (∀ a, never_replaces (k a)) → never_replaces (m ≫= k).
Proof.
  intros Hm Hk w f x. rewrite bind_run. specialize (Hm w).
  destruct (m w) as [[a|e|f' a] w1]; [by apply Hk | done |].
  by destruct (Hm f' a).
Qed.

Lemma never_replaces_if (b : bool) (m1 m2 : M A) :
  never_replaces m1 → never_replaces m2 → never_replaces (if b then m1 else m2).
Proof. by destruct b. Qed.

Lemma raises_os_errors_ret (a : A) : raises_os_errors (mret a : M A).
Proof. by intros w e. Qed.

Lemma raises_os_errors_bind (m : M A) (k : A → M B) :
  raises_os_errors m → (∀ a, raises_os_errors (k a)) →
  raises_os_errors (m ≫= k).
Proof.
  intros Hm Hk w e. rewrite bind_run. specialize (Hm w).
  destruct (m w) as [[a|e'|f' a] w1]; [by apply Hk | | done].
  intros [= <-]. by apply Hm.
Qed.

Lemma raises_os_errors_if (b : bool) (m1 m2 : M A) :
  raises_os_errors m1 → raises_os_errors m2 →
  raises_os_errors (if b then m1 else m2).
Proof. by destruct b. Qed.

(** A run that ends in [IndexError], taken apart at a step that raises
    only errors of system calls. *)
Lemma bind_IndexError (m : M A) (k : A → M B) (w w' : world) :
  raises_os_errors m →
  (m ≫= k) w = (Raise IndexError, w') →
  ∃ a w1, m w = (Ok a, w1) ∧ k a w1 = (Raise IndexError, w').
Proof.
  intros Hm. rewrite bind_run. specialize (Hm w).
  destruct (m w) as [[a|e|f' a] w1]; [by eauto | | done].
  intros [= -> _]. by destruct (Hm IndexError).
Qed.

(** A run that ends in the replacement of the process image, taken apart
    at a step that never replaces it. *)
Lemma bind_Replaced (m : M A) (k : A → M B) (w w' : world)
    (f : string) (x : list string) :
  never_replaces m →
  (m ≫= k) w = (Replaced f x, w') →
  ∃ a w1, m w = (Ok a, w1) ∧ k a w1 = (Replaced f x, w').
Proof.
  intros Hm. rewrite bind_run. specialize (Hm w).
  destruct (m w) as [[a|e|f' a] w1]; [by eauto | done |].
  by destruct (Hm f' a).
Qed.

End keeping.

Section keeping_calls.

Implicit Types (P : procstate → Prop) (Q : call → Prop).

Lemma keeps_log P (c : call) : keeps P (log c).
Proof. by intros w. Qed.

Lemma keeps_path_exists P (p : string) : keeps P (os.path_exists p).
Proof. by intros w. Qed.

Lemma keeps_syscall P (c : call) (wrap : errno → exn)
    (f : world → result procstate) :
  (∀ w ps, f w = Done ps → P (w_proc w) → P ps) →
  keeps P (syscall c wrap f).
Proof.
  intros Hf w HP. rewrite syscall_run.
  destruct (f (logged c w)) as [ps|e] eqn:E; [|done].
  by apply (Hf (logged c w)).
Qed.

Lemma keeps_execvp P (file : string) (args : list string) :
  keeps P (os.execvp file args).
Proof.
  intros w HP. unfold os.execvp, act. rewrite bind_run. cbn [log]. cbv beta.
  by repeat case_match.
Qed.

Lemma keeps_for {X} P (xs : list X) (body : X → M unit) :
  (∀ x, keeps P (body x)) → keeps P (for_ xs body).
Proof.
  intros Hb. induction xs as [|x xs IH]; cbn [for_];
    [apply keeps_ret | by apply keeps_bind].
Qed.

Lemma emits_log Q (c : call) : Q c → emits Q (log c).
Proof.
  intros Hc w. split_and!; [done..|]. exists [c].
  by split; [|repeat constructor].
Qed.

Lemma emits_path_exists Q (p : string) :
  Q (PathExists p) → emits Q (os.path_exists p).
Proof.
  intros Hc w. split_and!; [done..|]. exists [PathExists p].
  by split; [|repeat constructor].
Qed.

Lemma emits_execvp Q (file : string) (args : list string) :
  Q (Execvp file args) → emits Q (os.execvp file args).
Proof.
  intros Hc w. unfold os.execvp, act. rewrite bind_run. cbn [log]. cbv beta.
  repeat case_match; (split_and!; [done..|]); exists [Execvp file args];
    by split; [|repeat constructor].
Qed.

Lemma emits_syscall Q (c : call) (wrap : errno → exn)
    (f : world → result procstate) :
  Q c → emits Q (syscall c wrap f).
Proof.
  intros Hc w. rewrite syscall_run.
  destruct (f (logged c w)); (split_and!; [done..|]); exists [c];
    by split; [|repeat constructor].
Qed.

Lemma emits_for {X} Q (xs : list X) (body : X → M unit) :
  (∀ x, emits Q (body x)) → emits Q (for_ xs body).
Proof.
  intros Hb. induction xs as [|x xs IH]; cbn [for_];
    [apply emits_ret | by apply emits_bind].
Qed.

Lemma raises_os_errors_log (c : call) : raises_os_errors (log c).
Proof. by intros w e. Qed.

Lemma raises_os_errors_path_exists (p : string) :
  raises_os_errors (os.path_exists p).
Proof. by intros w e. Qed.

Lemma raises_os_errors_syscall (c : call) (wrap : errno → exn)
    (f : world → result procstate) :
  (∀ n, wrap n ≠ IndexError) → raises_os_errors (syscall c wrap f).
Proof.
  intros Hw w e. rewrite syscall_run.
  destruct (f (logged c w)); [done |]. intros [= <-]. apply Hw.
Qed.

Lemma raises_os_errors_for {X} (xs : list X) (body : X → M unit) :
  (∀ x, raises_os_errors (body x)) → raises_os_errors (for_ xs body).
Proof.
  intros Hb. induction xs as [|x xs IH]; cbn [for_];
    [apply raises_os_errors_ret | by apply raises_os_errors_bind].
Qed.

Lemma never_replaces_log (c : call) : never_replaces (log c).
Proof. by intros w f x. Qed.

Lemma never_replaces_path_exists (p : string) : never_replaces (os.path_exists p).
Proof. by intros w f x. Qed.

Lemma never_replaces_syscall (c : call) (wrap : errno → exn)
    (f : world → result procstate) :
  never_replaces (syscall c wrap f).
Proof. intros w g x. rewrite syscall_run. by destruct (f (logged c w)). Qed.

Lemma never_replaces_for {X} (xs : list X) (body : X → M unit) :
  (∀ x, never_replaces (body x)) → never_replaces (for_ xs body).
Proof.
  intros Hb. induction xs as [|x xs IH]; cbn [for_];
    [apply never_replaces_ret | by apply never_replaces_bind].
Qed.

End keeping_calls.

Create HintDb launcher.

#[local] Hint Resolve keeps_ret keeps_raise keeps_log keeps_path_exists
  keeps_execvp emits_ret emits_raise never_replaces_ret never_replaces_raise
  never_replaces_log never_replaces_path_exists never_replaces_syscall
  raises_os_errors_ret raises_os_errors_log raises_os_errors_path_exists
  : launcher.

(** Take a piece of the launcher apart down to its calls: none of them
    replaces the process image or raises [IndexError]. *)
Ltac launcher_tac :=
  unfold os.makedirs, os.symlink, os.mknod, os.chdir, os.rmdir,
    linux.sethostname, linux.mount, linux.pivot_root, linux.umount2, print;
  cbv zeta;
  repeat first
    [ progress auto with launcher
    | apply raises_os_errors_syscall; done
    | apply never_replaces_for; intros ?
    | apply raises_os_errors_for; intros ?
    | apply never_replaces_if
    | apply raises_os_errors_if
    | apply never_replaces_bind; [|intros ?]
    | apply raises_os_errors_bind; [|intros ?]
    | match goal with |- never_replaces (let '(_, _) := ?x in _) => destruct x end
    | match goal with |- raises_os_errors (let '(_, _) := ?x in _) => destruct x end ].

Section launcher_never_replaces.

Import ContainerExecuter.

Lemma never_replaces_create_container_root_dir (container_id : string) :
  never_replaces (_create_container_root_dir container_id).
Proof. unfold _create_container_root_dir. launcher_tac. Qed.

Lemma never_replaces_mount_image_dir (img : Image) (cd : ContainerDir) :
  never_replaces (_mount_image_dir img cd).
Proof. unfold _mount_image_dir. launcher_tac. Qed.

Lemma never_replaces_init_devices (dev_path : string) :
  never_replaces (_init_devices dev_path).
Proof. unfold _init_devices. launcher_tac. Qed.

Lemma never_replaces_init_system_dir (container_root_dir : string) :
  never_replaces (_init_system_dir container_root_dir).
Proof.
  unfold _init_system_dir. pose proof never_replaces_init_devices.
  launcher_tac.
Qed.

Lemma never_replaces_change_root_dir (container_root_dir : string) :
  never_replaces (_change_root_dir container_root_dir).
Proof. unfold _change_root_dir. launcher_tac. Qed.

Lemma raises_os_errors_create_container_root_dir (container_id : string) :
  raises_os_errors (_create_container_root_dir container_id).
Proof. unfold _create_container_root_dir. launcher_tac. Qed.

Lemma raises_os_errors_mount_image_dir (img : Image) (cd : ContainerDir) :
  raises_os_errors (_mount_image_dir img cd).
Proof. unfold _mount_image_dir. launcher_tac. Qed.

Lemma raises_os_errors_init_devices (dev_path : string) :
  raises_os_errors (_init_devices dev_path).
Proof. unfold _init_devices. launcher_tac. Qed.

Lemma raises_os_errors_init_system_dir (container_root_dir : string) :
  raises_os_errors (_init_system_dir container_root_dir).
Proof.
  unfold _init_system_dir. pose proof raises_os_errors_init_devices.
  launcher_tac.
Qed.

Lemma raises_os_errors_change_root_dir (container_root_dir : string) :
  raises_os_errors (_change_root_dir container_root_dir).
Proof. unfold _change_root_dir. launcher_tac. Qed.

End launcher_never_replaces.

(** ** The kernel calls: host name and propagation of the mounts *)

Section kernel_keeps.

Import Kernel.
Implicit Types (ps : procstate) (ms : list mounted) (m : mounted).

Lemma find_mount_elem p ms m : find_mount p ms = Some m → m ∈ ms.
Proof.
  unfold find_mount. intros [H _]%find_some. by apply list_elem_of_In.
Qed.

Lemma longest_elem ms m : longest ms = Some m → m ∈ ms.
Proof.
  revert m. induction ms as [|a ms IH]; intros m; simpl; [done |].
  destruct (longest ms) as [b|]; [|intros [= <-]; by left].
  case_match; intros [= <-]; [by left | right; by apply IH].
Qed.

Lemma mount_of_elem p ms m : mount_of p ms = Some m → m ∈ ms.
Proof.
  unfold mount_of. intros H%longest_elem.
  by apply list_elem_of_filter in H as [_ H].
Qed.

Lemma Forall_newer_than (Q : mounted → Prop) p ms :
  Forall Q ms → Forall Q (newer_than p ms).
Proof.
  induction 1 as [|m ms Hm Hms IH]; simpl; [done |].
  case_bool_decide; by constructor.
Qed.

Lemma Forall_older_than (Q : mounted → Prop) p ms :
  Forall Q ms → Forall Q (older_than p ms).
Proof.
  induction 1 as [|m ms Hm Hms IH]; simpl; [done |].
  by case_bool_decide.
Qed.

Lemma Forall_update_first (Q : mounted → Prop) p (f : mounted → mounted) ms :
  (∀ m, Q m → Q (f m)) → Forall Q ms → Forall Q (update_first p f ms).
Proof.
  intros Hf. induction 1 as [|m ms Hm Hms IH]; simpl; [done |].
  case_bool_decide; constructor; by auto.
Qed.

Lemma all_private_new_mount t ty flags data tree ps :
  all_private ps → all_private (new_mount t ty flags data tree ps).
Proof.
  unfold all_private, new_mount. cbn [ps_mounts set_mounts set_view].
  intros H. constructor; [|done]. cbn [m_shared].
  destruct (mount_of t (ps_mounts ps)) as [pm|] eqn:E; [|done].
  apply mount_of_elem in E. by apply (proj1 (Forall_forall _ _) H).
Qed.

(** A mount that attaches a file system keeps the mounts private. *)
Lemma mount_all_private source target fstype flags data fstypes ps ps' :
  mount source target fstype flags data fstypes ps = Done ps' →
  has_flag flags propagation_flags = false →
  all_private ps → all_private ps'.
Proof.
  unfold mount. intros H Hf Hp. rewrite Hf in H.
  repeat (case_match; try done); simplify_eq/=;
    try (by apply all_private_new_mount).
  destruct (overlay_tree ps (default EmptyString data)) as [tree|e]; [|done].
  simpl in H. injection H as <-. by apply all_private_new_mount.
Qed.

(** The recursive private remount of the root leaves no mount shared. *)
Lemma remount_all_private ps ps' fstypes :
  mount None "/" None (Z.lor MS_PRIVATE MS_REC) None fstypes ps = Done ps' →
  all_private ps'.
Proof.
  unfold mount, resolve. rewrite bool_decide_false by done.
  change (locate (ps_cwd ps) "/") with (@nil string).
  cbn [lookup_node]. destruct (negb (ps_privileged ps)); [done |].
  change (has_flag (Z.lor MS_PRIVATE MS_REC) propagation_flags) with true.
  cbv iota.
  change (has_flag (Z.lor MS_PRIVATE MS_REC) MS_SHARED) with false.
  change (has_flag (Z.lor MS_PRIVATE MS_REC) MS_REC) with true.
  destruct (_ && _); [|done]. intros [= <-].
  unfold all_private, set_propagation. cbn [ps_mounts set_mounts].
  apply Forall_forall. intros m (m0 & -> & _)%list_elem_of_fmap.
  by rewrite orb_true_r.
Qed.

Lemma pivot_root_all_private new_root put_old ps ps' :
  pivot_root new_root put_old ps = Done ps' → all_private ps → all_private ps'.
Proof.
  unfold pivot_root, all_private. intros H Hp.
  repeat (case_match; try done); simplify_eq/=.
  all: apply Forall_app; split;
    [ apply Forall_fmap; eapply Forall_impl;
      [ apply Forall_update_first;
        [|apply Forall_app; split;
           [by apply Forall_newer_than | by apply Forall_older_than]];
        by intros ?
      | intros x Hx; unfold repoint; simpl; by case_match ]
    | constructor; [|done]; simpl;
      match goal with H : find_mount _ _ = Some ?m |- _ =>
        apply find_mount_elem in H;
        apply (proj1 (Forall_forall _ _) Hp _ H) end ].
Qed.

Lemma umount2_all_private target flags ps ps' :
  umount2 target flags ps = Done ps' → all_private ps → all_private ps'.
Proof.
  unfold umount2, all_private. intros H Hp.
  repeat (case_match; try done); simplify_eq/=.
  all: apply Forall_app; split;
    [ apply Forall_forall; intros x [_ Hx]%list_elem_of_filter;
      revert x Hx; apply Forall_forall; by apply Forall_newer_than
    | by apply Forall_older_than ].
Qed.

(** The calls that change the file tree or the working directory leave the
    mount table and the host name alone. *)
Lemma makedirs_frame s ps ps' :
  makedirs s ps = Done ps' →
  ps_mounts ps' = ps_mounts ps ∧ ps_hostname ps' = ps_hostname ps
  ∧ ps_cwd ps' = ps_cwd ps.
Proof. by intros (? & ? & _ & _ & _ & ->)%makedirs_Done. Qed.

Lemma create_frame s n ps ps' :
  create s n ps = Done ps' →
  ps_mounts ps' = ps_mounts ps ∧ ps_hostname ps' = ps_hostname ps
  ∧ ps_cwd ps' = ps_cwd ps.
Proof. by intros (_ & _ & ->)%create_Done. Qed.

Lemma mknod_frame s mode dev ps ps' :
  mknod s mode dev ps = Done ps' →
  ps_mounts ps' = ps_mounts ps ∧ ps_hostname ps' = ps_hostname ps
  ∧ ps_cwd ps' = ps_cwd ps.
Proof. by intros (_ & _ & ->)%mknod_Done. Qed.

Lemma chdir_frame s ps ps' :
  chdir s ps = Done ps' →
  ps_mounts ps' = ps_mounts ps ∧ ps_hostname ps' = ps_hostname ps.
Proof. by intros ->%chdir_Done. Qed.

Lemma rmdir_frame s ps ps' :
  rmdir s ps = Done ps' →
  ps_mounts ps' = ps_mounts ps ∧ ps_hostname ps' = ps_hostname ps
  ∧ ps_cwd ps' = ps_cwd ps.
Proof. by intros (_ & _ & ->)%rmdir_Done. Qed.

Lemma mount_hostname source target fstype flags data fstypes ps ps' :
  mount source target fstype flags data fstypes ps = Done ps' →
  ps_hostname ps' = ps_hostname ps ∧ ps_cwd ps' = ps_cwd ps.
Proof.
  unfold mount. intros H.
  repeat (case_match; try done); simplify_eq/=; try done.
  destruct (overlay_tree ps (default EmptyString data)) as [tree|e]; [|done].
  simpl in H. by injection H as <-.
Qed.

Lemma pivot_root_hostname new_root put_old ps ps' :
  pivot_root new_root put_old ps = Done ps' → ps_hostname ps' = ps_hostname ps.
Proof.
  unfold pivot_root. intros H. by repeat (case_match; try done); simplify_eq/=.
Qed.

Lemma umount2_hostname target flags ps ps' :
  umount2 target flags ps = Done ps' → ps_hostname ps' = ps_hostname ps.
Proof.
  unfold umount2. intros H. by repeat (case_match; try done); simplify_eq/=.
Qed.

End kernel_keeps.

(** ** The pieces of the launcher: mounts, host name and calls *)

Section launcher_keeps.

Import ContainerExecuter.

Lemma all_private_namespace_only : namespace_only all_private.
Proof. intros ps ps' Hm _. unfold all_private. by rewrite Hm. Qed.

Lemma hostname_namespace_only (h : string) :
  namespace_only (λ ps, ps_hostname ps = h).
Proof. intros ps ps' _ Hh. by rewrite Hh. Qed.

Lemma keeps_makedirs P (s : string) : namespace_only P → keeps P (os.makedirs s).
Proof.
  intros HP. apply keeps_syscall. intros w ps (Hm & Hh & _)%makedirs_frame.
  by apply HP.
Qed.

Lemma keeps_symlink P (src dst : string) :
  namespace_only P → keeps P (os.symlink src dst).
Proof.
  intros HP. apply keeps_syscall. intros w ps (Hm & Hh & _)%create_frame.
  by apply HP.
Qed.

Lemma keeps_mknod P (s : string) (mode dev : Z) :
  namespace_only P → keeps P (os.mknod s mode dev).
Proof.
  intros HP. apply keeps_syscall. intros w ps (Hm & Hh & _)%mknod_frame.
  by apply HP.
Qed.

Lemma keeps_chdir P (s : string) : namespace_only P → keeps P (os.chdir s).
Proof.
  intros HP. apply keeps_syscall. intros w ps (Hm & Hh)%chdir_frame.
  by apply HP.
Qed.

Lemma keeps_rmdir P (s : string) : namespace_only P → keeps P (os.rmdir s).
Proof.
  intros HP. apply keeps_syscall. intros w ps (Hm & Hh & _)%rmdir_frame.
  by apply HP.
Qed.

Lemma keeps_private_mount source target fstype flags data :
  has_flag flags Kernel.propagation_flags = false →
  keeps all_private (linux.mount source target fstype flags data).
Proof.
  intros Hf. apply keeps_syscall. intros w ps H.
  by apply (mount_all_private _ _ _ _ _ _ _ _ H).
Qed.

Lemma keeps_hostname_mount (h : string) source target fstype flags data :
  keeps (λ ps, ps_hostname ps = h) (linux.mount source target fstype flags data).
Proof.
  apply keeps_syscall. intros w ps [Hh _]%mount_hostname. by rewrite Hh.
Qed.

Lemma keeps_private_pivot_root (new_root put_old : string) :
  keeps all_private (linux.pivot_root new_root put_old).
Proof.
  apply keeps_syscall. intros w ps H. by apply (pivot_root_all_private _ _ _ _ H).
Qed.

Lemma keeps_hostname_pivot_root (h : string) (new_root put_old : string) :
  keeps (λ ps, ps_hostname ps = h) (linux.pivot_root new_root put_old).
Proof.
  apply keeps_syscall. intros w ps Hh%pivot_root_hostname. by rewrite Hh.
Qed.

Lemma keeps_private_umount2 (target : string) (flags : Z) :
  keeps all_private (linux.umount2 target flags).
Proof.
  apply keeps_syscall. intros w ps H. by apply (umount2_all_private _ _ _ _ H).
Qed.

Lemma keeps_hostname_umount2 (h : string) (target : string) (flags : Z) :
  keeps (λ ps, ps_hostname ps = h) (linux.umount2 target flags).
Proof.
  apply keeps_syscall. intros w ps Hh%umount2_hostname. by rewrite Hh.
Qed.

Ltac keeps_tac :=
  cbv zeta;
  repeat first
    [ progress auto with launcher
    | apply keeps_makedirs; first [apply all_private_namespace_only
                                  | apply hostname_namespace_only]
    | apply keeps_symlink; first [apply all_private_namespace_only
                                 | apply hostname_namespace_only]
    | apply keeps_mknod; first [apply all_private_namespace_only
                               | apply hostname_namespace_only]
    | apply keeps_chdir; first [apply all_private_namespace_only
                               | apply hostname_namespace_only]
    | apply keeps_rmdir; first [apply all_private_namespace_only
                               | apply hostname_namespace_only]
    | apply keeps_private_mount; reflexivity
    | apply keeps_hostname_mount
    | apply keeps_private_pivot_root
    | apply keeps_hostname_pivot_root
    | apply keeps_private_umount2
    | apply keeps_hostname_umount2
    | apply keeps_for; intros ?
    | apply keeps_if
    | apply keeps_bind; [|intros ?]
    | match goal with |- keeps _ (let '(_, _) := ?x in _) => destruct x end ].

Lemma keeps_create_container_root_dir (h container_id : string) :
  keeps all_private (_create_container_root_dir container_id)
  ∧ keeps (λ ps, ps_hostname ps = h) (_create_container_root_dir container_id).
Proof. split; unfold _create_container_root_dir; keeps_tac. Qed.

Lemma keeps_mount_image_dir (h : string) (img : Image) (cd : ContainerDir) :
  keeps all_private (_mount_image_dir img cd)
  ∧ keeps (λ ps, ps_hostname ps = h) (_mount_image_dir img cd).
Proof. split; unfold _mount_image_dir; keeps_tac. Qed.

Lemma keeps_init_devices (h dev_path : string) :
  keeps all_private (_init_devices dev_path)
  ∧ keeps (λ ps, ps_hostname ps = h) (_init_devices dev_path).
Proof. split; unfold _init_devices; keeps_tac. Qed.

Lemma keeps_init_system_dir (h container_root_dir : string) :
  keeps all_private (_init_system_dir container_root_dir)
  ∧ keeps (λ ps, ps_hostname ps = h) (_init_system_dir container_root_dir).
Proof.
  split; unfold _init_system_dir;
    pose proof (keeps_init_devices h) as Hd; keeps_tac; apply Hd.
Qed.

Lemma keeps_change_root_dir (h container_root_dir : string) :
  keeps all_private (_change_root_dir container_root_dir)
  ∧ keeps (λ ps, ps_hostname ps = h) (_change_root_dir container_root_dir).
Proof. split; unfold _change_root_dir; keeps_tac. Qed.

(** The directory manager and the device initializer touch neither the
    mount table nor the host name. *)
Lemma keeps_ensure P (ds : list string) :
  namespace_only P →
  keeps P (for_ ds (λ d, e ← os.path_exists d;
                         if negb e then os.makedirs d else mret tt)).
Proof.
  intros HP. apply keeps_for. intros d.
  apply keeps_bind; [apply keeps_path_exists |]. intros e.
  apply keeps_if; [by apply keeps_makedirs | apply keeps_ret].
Qed.

Lemma keeps_namespace_init_devices P (dev_path : string) :
  namespace_only P → keeps P (_init_devices dev_path).
Proof.
  intros HP. unfold _init_devices.
  apply keeps_bind; [apply keeps_for; intros [i dev]; by apply keeps_symlink |].
  intros ?. apply keeps_bind; [by apply keeps_symlink |].
  intros ?. cbv zeta. apply keeps_for. intros [device [[dev_type major] minor]].
  by apply keeps_mknod.
Qed.

Lemma change_root_dir_cwd (container_root_dir : string) (w w' : world) :
  _change_root_dir container_root_dir w = (Ok tt, w') →
  ps_cwd (w_proc w') = [].
Proof.
  unfold _change_root_dir, os.makedirs, linux.pivot_root, os.chdir,
    linux.umount2, os.rmdir.
  intros ([] & w1 & _ & H)%bind_Ok.
  apply bind_Ok in H as ([] & w2 & _ & H).
  apply bind_Ok in H as ([] & w3 & (ps3 & H3 & ->)%syscall_Ok & H).
  apply bind_Ok in H as ([] & w4 & (ps4 & H4 & ->)%syscall_Ok & H).
  apply syscall_Ok in H as (ps5 & H5 & ->).
  cbn [w_proc set_proc logged set_trace] in *.
  apply chdir_Done in H3 as ->.
  apply umount2_Done in H4 as (_ & _ & _ & Hcwd4).
  apply rmdir_Done in H5 as (_ & _ & ->).
  cbn [ps_cwd Kernel.set_view Kernel.set_cwd] in *. by rewrite Hcwd4.
Qed.

End launcher_keeps.

(** ** The calls of the pieces of the launcher *)

Section launcher_emits.

Import ContainerExecuter.

Context (Q : call → Prop) (HQ : ∀ c, is_execvp c = false → Q c).

Ltac emits_tac :=
  unfold os.makedirs, os.symlink, os.mknod, os.chdir, os.rmdir,
    linux.sethostname, linux.mount, linux.pivot_root, linux.umount2, print;
  cbv zeta;
  repeat first
    [ progress auto with launcher
    | apply emits_log; by apply HQ
    | apply emits_path_exists; by apply HQ
    | apply emits_syscall; by apply HQ
    | apply emits_for; intros ?
    | apply emits_if
    | apply emits_bind; [|intros ?]
    | match goal with |- emits _ (let '(_, _) := ?x in _) => destruct x end ].

Lemma emits_create_container_root_dir (container_id : string) :
  emits Q (_create_container_root_dir container_id).
Proof. unfold _create_container_root_dir. emits_tac. Qed.

Lemma emits_mount_image_dir (img : Image) (cd : ContainerDir) :
  emits Q (_mount_image_dir img cd).
Proof. unfold _mount_image_dir. emits_tac. Qed.

Lemma emits_init_devices (dev_path : string) : emits Q (_init_devices dev_path).
Proof. unfold _init_devices. emits_tac. Qed.

Lemma emits_init_system_dir (container_root_dir : string) :
  emits Q (_init_system_dir container_root_dir).
Proof.
  unfold _init_system_dir. pose proof emits_init_devices as Hd. emits_tac.
Qed.

Lemma emits_change_root_dir (container_root_dir : string) :
  emits Q (_change_root_dir container_root_dir).
Proof. unfold _change_root_dir. emits_tac. Qed.

(** The calls of [execute] up to the root switch. *)
Lemma emits_setup (p : ContainerInitParams) :
  emits Q (linux.sethostname (container_id p);;
           linux.mount None "/" None (Z.lor MS_PRIVATE MS_REC) None;;
           container_dir ← _create_container_root_dir (container_id p);
           print ("Created a new root fs for our container: "
                    +:+ py.repr_ContainerDir container_dir);;
           _mount_image_dir (params_image p) container_dir;;
           _init_system_dir (root_dir container_dir);;
           _change_root_dir (root_dir container_dir)).
Proof.
  pose proof emits_create_container_root_dir.
  pose proof emits_mount_image_dir.
  pose proof emits_init_system_dir.
  pose proof emits_change_root_dir.
  emits_tac.
Qed.

End launcher_emits.

(** ** The launch as a whole *)

Section execute_as_a_whole.

Import ContainerExecuter.

Lemma sethostname_Ok (name : string) (w w1 : world) :
  linux.sethostname name w = (Ok tt, w1) →
  ps_hostname (w_proc w1) = name ∧ w_who w1 = w_who w
  ∧ w_path_env w1 = w_path_env w.
Proof.
  unfold linux.sethostname. intros (ps & H & ->)%syscall_Ok.
  revert H. unfold Kernel.sethostname. cbn [w_proc logged set_trace].
  repeat case_match; try done. by intros [= <-].
Qed.

Lemma remount_Ok (w w1 : world) :
  linux.mount None "/" None (Z.lor MS_PRIVATE MS_REC) None w = (Ok tt, w1) →
  all_private (w_proc w1)
  ∧ ps_hostname (w_proc w1) = ps_hostname (w_proc w).
Proof.
  unfold linux.mount. intros (ps & H & ->)%syscall_Ok.
  cbn [w_proc w_fstypes logged set_trace set_proc] in *. split.
  - by apply remount_all_private in H.
  - by apply mount_hostname in H as [-> _].
Qed.

(** X1: [ContainerExecuter.execute] never returns to its caller: whatever
    the parameters and the state of the system, it ends in an exception or
    in the replacement of the process image by [os.execvp]. *)
Theorem execute_never_returns (p : ContainerInitParams) (w : world) :
  (execute p w).1 ≠ Ok tt.
Proof.
  destruct (execute p w) as [r w'] eqn:E. cbn [fst]. intros ->. revert E.
  unfold execute.
  intros ([] & ? & _ & H)%bind_Ok.
  apply bind_Ok in H as ([] & ? & _ & H).
  apply bind_Ok in H as (? & ? & _ & H).
  apply bind_Ok in H as ([] & ? & _ & H).
  apply bind_Ok in H as ([] & ? & _ & H).
  apply bind_Ok in H as ([] & ? & _ & H).
  apply bind_Ok in H as ([] & w7 & _ & H).
  destruct (command p) as [|c0 cs]; [done |].
  revert H. unfold os.execvp, act. rewrite bind_run. cbn [log]. cbv beta.
  by repeat case_match.
Qed.

(** X2: with an empty command list [execute] ends in an exception and
    never calls [os.execvp].  [command[0]] is evaluated last, after the
    whole setup: when the exception is the [IndexError], the root has been
    switched (the working directory is the new root and the last call is
    the removal of [/old_root]). *)
Theorem execute_empty_command (p : ContainerInitParams) (w : world) :
  command p = [] →
  (∃ e, (execute p w).1 = Raise e)
  ∧ Forall (λ ev, is_execvp ev.2 = false)
           (calls_since (w_trace w) (Host.after (execute p) w))
  ∧ ∀ w', execute p w = (Raise IndexError, w') →
          ps_cwd (w_proc w') = []
          ∧ ∃ who, last (w_trace w') = Some (who, Rmdir "/old_root").
Proof.
  intros Hcmd.
  assert (He : emits (λ c, is_execvp c = false) (execute p)).
  { unfold execute. rewrite Hcmd.
    apply (emits_bind _ (linux.sethostname (container_id p))).
    - unfold linux.sethostname. by apply emits_syscall.
    - intros ?. apply emits_bind; [unfold linux.mount; by apply emits_syscall |].
      intros ?. apply emits_bind; [by apply emits_create_container_root_dir |].
      intros ?. apply emits_bind; [by apply emits_log |].
      intros ?. apply emits_bind; [by apply emits_mount_image_dir |].
      intros ?. apply emits_bind; [by apply emits_init_system_dir |].
      intros ?. apply emits_bind; [by apply emits_change_root_dir |].
      intros ?. apply emits_raise. }
  split_and!.
  - destruct (execute p w) as [[[]|e|f a] w'] eqn:E; cbn [fst]; [| by eauto |].
    + revert E. unfold execute. rewrite Hcmd.
      intros ([] & ? & _ & H)%bind_Ok.
      apply bind_Ok in H as ([] & ? & _ & H).
      apply bind_Ok in H as (? & ? & _ & H).
      apply bind_Ok in H as ([] & ? & _ & H).
      apply bind_Ok in H as ([] & ? & _ & H).
      apply bind_Ok in H as ([] & ? & _ & H).
      by apply bind_Ok in H as ([] & w7 & _ & H).
    + revert E. unfold execute. rewrite Hcmd.
      intros ([] & ? & _ & H)%bind_Replaced;
        [|unfold linux.sethostname; apply never_replaces_syscall].
      apply bind_Replaced in H as ([] & ? & _ & H);
        [|unfold linux.mount; apply never_replaces_syscall].
      apply bind_Replaced in H as (? & ? & _ & H);
        [|apply never_replaces_create_container_root_dir].
      apply bind_Replaced in H as ([] & ? & _ & H);
        [|apply never_replaces_log].
      apply bind_Replaced in H as ([] & ? & _ & H);
        [|apply never_replaces_mount_image_dir].
      apply bind_Replaced in H as ([] & ? & _ & H);
        [|apply never_replaces_init_system_dir].
      by apply bind_Replaced in H as ([] & ? & _ & H);
        [|apply never_replaces_change_root_dir].
  - destruct (He w) as (_ & _ & cs & Ht & Hcs). unfold Host.after.
    rewrite (calls_since_app _ _ _ Ht). apply Forall_fmap.
    by eapply Forall_impl; [exact Hcs |].
  - intros w'. unfold execute. rewrite Hcmd.
    intros ([] & ? & _ & H)%bind_IndexError;
      [|unfold linux.sethostname; by apply raises_os_errors_syscall].
    apply bind_IndexError in H as ([] & ? & _ & H);
      [|unfold linux.mount; by apply raises_os_errors_syscall].
    apply bind_IndexError in H as (? & ? & _ & H);
      [|apply raises_os_errors_create_container_root_dir].
    apply bind_IndexError in H as ([] & ? & _ & H);
      [|apply raises_os_errors_log].
    apply bind_IndexError in H as ([] & ? & _ & H);
      [|apply raises_os_errors_mount_image_dir].
    apply bind_IndexError in H as ([] & w6 & _ & H);
      [|apply raises_os_errors_init_system_dir].
    apply bind_IndexError in H as ([] & w7 & H7 & H);
      [|apply raises_os_errors_change_root_dir].
    injection H as <-. split; [by apply change_root_dir_cwd in H7 |].
    revert H7. unfold _change_root_dir.
    intros ([] & ? & _ & H)%bind_Ok.
    apply bind_Ok in H as ([] & ? & _ & H).
    apply bind_Ok in H as ([] & ? & _ & H).
    apply bind_Ok in H as ([] & w4 & _ & H).
    unfold os.rmdir in H. apply syscall_Ok in H as (ps & _ & ->).
    exists (w_who w4). cbn [w_trace set_proc logged set_trace].
    by rewrite last_snoc.
Qed.

(** X3: when [execute] ends in the replacement of the process image, the
    program is the first existing executable among the candidates for
    [command[0]] and gets the whole command as its arguments; the [execvp]
    is the last call; by then the host name is the container id, the
    working directory is the root, and no mount of the process is shared. *)
Theorem execute_exec (p : ContainerInitParams) (w w' : world)
    (f : string) (a : list string) :
  execute p w = (Replaced f a, w') →
  a = command p
  ∧ (∃ c0 rest, command p = c0 :: rest
                ∧ f ∈ os.candidates c0 (w_path_env w)
                ∧ last (w_trace w') = Some (w_who w, Execvp c0 (command p)))
  ∧ Kernel.executable f (w_proc w') = Done tt
  ∧ ps_hostname (w_proc w') = container_id p
  ∧ ps_cwd (w_proc w') = []
  ∧ all_private (w_proc w').
Proof.
  unfold execute.
  intros ([] & w1 & H1 & H)%bind_Replaced;
    [|unfold linux.sethostname; apply never_replaces_syscall].
  apply bind_Replaced in H as ([] & w2 & H2 & H);
    [|unfold linux.mount; apply never_replaces_syscall].
  apply bind_Replaced in H as (d & w3 & H3 & H);
    [|apply never_replaces_create_container_root_dir].
  apply bind_Replaced in H as ([] & w4 & H4 & H);
    [|apply never_replaces_log].
  apply bind_Replaced in H as ([] & w5 & H5 & H);
    [|apply never_replaces_mount_image_dir].
  apply bind_Replaced in H as ([] & w6 & H6 & H);
    [|apply never_replaces_init_system_dir].
  apply bind_Replaced in H as ([] & w7 & H7 & H);
    [|apply never_replaces_change_root_dir].
  set (h := container_id p) in *.
  (* the host name and the mounts, piece by piece *)
  apply sethostname_Ok in H1 as (Hh1 & Hwho1 & Henv1).
  pose proof (emits_ret (λ _, True) tt) as _.
  assert (Hw2 : w_who w2 = w_who w1 ∧ w_path_env w2 = w_path_env w1).
  { pose proof (emits_syscall (λ _, True)
                  (Mount None "/" None (Z.lor MS_PRIVATE MS_REC) None)
                  LinuxError
                  (λ w, Kernel.mount None "/" None (Z.lor MS_PRIVATE MS_REC) None
                                     (w_fstypes w) (w_proc w)) I w1)
      as (Hw & He & _).
    unfold linux.mount in H2. rewrite H2 in Hw, He. done. }
  apply remount_Ok in H2 as (Hp2 & Hh2).
  destruct (keeps_create_container_root_dir h h) as [Kp3 Kh3].
  specialize (Kp3 w2 Hp2). specialize (Kh3 w2 (eq_trans Hh2 Hh1)).
  pose proof (emits_create_container_root_dir (λ _, True) (λ _ _, I) h w2)
    as (Hw3 & He3 & _).
  rewrite H3 in Kp3, Kh3, Hw3, He3. cbn [snd] in *.
  injection H4 as <-.
  destruct (keeps_mount_image_dir h (params_image p) d) as [Kp5 Kh5].
  specialize (Kp5 (logged (Print ("Created a new root fs for our container: "
                                    +:+ py.repr_ContainerDir d)) w3) Kp3).
  specialize (Kh5 (logged (Print ("Created a new root fs for our container: "
                                    +:+ py.repr_ContainerDir d)) w3) Kh3).
  pose proof (emits_mount_image_dir (λ _, True) (λ _ _, I) (params_image p) d
                (logged (Print ("Created a new root fs for our container: "
                                  +:+ py.repr_ContainerDir d)) w3))
    as (Hw5 & He5 & _).
  change (set_trace _ w3) with
    (logged (Print ("Created a new root fs for our container: "
                      +:+ py.repr_ContainerDir d)) w3) in H5.
  rewrite H5 in Kp5, Kh5, Hw5, He5. cbn [snd] in *.
  destruct (keeps_init_system_dir h (root_dir d)) as [Kp6 Kh6].
  specialize (Kp6 w5 Kp5). specialize (Kh6 w5 Kh5).
  pose proof (emits_init_system_dir (λ _, True) (λ _ _, I) (root_dir d) w5)
    as (Hw6 & He6 & _).
  rewrite H6 in Kp6, Kh6, Hw6, He6. cbn [snd] in *.
  destruct (keeps_change_root_dir h (root_dir d)) as [Kp7 Kh7].
  specialize (Kp7 w6 Kp6). specialize (Kh7 w6 Kh6).
  pose proof (emits_change_root_dir (λ _, True) (λ _ _, I) (root_dir d) w6)
    as (Hw7 & He7 & _).
  rewrite H7 in Kp7, Kh7, Hw7, He7. cbn [snd] in *.
  apply change_root_dir_cwd in H7.
  assert (Hwho : w_who w7 = w_who w).
  { destruct Hw2 as [Hw2 _]. cbn [w_who logged set_trace] in Hw5. congruence. }
  assert (Henv : w_path_env w7 = w_path_env w).
  { destruct Hw2 as [_ He2]. cbn [w_path_env logged set_trace] in He5.
    congruence. }
  (* the [execvp] *)
  destruct (command p) as [|c0 rest] eqn:Hcmd; [done |].
  revert H. unfold os.execvp, act. rewrite bind_run. cbn [log]. cbv beta.
  cbn [w_proc w_path_env set_trace].
  destruct (find _ _) as [[c r]|] eqn:Hfind; [|by repeat case_match].
  intros [= <- <- <-].
  apply find_some in Hfind as [Hin Hc]. cbn [snd] in Hc.
  apply bool_decide_eq_true in Hc. subst r.
  apply list_elem_of_In, list_elem_of_fmap in Hin as (c' & [= <- Hex] & Hin).
  cbn [w_proc w_trace set_trace].
  split_and!; try done.
  exists c0, rest. split_and!; [done | by rewrite <- Henv |].
  by rewrite last_snoc, Hwho.
Qed.

(** X4: once the child has got past the private remount, which is its
    second call, no mount of its namespace is shared, at whatever point and
    however [execute] ends. *)
Theorem execute_mounts_private (p : ContainerInitParams) (w : world) :
  (2 < length (calls_since (w_trace w) (Host.after (execute p) w)))%nat →
  all_private (w_proc (Host.after (execute p) w)).
Proof.
  unfold Host.after, execute. rewrite bind_run. unfold linux.sethostname.
  rewrite syscall_run.
  destruct (Kernel.sethostname _ _) as [ps1|e1].
  2:{ cbn [snd]. rewrite (calls_since_app _ [(w_who w, Sethostname (container_id p))]);
        [simpl; lia | done]. }
  rewrite bind_run. unfold linux.mount. rewrite syscall_run.
  destruct (Kernel.mount _ _ _ _ _ _ _) as [ps2|e2] eqn:E2.
  2:{ cbn [snd]. rewrite (calls_since_app _
                            [(w_who w, Sethostname (container_id p));
                             (w_who w, private_remount)]);
        [simpl; lia |].
      cbn [w_trace logged set_trace set_proc w_who]. by rewrite <- app_assoc. }
  intros _. apply remount_all_private in E2.
  match goal with |- context [set_proc ps2 ?x] => set (w2 := set_proc ps2 x) end.
  assert (Hp2 : all_private (w_proc w2)) by exact E2. clearbody w2.
  revert w2 Hp2.
  change (keeps all_private
            (container_dir ← _create_container_root_dir (container_id p);
             print ("Created a new root fs for our container: "
                      +:+ py.repr_ContainerDir container_dir);;
             _mount_image_dir (params_image p) container_dir;;
             _init_system_dir (root_dir container_dir);;
             _change_root_dir (root_dir container_dir);;
             match command p with
             | [] => raise IndexError
             | c0 :: _ => os.execvp c0 (command p)
             end)).
  apply keeps_bind; [apply (keeps_create_container_root_dir EmptyString) |].
  intros d. apply keeps_bind; [apply keeps_log |].
  intros ?. apply keeps_bind; [apply (keeps_mount_image_dir EmptyString) |].
  intros ?. apply keeps_bind; [apply (keeps_init_system_dir EmptyString) |].
  intros ?. apply keeps_bind; [apply (keeps_change_root_dir EmptyString) |].
  intros ?. destruct (command p); [apply keeps_raise | apply keeps_execvp].
Qed.

End execute_as_a_whole.

Section launcher_as_a_whole.

(** X5: [RunCommand.execute] raises only when the clone is refused, that
    is for a caller without the administrator capability, and then the
    clone is its only call: it waits for nothing and prints nothing.
    However the container fails, on a caller that may clone the launcher
    returns normally. *)
Theorem RunCommand_execute_raises_only_on_clone
    (p : ContainerInitParams) (w : world) :
  RunCommand.execute p w
  = if ps_privileged (w_proc w)
    then (Ok tt, Host.after (RunCommand.execute p) w)
    else (Raise (LinuxError EPERM), logged (Clone RunCommand.flags) w).
Proof.
  destruct (ps_privileged (w_proc w)) eqn:Hpriv.
  - apply run_eta. by apply RunCommand_execute_run.
  - unfold RunCommand.execute, linux.clone, act. rewrite !bind_run.
    cbn [log w_proc set_trace]. by rewrite Hpriv.
Qed.


End launcher_as_a_whole.

(** ** The pieces of the launcher, one by one *)

Section pieces.

Import Kernel ContainerExecuter.

Lemma only_adds_dirs_refl (v : gmap path node) : only_adds_dirs v v.
Proof. intros k. by left. Qed.

Lemma only_adds_dirs_trans (v1 v2 v3 : gmap path node) :
  only_adds_dirs v1 v2 → only_adds_dirs v2 v3 → only_adds_dirs v1 v3.
Proof.
  intros H12 H23 k. destruct (H12 k) as [E12|[E1 E2]], (H23 k) as [E23|[E2' E3]].
  - left. congruence.
  - right. split; congruence.
  - right. split; congruence.
  - congruence.
Qed.

Lemma makedirs_only_adds_dirs (s : string) (ps ps' : procstate) :
  makedirs s ps = Done ps' → only_adds_dirs (ps_view ps) (ps_view ps').
Proof.
  intros (p & v' & _ & _ & Hmk & ->)%makedirs_Done k. cbn [ps_view set_view].
  rewrite (mkdirs_lookup _ _ _ _ k Hmk).
  destruct (ps_view ps !! k); [by left |]. case_bool_decide; [by right | by left].
Qed.

Lemma ensure_only_adds_dirs (ds : list string) (w w' : world) :
  for_ ds (λ d, e ← os.path_exists d; if negb e then os.makedirs d else mret tt) w
    = (Ok tt, w') →
  only_adds_dirs (ps_view (w_proc w)) (ps_view (w_proc w')).
Proof.
  revert w. induction ds as [|d ds IH]; intros w; cbn [for_].
  - intros [= <-]. apply only_adds_dirs_refl.
  - intros ([] & w1 & H1 & H%IH)%bind_Ok.
    refine (only_adds_dirs_trans _ _ _ _ H). revert H1. rewrite ensure_run.
    destruct (path_exists d (w_proc w));
      [intros [= <-]; apply only_adds_dirs_refl |].
    unfold os.makedirs. intros (ps & Hmk & ->)%syscall_Ok.
    by apply makedirs_only_adds_dirs in Hmk.
Qed.

(** X7: a directory manager that succeeds returns the three directories of
    the container, and afterwards all three exist.  It only adds
    directories: every entry of the file tree that was there is there
    unchanged, and every new entry is a directory.  The mount table, the
    host name and the working directory are as before, and its calls are
    existence tests and [makedirs] calls only. *)
Theorem create_container_root_dir_creates
    (container_id : string) (w w' : world) (d : ContainerDir) :
  _create_container_root_dir container_id w = (Ok d, w') →
  let base := posixpath.join CONTAINER_DATA_DIR [container_id] in
  d = mkContainerDir (posixpath.join base ["rootfs"])
                     (posixpath.join base ["cow_rw"])
                     (posixpath.join base ["cow_workdir"])
  ∧ path_exists (root_dir d) (w_proc w') = true
  ∧ path_exists (rw_dir d) (w_proc w') = true
  ∧ path_exists (work_dir d) (w_proc w') = true
  ∧ only_adds_dirs (ps_view (w_proc w)) (ps_view (w_proc w'))
  ∧ ps_mounts (w_proc w') = ps_mounts (w_proc w)
  ∧ ps_hostname (w_proc w') = ps_hostname (w_proc w)
  ∧ ps_cwd (w_proc w') = ps_cwd (w_proc w)
  ∧ Forall (λ ev, match ev.2 with
                  | PathExists _ | Makedirs _ => True
                  | _ => False
                  end)
           (calls_since (w_trace w) w').
Proof.
  unfold _create_container_root_dir. cbv zeta.
  intros ([] & w1 & H & [= <- <-])%bind_Ok.
  pose proof (for_ensure_Ok _ _ _ H) as [Hex _].
  pose proof (for_ensure_frame _ _ _ H) as (Hcwd & _ & _).
  pose proof (ensure_only_adds_dirs _ _ _ H) as Hadd.
  assert (Hm : ps_mounts (w_proc w1) = ps_mounts (w_proc w)
               ∧ ps_hostname (w_proc w1) = ps_hostname (w_proc w)).
  { pose proof (keeps_ensure
                  (λ ps, ps_mounts ps = ps_mounts (w_proc w)
                         ∧ ps_hostname ps = ps_hostname (w_proc w))
                  [posixpath.join (_get_container_data_base_path container_id
                                     CONTAINER_DATA_DIR) ["rootfs"];
                   posixpath.join (_get_container_data_base_path container_id
                                     CONTAINER_DATA_DIR) ["cow_rw"];
                   posixpath.join (_get_container_data_base_path container_id
                                     CONTAINER_DATA_DIR) ["cow_workdir"]]) as K.
    specialize (K ltac:(intros ps ps' -> ->; done) w (conj eq_refl eq_refl)).
    by rewrite H in K. }
  destruct Hm as [Hm Hh].
  split_and!; try done.
  - apply Hex. by left.
  - apply Hex. right. by left.
  - apply Hex. do 2 right. by left.
  - assert (He : emits (λ c, match c with
                             | PathExists _ | Makedirs _ => True
                             | _ => False
                             end)
                   (for_ [posixpath.join (_get_container_data_base_path
                                            container_id CONTAINER_DATA_DIR)
                                         ["rootfs"];
                          posixpath.join (_get_container_data_base_path
                                            container_id CONTAINER_DATA_DIR)
                                         ["cow_rw"];
                          posixpath.join (_get_container_data_base_path
                                            container_id CONTAINER_DATA_DIR)
                                         ["cow_workdir"]]
                         (λ d, e ← os.path_exists d;
                               if negb e then os.makedirs d else mret tt))).
    { apply emits_for. intros x.
      apply emits_bind; [by apply emits_path_exists |]. intros e.
      apply emits_if; [by apply emits_syscall | apply emits_ret]. }
    destruct (He w) as (_ & _ & cs & Ht & Hcs). rewrite H in Ht. cbn [snd] in Ht.
    rewrite (calls_since_app _ _ _ Ht). apply Forall_fmap.
    by eapply Forall_impl; [exact Hcs |].
Qed.

Lemma lookup_node_snoc (v : gmap path node) (d : path) (x : string) :
  lookup_node v (d ++ [x]) = v !! (d ++ [x]).
Proof. by destruct d. Qed.

Lemma init_devices_cwd (dev_path : string) (c : path) :
  keeps (λ ps, ps_cwd ps = c) (_init_devices dev_path).
Proof.
  unfold _init_devices, os.symlink, os.mknod.
  apply keeps_bind.
  { apply keeps_for. intros [i dev]. apply keeps_syscall.
    by intros ? ? (_ & _ & ->)%create_frame. }
  intros ?. apply keeps_bind.
  { apply keeps_syscall. by intros ? ? (_ & _ & ->)%create_frame. }
  intros ?. cbv zeta. apply keeps_for. intros [device [[dev_type major] minor]].
  apply keeps_syscall. by intros ? ? (_ & _ & ->)%mknod_frame.
Qed.

(** X8: the device initializer cannot be run twice on the same directory:
    right after a run that succeeded, a second run fails at its first call,
    the [symlink] for [stdin], with [EEXIST] ([FileExistsError]), and
    changes nothing. *)
Theorem init_devices_not_rerunnable (dev_path : string) (w w1 : world) :
  _init_devices dev_path w = (Ok tt, w1) →
  dev_path ≠ EmptyString →
  _init_devices dev_path w1
  = (Raise (OSError EEXIST),
     logged (Symlink_ "/proc/self/fd/0" (posixpath.join dev_path ["stdin"])) w1).
Proof.
  intros H Hne.
  pose proof (init_devices_Ok _ _ _ H Hne) as (_ & _ & Hview).
  assert (Hcwd : ps_cwd (w_proc w1) = ps_cwd (w_proc w)).
  { pose proof (init_devices_cwd dev_path (ps_cwd (w_proc w)) w eq_refl) as K.
    by rewrite H in K. }
  (* the directory was there for the first run, and is still there *)
  set (d := locate (ps_cwd (w_proc w)) dev_path) in *.
  assert (Hdir : lookup_node (ps_view (w_proc w)) d = Some Dir).
  { revert H. unfold _init_devices, os.symlink.
    change (py.enumerate ["stdin"; "stdout"; "stderr"])
      with [(0, "stdin"); (1, "stdout"); (2, "stderr")].
    cbn [for_].
    intros ([] & ? & ([] & ? & (ps & Hc & ->)%syscall_Ok & _)%bind_Ok
            & _)%bind_Ok.
    revert Hc. unfold symlink, create, resolve.
    cbn [w_proc logged set_trace].
    change (posixpath.join dev_path ["stdin"])
      with (posixpath.join2 dev_path "stdin").
    case_bool_decide; [done |].
    rewrite (locate_join2 _ dev_path "stdin") by done. fold d.
    rewrite removelast_last.
    by destruct (lookup_node (ps_view (w_proc w)) d) as [[| | |]|]. }
  assert (Hdir1 : lookup_node (ps_view (w_proc w1)) d = Some Dir).
  { destruct d as [|c d'] eqn:Ed; [done |]. cbn [lookup_node] in *.
    rewrite Hview, <- Ed.
    rewrite !lookup_insert_ne; [by rewrite Ed | ..];
      intros Heq; apply (f_equal length) in Heq;
      rewrite length_app in Heq; simpl in Heq; lia. }
  unfold _init_devices, os.symlink.
  change (py.enumerate ["stdin"; "stdout"; "stderr"])
    with [(0, "stdin"); (1, "stdout"); (2, "stderr")].
  cbn [for_]. rewrite !bind_run, syscall_run.
  cbn [w_proc logged set_trace].
  unfold symlink, create, resolve.
  change (posixpath.join dev_path ["stdin"])
    with (posixpath.join2 dev_path "stdin").
  rewrite bool_decide_false by (by apply join2_not_empty).
  rewrite Hcwd, (locate_join2 _ dev_path "stdin") by done. fold d.
  rewrite removelast_last, Hdir1.
  assert (Hl : lookup_node (ps_view (w_proc w1)) (d ++ ["stdin"])
               = Some (Symlink "/proc/self/fd/0")).
  { rewrite lookup_node_snoc, Hview, !lookup_insert_under.
    by repeat (case_decide; simplify_eq/=). }
  by rewrite Hl.
Qed.


(** X10: the root switch does not clean up after a refused [pivot_root]:
    the directory [old_root] it has just created stays behind, so that a
    second attempt on the same root fails at once, at [os.makedirs], with
    [EEXIST]. *)
Theorem change_root_dir_refused_then_exists
    (container_root_dir : string) (w w' : world) (e : exn) (who : process) :
  let old_root := posixpath.join container_root_dir ["old_root"] in
  _change_root_dir container_root_dir w = (Raise e, w') →
  last (w_trace w') = Some (who, PivotRoot container_root_dir old_root) →
  path_exists old_root (w_proc w') = true
  ∧ _change_root_dir container_root_dir w'
    = (Raise (OSError EEXIST), logged (Makedirs old_root) w').
Proof.
  intros old_root H Hlast.
  assert (Hex : path_exists old_root (w_proc w') = true).
  { revert H Hlast. unfold _change_root_dir, os.makedirs, linux.pivot_root,
      os.chdir, linux.umount2, os.rmdir.
    rewrite bind_run, syscall_run. fold old_root.
    destruct (makedirs old_root _) as [ps1|e1] eqn:H1.
    2:{ intros [= _ <-]. cbn [w_trace logged set_trace].
        by rewrite last_snoc. }
    rewrite bind_run, syscall_run.
    destruct (pivot_root _ _ _) as [ps2|e2] eqn:H2.
    2:{ intros [= _ <-] _. cbn [w_proc logged set_trace set_proc] in *.
        by apply makedirs_exists in H1. }
    rewrite bind_run, syscall_run.
    destruct (chdir _ _) as [ps3|e3].
    2:{ intros [= _ <-]. cbn [w_trace logged set_trace set_proc].
        by rewrite last_snoc. }
    rewrite bind_run, syscall_run.
    destruct (umount2 _ _ _) as [ps4|e4].
    2:{ intros [= _ <-]. cbn [w_trace logged set_trace set_proc].
        by rewrite last_snoc. }
    rewrite syscall_run.
    destruct (rmdir _ _) as [ps5|e5]; [done |].
    intros [= _ <-]. cbn [w_trace logged set_trace set_proc].
    by rewrite last_snoc. }
  split; [done |].
  unfold _change_root_dir, os.makedirs. rewrite bind_run, syscall_run.
  fold old_root. cbn [w_proc logged set_trace].
  by rewrite (makedirs_exists_fails _ _ Hex).
Qed.

End pieces.

(** ** The mounts of the device initializer *)

Section system_mounts.

Import Kernel ContainerExecuter.

Lemma mount_entry_new_mount t ty flags data tree ps :
  mount_entry <$> ps_mounts (new_mount t ty flags data tree ps)
  = (t, ty, flags, data) :: (mount_entry <$> ps_mounts ps).
Proof. reflexivity. Qed.

(** X11: a system directory initializer that succeeds adds exactly four
    mounts to the mount table and changes none of those that were there.
    Newest first, they are [devpts] on [dev/pts], a [tmpfs] on [dev] with the flags
    [MS_NOSUID | MS_STRICTATIME] and the data [mode=755], [sysfs] on [sys]
    and [proc] on [proc], all below the root directory of the container;
    the working directory and the host name stay as they were. *)
Theorem init_system_dir_mount_table (container_root_dir : string) (w w' : world) :
  _init_system_dir container_root_dir w = (Ok tt, w') →
  let at_ (name : string) :=
    locate (ps_cwd (w_proc w)) (posixpath.join container_root_dir [name]) in
  mount_entry <$> ps_mounts (w_proc w')
  = [(at_ "dev" ++ ["pts"], "devpts", 0, EmptyString);
     (at_ "dev", "tmpfs", Z.lor MS_NOSUID MS_STRICTATIME, "mode=755");
     (at_ "sys", "sysfs", 0, EmptyString);
     (at_ "proc", "proc", 0, EmptyString)]
    ++ (mount_entry <$> ps_mounts (w_proc w))
  ∧ ps_cwd (w_proc w') = ps_cwd (w_proc w)
  ∧ ps_hostname (w_proc w') = ps_hostname (w_proc w).
Proof.
  intros H at_.
  pose proof (init_system_dir_Ok _ _ _ H) as (_ & (m & ms & Hhead & _ & Hty) & _).
  pose proof (proj2 (keeps_init_system_dir (ps_hostname (w_proc w))
                       container_root_dir) w eq_refl) as Hh.
  rewrite H in Hh. cbn [snd] in Hh.
  revert H. unfold _init_system_dir, linux.mount.
  intros ([] & w1 & H1 & H)%bind_Ok.
  pose proof (for_ensure_frame _ _ _ H1) as (Hcwd1 & _ & _).
  assert (Hm1 : ps_mounts (w_proc w1) = ps_mounts (w_proc w)).
  { pose proof (keeps_ensure (λ ps, ps_mounts ps = ps_mounts (w_proc w))
                  [posixpath.join container_root_dir ["proc"];
                   posixpath.join container_root_dir ["sys"];
                   posixpath.join container_root_dir ["dev"]]
                  ltac:(by intros ps ps' -> _) w eq_refl) as K.
    by rewrite H1 in K. }
  apply bind_Ok in H as ([] & w2 & (ps2 & H2 & ->)%syscall_Ok & H).
  apply bind_Ok in H as ([] & w3 & (ps3 & H3 & ->)%syscall_Ok & H).
  apply bind_Ok in H as ([] & w4 & (ps4 & H4 & ->)%syscall_Ok & H).
  cbn [w_proc w_fstypes set_proc logged set_trace] in H2, H3, H4.
  apply mount_fresh_Done in H2 as (_ & _ & ->); [|done..].
  apply mount_fresh_Done in H3 as (_ & _ & ->); [|done..].
  apply mount_fresh_Done in H4 as (_ & _ & ->); [|done..].
  cbn [ps_cwd new_mount set_mounts set_view] in H.
  apply bind_Ok in H as (e & w5 & He & H).
  rewrite path_exists_run in He. injection He as <- <-.
  set (ps4 := new_mount _ "tmpfs" _ _ _ _) in H.
  assert (Hms4 : mount_entry <$> ps_mounts ps4
                 = [(at_ "dev", "tmpfs", Z.lor MS_NOSUID MS_STRICTATIME, "mode=755");
                    (at_ "sys", "sysfs", 0, EmptyString);
                    (at_ "proc", "proc", 0, EmptyString)]
                   ++ (mount_entry <$> ps_mounts (w_proc w))).
  { subst ps4. rewrite !mount_entry_new_mount. cbn [ps_cwd set_mounts set_view].
    rewrite Hcwd1, Hm1. reflexivity. }
  assert (Hcwd4 : ps_cwd ps4 = ps_cwd (w_proc w)) by exact Hcwd1.
  clearbody ps4.
  destruct (path_exists _ _) eqn:Hex; cbn [negb] in H.
  - (* the device directory cannot be there: the head of the mount table
       would be the [tmpfs] *)
    apply bind_Ok in H as ([] & w6 & [= <-] & H).
    match type of H with
    | _init_devices ?dv ?wx = _ =>
        pose proof (keeps_namespace_init_devices
                      (λ ps, ps_mounts ps = ps_mounts (w_proc wx)) dv
                      ltac:(by intros ps ps' -> _) wx eq_refl) as K
    end.
    rewrite H in K. cbn [snd w_proc set_proc logged set_trace] in K.
    rewrite K in Hhead. apply (f_equal (fmap mount_entry)) in Hhead.
    rewrite Hms4, fmap_cons in Hhead. injection Hhead. intros. congruence.
  - apply bind_Ok in H as ([] & w6 & H6 & H).
    apply bind_Ok in H6 as ([] & w5 & (ps5 & H5 & ->)%syscall_Ok
                            & (ps6 & H6 & ->)%syscall_Ok).
    cbn [w_proc w_fstypes set_proc logged set_trace] in H5, H6.
    apply makedirs_frame in H5 as (Hms5 & _ & Hcwd5).
    apply mount_fresh_Done in H6 as (_ & _ & ->); [|done..].
    match type of H with
    | _init_devices ?dv ?wx = _ =>
        pose proof (keeps_namespace_init_devices
                      (λ ps, ps_mounts ps = ps_mounts (w_proc wx)) dv
                      ltac:(by intros ps ps' -> _) wx eq_refl) as K;
        pose proof (init_devices_cwd dv (ps_cwd (w_proc wx)) wx eq_refl) as Kc
    end.
    rewrite H in K, Kc. cbn [snd w_proc set_proc logged set_trace] in K, Kc.
    cbn [ps_cwd new_mount set_mounts set_view] in Kc.
    split_and!; [| by rewrite Kc, Hcwd5 | exact Hh].
    rewrite K, mount_entry_new_mount, Hms5, Hms4, Hcwd5, Hcwd4.
    change (posixpath.join container_root_dir ["dev"; "pts"])
      with (posixpath.join2 (posixpath.join container_root_dir ["dev"]) "pts").
    rewrite (locate_join2 _ (posixpath.join container_root_dir ["dev"]) "pts");
      [reflexivity | by apply join2_not_empty | done].
Qed.

End system_mounts.

(** ** The further properties on the host *)

(** The launch of a container with no command: the child ends in the
    [IndexError], having switched the root. *)
Lemma execute_empty_command_witness :
  let p := mkContainerInitParams Host.busybox [] "c1" in
  let w := child_start (Host.world_of Host.disk 0) in
  ((∃ e, (ContainerExecuter.execute p w).1 = Raise e)
   ∧ Forall (λ ev, is_execvp ev.2 = false)
            (calls_since (w_trace w) (Host.after (ContainerExecuter.execute p) w))
   ∧ ∀ w', ContainerExecuter.execute p w = (Raise IndexError, w') →
           ps_cwd (w_proc w') = []
           ∧ ∃ who, last (w_trace w') = Some (who, Rmdir "/old_root"))
  ∧ (ContainerExecuter.execute p w).1 = Raise IndexError.
Proof.
  intros p w. split; [exact (execute_empty_command p w eq_refl) |].
  vm_compute. reflexivity.
Defined.

(** The launch of [echo hello]: the child ends in [/bin/echo] of the image,
    under the host name [c1]. *)
Lemma execute_exec_witness :
  let p := Host.params in
  let w := child_start (Host.world_of Host.disk 0) in
  let w' := Host.after (ContainerExecuter.execute p) w in
  ["echo"; "hello"] = command p
  ∧ (∃ c0 rest, command p = c0 :: rest
                ∧ "/bin/echo" ∈ os.candidates c0 (w_path_env w)
                ∧ last (w_trace w') = Some (w_who w, Execvp c0 (command p)))
  ∧ Kernel.executable "/bin/echo" (w_proc w') = Done tt
  ∧ ps_hostname (w_proc w') = container_id p
  ∧ ps_cwd (w_proc w') = []
  ∧ all_private (w_proc w').
Proof.
  intros p w w'.
  apply (execute_exec p w w' "/bin/echo" ["echo"; "hello"]).
  apply (run_eta (ContainerExecuter.execute p) w
                 (Replaced "/bin/echo" ["echo"; "hello"])).
  vm_compute. reflexivity.
Defined.

(** The launch of an image that was never pulled: the child fails at the
    overlay mount, its seventh call, and by then none of its mounts is
    shared. *)
Lemma execute_mounts_private_witness :
  let p := mkContainerInitParams Host.alpine ["echo"; "hello"] "c1" in
  let w := child_start (Host.world_of Host.disk 0) in
  all_private (w_proc (Host.after (ContainerExecuter.execute p) w))
  ∧ (ContainerExecuter.execute p w).1 = Raise (LinuxError ENOENT).
Proof.
  intros p w. split; [|vm_compute; reflexivity].
  apply (execute_mounts_private p w). vm_compute. lia.
Defined.

(** The directories of the container [c1] on the host. *)
Lemma create_container_root_dir_creates_witness :
  let w := Host.world_of Host.disk 0 in
  let w' := Host.after (ContainerExecuter._create_container_root_dir "c1") w in
  Kernel.path_exists "/var/opt/app/container/c1/rootfs" (w_proc w') = true
  ∧ only_adds_dirs (ps_view (w_proc w)) (ps_view (w_proc w'))
  ∧ ps_mounts (w_proc w') = ps_mounts (w_proc w).
Proof.
  intros w w'.
  assert (Hrun : ContainerExecuter._create_container_root_dir "c1" w
                 = (Ok Host.dirs, w')).
  { apply (run_eta (ContainerExecuter._create_container_root_dir "c1") w
                   (Ok Host.dirs)).
    vm_compute. reflexivity. }
  destruct (create_container_root_dir_creates "c1" w w' Host.dirs Hrun)
    as (_ & H1 & _ & _ & H2 & H3 & _).
  split_and!; [exact H1 | exact H2 | exact H3].
Defined.

(** The device initializer, twice on [/home] of the host. *)
Lemma init_devices_not_rerunnable_witness :
  let w := Host.world_of Host.disk 0 in
  let w1 := Host.after (ContainerExecuter._init_devices "/home") w in
  ContainerExecuter._init_devices "/home" w1
  = (Raise (OSError EEXIST),
     logged (Symlink_ "/proc/self/fd/0" (posixpath.join "/home" ["stdin"])) w1).
Proof.
  intros w w1.
  apply (init_devices_not_rerunnable "/home" w w1); [|discriminate].
  apply (run_eta (ContainerExecuter._init_devices "/home") w (Ok tt)).
  vm_compute. reflexivity.
Defined.


(** The same child, trying the root switch a second time. *)
Lemma change_root_dir_refused_then_exists_witness :
  let w := Host.after
             (ContainerExecuter._create_container_root_dir "c1";;
              ContainerExecuter._mount_image_dir Host.busybox Host.dirs;;
              ContainerExecuter._init_system_dir (root_dir Host.dirs))
             (child_start (Host.world_of Host.disk 0)) in
  let w' := Host.after (ContainerExecuter._change_root_dir (root_dir Host.dirs)) w in
  let old_root := posixpath.join (root_dir Host.dirs) ["old_root"] in
  Kernel.path_exists old_root (w_proc w') = true
  ∧ ContainerExecuter._change_root_dir (root_dir Host.dirs) w'
    = (Raise (OSError EEXIST), logged (Makedirs old_root) w').
Proof.
  intros w w' old_root.
  apply (change_root_dir_refused_then_exists (root_dir Host.dirs) w w'
           (LinuxError EINVAL) (Child 4242)).
  - apply (run_eta (ContainerExecuter._change_root_dir (root_dir Host.dirs)) w
                   (Raise (LinuxError EINVAL))).
    vm_compute. reflexivity.
  - vm_compute. reflexivity.
Defined.

(** The mount table of the child of the launch on the host, after the
    device initializer. *)
Lemma init_system_dir_mount_table_witness :
  mount_entry <$> ps_mounts (w_proc Host.initialized_world)
  = [(["var"; "opt"; "app"; "container"; "c1"; "rootfs"; "dev"; "pts"],
      "devpts", 0, EmptyString);
     (["var"; "opt"; "app"; "container"; "c1"; "rootfs"; "dev"],
      "tmpfs", 16777218, "mode=755");
     (["var"; "opt"; "app"; "container"; "c1"; "rootfs"; "sys"],
      "sysfs", 0, EmptyString);
     (["var"; "opt"; "app"; "container"; "c1"; "rootfs"; "proc"],
      "proc", 0, EmptyString)]
    ++ (mount_entry <$> ps_mounts (w_proc Host.mounted_world)).
Proof.
  refine (proj1 (init_system_dir_mount_table (root_dir Host.dirs)
                   Host.mounted_world Host.initialized_world _)).
  apply (run_eta (ContainerExecuter._init_system_dir (root_dir Host.dirs))
                 Host.mounted_world (Ok tt)).
  vm_compute. reflexivity.
Defined.

(** ** The command line of [run.py] *)

Section matching.

Import re.

Lemma length_append (a b : string) :
  String.length (a +:+ b) = (String.length a + String.length b)%nat.
Proof. induction a as [|x a IH]; [done |]. rewrite append_cons. simpl. by rewrite IH. Qed.

Lemma substring_prefix (a b : string) :
  substring 0 (String.length a) (a +:+ b) = a.
Proof.
  induction a as [|x a IH].
  - rewrite append_nil. by destruct b.
  - rewrite append_cons. simpl. by rewrite IH.
Qed.

Lemma taken_app (a b : string) : taken (a +:+ b) b = a.
Proof.
  unfold taken. rewrite length_append.
  replace (String.length a + String.length b - String.length b)%nat
    with (String.length a) by lia.
  apply substring_prefix.
Qed.

Lemma append_nil_r (a : string) : a +:+ EmptyString = a.
Proof. induction a as [|x a IH]; [done |]. by rewrite append_cons, IH. Qed.

Lemma free_of_app (cs a b : string) :
  free_of cs (a +:+ b) = free_of cs a && free_of cs b.
Proof.
  induction a as [|x a IH]; [done |]. rewrite append_cons. simpl.
  by rewrite IH, andb_assoc.
Qed.

(** A greedy repetition takes the whole run of characters it accepts when
    what follows the run matches. *)
Lemma star_Some {A} (cs a rest : string) (k : string → option A) (r : A) :
  free_of cs a = true → stops_at cs rest = true → k rest = Some r →
  star (accepts (NotIn cs)) (a +:+ rest) k = Some r.
Proof.
  intros Ha Hrest Hk. induction a as [|x a IH].
  - rewrite append_nil. destruct rest as [|y rest]; [done |]. simpl in *.
    by rewrite Hrest.
  - rewrite append_cons. simpl in *. apply andb_prop in Ha as [-> Ha].
    by rewrite (IH Ha).
Qed.

(** It gives back everything and fails when what follows matches after no
    part of the run. *)
Lemma star_None {A} (cs a rest : string) (k : string → option A) :
  free_of cs a = true → stops_at cs rest = true →
  (∀ a2, free_of cs a2 = true → k (a2 +:+ rest) = None) →
  star (accepts (NotIn cs)) (a +:+ rest) k = None.
Proof.
  intros Ha Hrest Hk. induction a as [|x a IH].
  - rewrite append_nil. specialize (Hk EmptyString eq_refl).
    rewrite append_nil in Hk. destruct rest as [|y rest]; [done |]. simpl in *.
    by rewrite Hrest.
  - rewrite append_cons. simpl in *. pose proof Ha as Ha'.
    apply andb_prop in Ha as [-> Ha]. rewrite (IH Ha).
    apply (Hk (String x a)). exact Ha'.
Qed.

End matching.

(** ** The patterns of the image names

    The patterns of [run.py] and [pull.py] begin alike, with the library
    and the image; they differ in the characters that end a name, [cs], and
    in how the tag is written. *)

Section name_patterns.

Import re.

Context (cs : string).
Hypothesis slash_ends : py.contains "/" cs = true.
Hypothesis colon_ends : py.contains ":" cs = true.

Let final : string → gmap nat string → option (gmap nat string) :=
  λ _ g, Some g.

Let library_part : regex :=
  Opt (Group 1 (Cat (Group 2 (Star (NotIn cs))) (One (Chr "/")))).
Let image_part : regex := Group 3 (Plus (NotIn cs)).

(** The tag of [run.py]: [( : (?P<tag> ...) )?] *)
Let run_tag : regex :=
  Opt (Group 4 (Cat (One (Chr ":")) (Group 5 (Star (NotIn cs))))).

(** The tag of [pull.py]: [(:)? (?P<tag> ...)] *)
Let pull_tag : regex :=
  Cat (Opt (Group 4 (One (Chr ":")))) (Group 5 (Star (NotIn cs))).

Let lib_text (lib : option string) : string :=
  match lib with Some l => l +:+ "/" | None => EmptyString end.

Let tag_text (tg : option string) : string :=
  match tg with Some t => ":" +:+ t | None => EmptyString end.

Let lib_captures (lib : option string) : gmap nat string :=
  match lib with
  | Some l => <[1%nat := l +:+ "/"]> (<[2%nat := l]> ∅)
  | None => ∅
  end.

Let run_captures (tg : option string) (g : gmap nat string) : gmap nat string :=
  match tg with
  | Some t => <[4%nat := ":" +:+ t]> (<[5%nat := t]> g)
  | None => g
  end.

Let pull_captures (tg : option string) (g : gmap nat string) : gmap nat string :=
  match tg with
  | Some t => <[5%nat := t]> (<[4%nat := ":"]> g)
  | None => <[5%nat := EmptyString]> g
  end.

Lemma taken_self (s : string) : taken s s = EmptyString.
Proof. by rewrite <- (append_nil s) at 1; rewrite taken_app. Qed.

Lemma stops_at_tag_text (tg : option string) (rest : string) :
  stops_at cs rest = true → stops_at cs (tag_text tg +:+ rest) = true.
Proof.
  intros Hrest. destruct tg as [t|]; [|by rewrite append_nil].
  cbn [tag_text]. by rewrite !append_cons.
Qed.

Lemma exec_run_tag (tg : option string) (rest : string) (g : gmap nat string) :
  opt_free_of cs tg = true → stops_at cs rest = true →
  bool_decide (is_Some tg) || negb (first_is ":" rest) = true →
  exec run_tag (tag_text tg +:+ rest) g final = Some (run_captures tg g).
Proof.
  intros Ht Hrest Hcolon. destruct tg as [t|]; cbn [tag_text run_captures].
  - rewrite !append_cons, append_nil. unfold run_tag. cbn [exec accepts].
    rewrite bool_decide_true by done.
    rewrite (star_Some cs t rest _ (<[4%nat := String ":" t]> (<[5%nat := t]> g)));
      [done | exact Ht | exact Hrest |].
    rewrite taken_app.
    change (String ":" (t +:+ rest)) with (String ":" t +:+ rest).
    by rewrite taken_app.
  - rewrite append_nil. unfold run_tag. cbn [exec].
    destruct rest as [|y rest]; [done |]. cbn [accepts].
    cbn in Hcolon. apply negb_true_iff in Hcolon. by rewrite Hcolon.
Qed.

Lemma exec_pull_tag (tg : option string) (rest : string) (g : gmap nat string) :
  opt_free_of cs tg = true → stops_at cs rest = true →
  bool_decide (is_Some tg) || negb (first_is ":" rest) = true →
  exec pull_tag (tag_text tg +:+ rest) g final = Some (pull_captures tg g).
Proof.
  intros Ht Hrest Hcolon. destruct tg as [t|]; cbn [tag_text pull_captures].
  - rewrite !append_cons, append_nil. unfold pull_tag. cbn [exec accepts].
    rewrite bool_decide_true by done.
    rewrite (star_Some cs t rest _ (<[5%nat := t]> (<[4%nat := ":"]> g)));
      [done | exact Ht | exact Hrest |].
    rewrite taken_app.
    change (String ":" (t +:+ rest)) with (":" +:+ (t +:+ rest)).
    by rewrite taken_app.
  - rewrite append_nil. unfold pull_tag. cbn [exec].
    assert (Hstar : star (accepts (NotIn cs)) rest
                      (λ s', final s' (<[5%nat := taken rest s']> g))
                    = Some (<[5%nat := EmptyString]> g)).
    { rewrite <- (append_nil rest) at 1.
      apply star_Some; [done | exact Hrest |].
      unfold final. cbv beta. by rewrite taken_self. }
    destruct rest as [|y rest]; [exact Hstar |]. cbn [accepts].
    cbn in Hcolon. apply negb_true_iff in Hcolon. rewrite Hcolon.
    exact Hstar.
Qed.

(** Both tags match whatever the text is. *)
Lemma run_tag_matches (s : string) (g : gmap nat string) :
  is_Some (exec run_tag s g final).
Proof.
  unfold run_tag. cbn [exec].
  match goal with |- is_Some (match ?x with _ => _ end) => destruct x end;
    by eexists.
Qed.

Lemma star_final_matches (s : string) (f : string → gmap nat string) :
  is_Some (star (accepts (NotIn cs)) s (λ s', final s' (f s'))).
Proof.
  induction s as [|x s IH]; cbn [star]; [by eexists |].
  destruct (accepts _ x); [|by eexists].
  destruct (star _ s _); by eexists.
Qed.

Lemma pull_tag_matches (s : string) (g : gmap nat string) :
  is_Some (exec pull_tag s g final).
Proof.
  unfold pull_tag. cbn [exec].
  match goal with |- is_Some (match ?x with _ => _ end) => destruct x end;
    [by eexists |].
  apply (star_final_matches s (λ s', <[5%nat := taken s s']> g)).
Qed.

Section with_tail.

Context (tail : regex).

Let after_image : string → gmap nat string → option (gmap nat string) :=
  λ s g, exec tail s g final.

Lemma exec_image (img after : string) (g r : gmap nat string) :
  img ≠ EmptyString → free_of cs img = true → stops_at cs after = true →
  exec tail after (<[3%nat := img]> g) final = Some r →
  exec image_part (img +:+ after) g after_image = Some r.
Proof.
  intros Hne Hi Hafter Htail. destruct img as [|c img]; [done |].
  unfold image_part. cbn [exec]. rewrite append_cons. cbn [accepts].
  pose proof Hi as Hi'. cbn [free_of] in Hi.
  apply andb_prop in Hi as [-> Hi].
  rewrite (star_Some cs img after _ r); [done | exact Hi | exact Hafter |].
  change (String c (img +:+ after)) with (String c img +:+ after).
  unfold after_image. by rewrite taken_app.
Qed.

(** The image does not match where a name ends. *)
Lemma image_stops (s : string) (g : gmap nat string) :
  stops_at cs s = true → exec image_part s g after_image = None.
Proof.
  intros Hs. unfold image_part. cbn [exec]. destruct s as [|c s]; [done |].
  cbn [accepts]. cbn in Hs. by rewrite Hs.
Qed.

(** The library, the image and what follows the image. *)
Lemma exec_name (lib : option string) (img after : string) (r : gmap nat string) :
  opt_free_of cs lib = true → free_of cs img = true → img ≠ EmptyString →
  stops_at cs after = true →
  bool_decide (is_Some lib) || negb (first_is "/" after)
    || match after with
       | String _ s => stops_at cs s
       | EmptyString => true
       end = true →
  exec tail after (<[3%nat := img]> (lib_captures lib)) final = Some r →
  exec (Cat library_part (Cat image_part tail))
       (lib_text lib +:+ img +:+ after) ∅ final = Some r.
Proof.
  intros Hl Hi Hne Hafter Hslash Htail.
  cbn [exec library_part]. fold image_part.
  change (λ (s' : string) (g' : gmap nat string), exec tail s' g' final)
    with after_image.
  destruct lib as [l|]; cbn [lib_text lib_captures] in *.
  - (* the library group takes [l] and the separator *)
    rewrite append_assoc.
    rewrite (star_Some cs l ("/" +:+ (img +:+ after)) _ r);
      [done | exact Hl | rewrite append_cons; exact slash_ends |].
    rewrite append_cons, append_nil. cbn [accepts].
    rewrite bool_decide_true by done.
    set (X := img +:+ after).
    rewrite (taken_app l (String "/" X)).
    replace (taken (l +:+ String "/" X) X) with (l +:+ "/").
    2:{ change (l +:+ String "/" X) with (l +:+ ("/" +:+ X)).
        by rewrite <- append_assoc, taken_app. }
    by apply exec_image.
  - (* without a separator and a name behind it the library group gives up *)
    rewrite append_nil.
    rewrite (star_None cs img after); [| exact Hi | exact Hafter |].
    + by apply exec_image.
    + intros a2 Ha2. destruct a2 as [|x a2].
      * rewrite append_nil. destruct after as [|y after]; [done |].
        cbn [accepts]. cbn [orb first_is] in Hslash.
        destruct (bool_decide (y = "/"%char)) eqn:Hy; [|done].
        cbn [negb orb] in Hslash. by apply image_stops.
      * rewrite append_cons. cbn [accepts]. cbn [free_of] in Ha2.
        apply andb_prop in Ha2 as [Hx _]. apply negb_true_iff in Hx.
        destruct (bool_decide (x = "/"%char)) eqn:Hsl; [|done].
        apply bool_decide_eq_true in Hsl. subst x. congruence.
Qed.

Hypothesis tail_matches : ∀ s g, is_Some (exec tail s g final).

Lemma star_tail_matches (s : string) (f : string → gmap nat string) :
  is_Some (star (accepts (NotIn cs)) s (λ s', after_image s' (f s'))).
Proof.
  induction s as [|x s IH]; cbn [star]; [apply tail_matches |].
  destruct (accepts _ x); [|apply tail_matches].
  destruct (star _ s _); [by eexists | apply tail_matches].
Qed.

(** The image and what follows match on a text that begins with a character
    of a name, and on no other. *)
Lemma image_matches (s : string) (g : gmap nat string) :
  is_Some (exec image_part s g after_image)
  ↔ match s with
    | String c _ => free_of cs (String c EmptyString) = true
    | EmptyString => False
    end.
Proof.
  unfold image_part. cbn [exec]. destruct s as [|c s].
  - split; [by intros [] | done].
  - cbn [accepts free_of]. rewrite andb_true_r.
    destruct (negb (py.contains c cs)).
    + split; [done | intros _].
      apply (star_tail_matches s (λ s', <[3%nat := taken (String c s) s']> g)).
    + split; [by intros [] | done].
Qed.

(** The whole pattern matches exactly the texts that begin with a character
    of a name, or with [/] and a character of a name. *)
Lemma name_accepted (name : string) :
  is_Some (exec (Cat library_part (Cat image_part tail)) name ∅ final)
  ↔ accepted_in cs name = true.
Proof.
  cbn [exec library_part]. fold image_part.
  change (λ (s' : string) (g' : gmap nat string), exec tail s' g' final)
    with after_image.
  destruct name as [|c s].
  - cbn [star accepted_in]. split; [by intros [] | done].
  - cbn [accepted_in star accepts free_of]. rewrite !andb_true_r.
    destruct (negb (py.contains c cs)) eqn:Hc; cbn [orb].
    + split; [done | intros _].
      destruct (star _ s _) as [m|]; [by eexists |].
      destruct (if bool_decide (c = "/"%char) then _ else _) as [m|]; [by eexists |].
      apply image_matches. cbn [free_of]. by rewrite Hc.
    + assert (Hfall : exec image_part (String c s) ∅ after_image = None).
      { apply eq_None_not_Some. rewrite image_matches.
        cbn [free_of]. by rewrite Hc. }
      rewrite Hfall. case_bool_decide as Hsl; cbn [andb].
      * match goal with
        | |- is_Some (match ?x with Some m => Some m | None => None end) ↔ _ =>
            assert (Hx : is_Some x
                         ↔ match s with
                           | String c2 _ => free_of cs (String c2 EmptyString) = true
                           | EmptyString => False
                           end) by apply image_matches;
            destruct x as [m|]
        end.
        -- destruct s as [|c2 s]; [by destruct (proj1 Hx) |].
           cbn [free_of] in *. rewrite andb_true_r in *.
           split; [intros _; by apply Hx | by eexists].
        -- destruct s as [|c2 s]; [by split; [intros [] |] |].
           cbn [free_of] in *. rewrite andb_true_r in *.
           split; [by intros [] |]. intros H. apply Hx in H. by destruct H.
      * split; [by intros [] | done].
Qed.

End with_tail.

(** A name as [run.py] reads it. *)
Lemma exec_run_name (lib : option string) (img : string) (tg : option string)
    (rest : string) :
  opt_free_of cs lib = true → free_of cs img = true → img ≠ EmptyString →
  opt_free_of cs tg = true → ends_name_in cs lib tg rest = true →
  exec (Cat library_part (Cat image_part run_tag))
       (image_name lib img tg +:+ rest) ∅ final
  = Some (run_captures tg (<[3%nat := img]> (lib_captures lib))).
Proof.
  intros Hl Hi Hne Ht [[Hrest Hcolon]%andb_prop Hslash]%andb_prop.
  replace (image_name lib img tg +:+ rest)
    with (lib_text lib +:+ img +:+ (tag_text tg +:+ rest)).
  2:{ unfold image_name. by rewrite !append_assoc. }
  apply exec_name; [done | done | done | by apply stops_at_tag_text | |
                    by apply exec_run_tag].
  destruct lib as [l|]; [done |]. destruct tg as [t|]; [done |].
  cbn [tag_text]. rewrite append_nil. exact Hslash.
Qed.

(** A name as [pull.py] reads it. *)
Lemma exec_pull_name (lib : option string) (img : string) (tg : option string)
    (rest : string) :
  opt_free_of cs lib = true → free_of cs img = true → img ≠ EmptyString →
  opt_free_of cs tg = true → ends_name_in cs lib tg rest = true →
  exec (Cat library_part (Cat image_part pull_tag))
       (image_name lib img tg +:+ rest) ∅ final
  = Some (pull_captures tg (<[3%nat := img]> (lib_captures lib))).
Proof.
  intros Hl Hi Hne Ht [[Hrest Hcolon]%andb_prop Hslash]%andb_prop.
  replace (image_name lib img tg +:+ rest)
    with (lib_text lib +:+ img +:+ (tag_text tg +:+ rest)).
  2:{ unfold image_name. by rewrite !append_assoc. }
  apply exec_name; [done | done | done | by apply stops_at_tag_text | |
                    by apply exec_pull_tag].
  destruct lib as [l|]; [done |]. destruct tg as [t|]; [done |].
  cbn [tag_text]. rewrite append_nil. exact Hslash.
Qed.

Lemma lookup_lib_captures (lib : option string) :
  lib_captures lib !! 2%nat = lib
  ∧ lib_captures lib !! 3%nat = None
  ∧ lib_captures lib !! 4%nat = None
  ∧ lib_captures lib !! 5%nat = None.
Proof.
  destruct lib as [l|]; cbn [lib_captures]; [|done].
  rewrite !lookup_insert_ne by done. by rewrite lookup_insert_eq.
Qed.

Lemma lookup_run_captures (lib : option string) (img : string)
    (tg : option string) :
  let g := run_captures tg (<[3%nat := img]> (lib_captures lib)) in
  g !! 2%nat = lib ∧ g !! 3%nat = Some img ∧ g !! 5%nat = tg.
Proof.
  destruct (lookup_lib_captures lib) as (H2 & H3 & H4 & H5). cbv zeta.
  destruct tg as [t|]; cbn [run_captures]; (split; [|split]);
    rewrite ?lookup_insert_ne by done; rewrite ?lookup_insert_eq; done.
Qed.

Lemma lookup_pull_captures (lib : option string) (img : string)
    (tg : option string) :
  let g := pull_captures tg (<[3%nat := img]> (lib_captures lib)) in
  g !! 2%nat = lib ∧ g !! 3%nat = Some img
  ∧ g !! 5%nat = Some (default EmptyString tg).
Proof.
  destruct (lookup_lib_captures lib) as (H2 & H3 & H4 & H5). cbv zeta.
  destruct tg as [t|]; cbn [pull_captures default]; (split; [|split]);
    rewrite ?lookup_insert_ne by done; rewrite ?lookup_insert_eq; done.
Qed.

(** The longest start of a text that is free of [cs]. *)
Lemma span_exists (s : string) :
  ∃ a r, s = a +:+ r ∧ free_of cs a = true ∧ stops_at cs r = true.
Proof.
  induction s as [|c s (a & r & -> & Ha & Hr)].
  - by exists EmptyString, EmptyString.
  - destruct (py.contains c cs) eqn:Hc.
    + exists EmptyString, (String c (a +:+ r)). by cbn; rewrite Hc.
    + exists (String c a), r. cbn [free_of]. by rewrite Hc.
Qed.

(** A tag, if one follows. *)
Lemma tag_shape (r : string) :
  stops_at cs r = true →
  ∃ tg rest, r = tag_text tg +:+ rest
             ∧ opt_free_of cs tg = true
             ∧ stops_at cs rest = true
             ∧ bool_decide (is_Some tg) || negb (first_is ":" rest) = true
             ∧ (tg = None → rest = r).
Proof.
  intros Hr. destruct (decide (first_is ":" r = true)) as [Hc|Hc].
  - destruct r as [|c r]; [done |]. cbn in Hc.
    apply bool_decide_eq_true in Hc as ->.
    destruct (span_exists r) as (t & rest & -> & Ht & Hrest).
    by exists (Some t), rest.
  - exists None, r. cbn [tag_text opt_free_of]. rewrite append_nil.
    apply not_true_is_false in Hc. by rewrite Hc.
Qed.

(** Every text a pattern accepts is a name as [image_name] writes it, with
    something behind it that cannot be read as part of the name. *)
Lemma name_shape (name : string) :
  accepted_in cs name = true →
  ∃ lib img tg rest,
    name = image_name lib img tg +:+ rest
    ∧ opt_free_of cs lib = true ∧ free_of cs img = true ∧ img ≠ EmptyString
    ∧ opt_free_of cs tg = true ∧ ends_name_in cs lib tg rest = true.
Proof.
  intros Hacc.
  destruct (span_exists name) as (a & r & -> & Ha & Hr).
  (* does a name follow a separator? *)
  assert (Hcase :
    (∃ b r2, r = "/" +:+ (b +:+ r2) ∧ b ≠ EmptyString
             ∧ free_of cs b = true ∧ stops_at cs r2 = true)
    ∨ (negb (first_is "/" r)
       || match r with String _ s => stops_at cs s | EmptyString => true end
       = true)).
  { destruct r as [|c r]; [by right |]. cbn [first_is].
    case_bool_decide as Hc; [|by right]. subst c.
    destruct (span_exists r) as (b & r2 & -> & Hb & Hr2).
    destruct b as [|x b].
    - right. by rewrite append_nil.
    - left. by exists (String x b), r2. }
  destruct Hcase as [(b & r2 & -> & Hne & Hb & Hr2)|Hslash].
  - destruct (tag_shape r2 Hr2) as (tg & rest & -> & Ht & Hrest & Hcolon & _).
    exists (Some a), b, tg, rest. unfold image_name.
    split; [by rewrite !append_assoc |].
    repeat (split; [done |]). unfold ends_name_in.
    by rewrite Hrest, Hcolon.
  - assert (Hane : a ≠ EmptyString).
    { intros ->. rewrite append_nil in Hacc. destruct r as [|c r]; [done |].
      cbn [accepted_in free_of] in Hacc. cbn [stops_at] in Hr.
      rewrite Hr in Hacc. cbn [negb andb orb] in Hacc.
      apply andb_prop in Hacc as [Hc Hnext]. cbn [first_is] in Hslash.
      rewrite Hc in Hslash. cbn [negb orb] in Hslash.
      destruct r as [|c2 r]; [done |]. cbn [free_of stops_at] in *.
      rewrite Hslash in Hnext. done. }
    destruct (tag_shape r Hr) as (tg & rest & Hshape & Ht & Hrest & Hcolon & Hnone).
    exists None, a, tg, rest. unfold image_name. rewrite append_nil.
    split; [by rewrite Hshape, !append_assoc |].
    repeat (split; [done |]). unfold ends_name_in.
    rewrite Hrest, Hcolon. cbn [andb bool_decide]. destruct tg as [t|]; [done |].
    rewrite (Hnone eq_refl).
    rewrite (bool_decide_false (is_Some None)) by (by intros []).
    exact Hslash.
Qed.

End name_patterns.

Section image_names.

Import re.

(** The match of an image name as [image_name] writes it, followed by
    [rest]. *)
Lemma match_image_name (lib : option string) (img : string) (tg : option string)
    (rest : string) :
  opt_name_text lib = true → name_text img = true → img ≠ EmptyString →
  opt_name_text tg = true → ends_name lib tg rest = true →
  ∃ m, match_ run.IMAGE_NAME (image_name lib img tg +:+ rest) = Some m
       ∧ group m "library" = lib
       ∧ group m "image" = Some img
       ∧ group m "tag" = tg.
Proof.
  intros Hl Hi Hne Ht Hrest. unfold match_, run.IMAGE_NAME. cbn [p_regex].
  rewrite (exec_run_name "/: " eq_refl eq_refl lib img tg rest Hl Hi Hne Ht Hrest).
  eexists. split; [reflexivity |].
  destruct (lookup_run_captures lib img tg) as (H2 & H3 & H5).
  unfold group. cbn [m_re m_captures groupindex].
  change ({[ "library" := 2%nat; "image" := 3%nat; "tag" := 5%nat ]} !! "library")
    with (Some 2%nat).
  change ({[ "library" := 2%nat; "image" := 3%nat; "tag" := 5%nat ]} !! "image")
    with (Some 3%nat).
  change ({[ "library" := 2%nat; "image" := 3%nat; "tag" := 5%nat ]} !! "tag")
    with (Some 5%nat).
  cbn [mbind option_bind]. done.
Qed.

(** The pattern matches exactly the arguments that begin with a character
    of a name, or with [/] and a character of a name. *)
Lemma match_accepted (name : string) :
  is_Some (match_ run.IMAGE_NAME name) ↔ accepted name = true.
Proof.
  unfold match_, run.IMAGE_NAME. cbn [p_regex]. rewrite fmap_is_Some.
  apply (name_accepted "/: " _ (run_tag_matches "/: ")).
Qed.

(** The same for the pattern of [pull.py], which always gives a tag, be it
    the empty one. *)
Lemma pull_match_image_name (lib : option string) (img : string)
    (tg : option string) (rest : string) :
  opt_free_of "/:" lib = true → free_of "/:" img = true → img ≠ EmptyString →
  opt_free_of "/:" tg = true → ends_name_in "/:" lib tg rest = true →
  ∃ m, match_ pull.IMAGE_NAME (image_name lib img tg +:+ rest) = Some m
       ∧ group m "library" = lib
       ∧ group m "image" = Some img
       ∧ group m "tag" = Some (default EmptyString tg).
Proof.
  intros Hl Hi Hne Ht Hrest. unfold match_, pull.IMAGE_NAME. cbn [p_regex].
  rewrite (exec_pull_name "/:" eq_refl eq_refl lib img tg rest Hl Hi Hne Ht Hrest).
  eexists. split; [reflexivity |].
  destruct (lookup_pull_captures lib img tg) as (H2 & H3 & H5).
  unfold group. cbn [m_re m_captures groupindex].
  change ({[ "library" := 2%nat; "image" := 3%nat; "tag" := 5%nat ]} !! "library")
    with (Some 2%nat).
  change ({[ "library" := 2%nat; "image" := 3%nat; "tag" := 5%nat ]} !! "image")
    with (Some 3%nat).
  change ({[ "library" := 2%nat; "image" := 3%nat; "tag" := 5%nat ]} !! "tag")
    with (Some 5%nat).
  cbn [mbind option_bind]. done.
Qed.

Lemma pull_match_accepted (name : string) :
  is_Some (match_ pull.IMAGE_NAME name) ↔ accepted_in "/:" name = true.
Proof.
  unfold match_, pull.IMAGE_NAME. cbn [p_regex]. rewrite fmap_is_Some.
  apply (name_accepted "/:" _ (pull_tag_matches "/:")).
Qed.

End image_names.

(** ** [main] of [run.py] *)

Section run_main.

(** X12: [main] reads the image name on the command line as it is
    written.  For a name [library/image:tag], with or without the library
    and the tag, whose parts hold no [/], [:] or blank, [main] launches the
    image with the library [library] and the tag [latest] where they are
    missing or empty, the rest of the arguments as the command, and a fresh
    UUID as the container id.  The match is at the start of the argument
    only: text after the name, from the first [/], [:] or blank that cannot
    belong to it, is ignored without notice. *)
Theorem main_reads_image_name
    (prog : string) (lib : option string) (img : string) (tg : option string)
    (rest : string) (cmd : list string) (urandom16 : list Byte.byte) (w : world) :
  opt_name_text lib = true → name_text img = true → img ≠ EmptyString →
  opt_name_text tg = true → ends_name lib tg rest = true →
  run.main (prog :: (image_name lib img tg +:+ rest) :: cmd) urandom16 w
  = (RunCommand.execute
       (mkContainerInitParams
          (mkImage (if_else lib "library") img (if_else tg "latest"))
          cmd (uuid.str (uuid.uuid4 urandom16)));;
     mret Returns) w.
Proof.
  intros Hl Hi Hne Ht Hrest. unfold run.main.
  change ((prog :: (image_name lib img tg +:+ rest) :: cmd) !! 1%nat)
    with (Some (image_name lib img tg +:+ rest)).
  destruct (match_image_name lib img tg rest Hl Hi Hne Ht Hrest)
    as (m & -> & -> & -> & ->).
  reflexivity.
Qed.

(** X13: [main] prints [invalid args] and ends the interpreter with status
    1, without a single system call, exactly for the arguments that begin
    neither with a character of a name nor with [/] followed by one: the
    empty argument, and those that begin with [:], a blank, or [/] and then
    no character of a name. *)
Theorem main_invalid_args
    (prog name : string) (cmd : list string) (urandom16 : list Byte.byte)
    (w : world) :
  run.main (prog :: name :: cmd) urandom16 w
    = (Ok (SystemExit 1), logged (Print "invalid args") w)
  ↔ accepted name = false.
Proof.
  unfold run.main.
  change ((prog :: name :: cmd) !! 1%nat) with (Some name). cbv beta iota.
  pose proof (match_accepted name) as Hacc.
  destruct (re.match_ run.IMAGE_NAME name) as [m|].
  - assert (Ha : accepted name = true) by (by apply Hacc). rewrite Ha.
    split; [|done]. cbv zeta. rewrite bind_run.
    by destruct (RunCommand.execute _ w) as [[[]|e|f a] w'].
  - split; [intros _ | done].
    destruct (accepted name); [|done]. by destruct (proj2 Hacc eq_refl).
Qed.

End run_main.

Section container_id.

Import posixpath.

Lemma length_substring (a b : nat) (s : string) :
  (a + b ≤ String.length s)%nat → String.length (substring a b s) = b.
Proof.
  revert a b. induction s as [|x s IH]; intros a b; simpl.
  - intros H. assert (a = 0%nat ∧ b = 0%nat) as [-> ->] by lia. done.
  - destruct a as [|a]; [destruct b as [|b]; [done |] |]; simpl; intros H.
    + f_equal. apply IH. lia.
    + apply IH. lia.
Qed.

Lemma free_of_substring (cs : string) (a b : nat) (s : string) :
  free_of cs s = true → free_of cs (substring a b s) = true.
Proof.
  revert a b. induction s as [|x s IH]; intros a b; simpl.
  - by destruct a, b.
  - intros [Hx Hs]%andb_prop. destruct a as [|a]; [destruct b as [|b]; [done |] |].
    + simpl. by rewrite Hx, IH.
    + by apply IH.
Qed.

Lemma hex_digit_free (n : N) :
  py.contains (py.hex_digit n) "/" = false.
Proof.
  unfold py.hex_digit. generalize (N.to_nat n). intros i.
  do 17 (destruct i as [|i]; [reflexivity |]). reflexivity.
Qed.

Lemma hex_length (k : nat) (n : Z) : String.length (uuid.hex k n) = k.
Proof.
  revert n. induction k as [|k IH]; intros n; [done |]. cbn [uuid.hex].
  rewrite length_append, IH. simpl. lia.
Qed.

Lemma hex_free (k : nat) (n : Z) : free_of "/" (uuid.hex k n) = true.
Proof.
  revert n. induction k as [|k IH]; intros n; [done |]. cbn [uuid.hex].
  rewrite free_of_app, IH. cbn [free_of]. by rewrite hex_digit_free.
Qed.

Lemma free_of_contains (c : ascii) (s : string) :
  free_of (String c EmptyString) s = true → py.contains c s = false.
Proof.
  induction s as [|x s IH]; [done |]. simpl.
  intros [Hx Hs]%andb_prop. rewrite (IH Hs), orb_false_r.
  apply negb_true_iff in Hx. rewrite orb_false_r in Hx.
  apply bool_decide_eq_false. apply bool_decide_eq_false in Hx. congruence.
Qed.

Lemma free_of_endswith_sep (s : string) :
  free_of "/" s = true → endswith_sep s = false.
Proof.
  induction s as [|x s IH]; [done |]. cbn [free_of].
  intros [Hx Hs]%andb_prop. destruct s as [|y s].
  - apply negb_true_iff in Hx. simpl in Hx. rewrite orb_false_r in Hx.
    apply bool_decide_eq_false in Hx. apply bool_decide_eq_false.
    cbn [endswith_sep]. unfold sep. congruence.
  - change (endswith_sep (String x (String y s)))
      with (endswith_sep (String y s)). by apply IH.
Qed.

(** X14: the container id that [main] draws, the text of a version-4 UUID,
    has 36 characters and no separator in it, whatever bytes the system
    hands out.  So it names one path component: the directories of the
    container are [/var/opt/app/container/<id>/rootfs] and its two
    neighbours, and it is short enough for a host name, so that
    [sethostname] does not refuse it for its length. *)
Theorem container_id_of_main (urandom16 : list Byte.byte) :
  let id := uuid.str (uuid.uuid4 urandom16) in
  String.length id = 36%nat
  ∧ plain id = true
  ∧ (∀ name, plain name = true →
       join ContainerExecuter.CONTAINER_DATA_DIR [id; name]
       = "/var/opt/app/container/" +:+ id +:+ "/" +:+ name)
  ∧ ∀ ps, ps_privileged ps = true →
          Kernel.sethostname id ps = Done (Kernel.set_hostname id ps).
Proof.
  intros id.
  assert (Hlen : String.length id = 36%nat).
  { unfold id, uuid.str. cbv zeta. rewrite !length_append.
    rewrite !length_substring by (rewrite hex_length; lia). reflexivity. }
  assert (Hfree : free_of "/" id = true).
  { unfold id, uuid.str. cbv zeta. rewrite !free_of_app.
    rewrite !free_of_substring by apply hex_free. reflexivity. }
  assert (Hne : id ≠ EmptyString) by (intros E; by rewrite E in Hlen).
  assert (Hplain : plain id = true).
  { unfold plain. rewrite (split_on_free sep id) by (by apply free_of_contains).
    rewrite bool_decide_true by done.
    rewrite !bool_decide_false; [done | | | done];
      intros E; by rewrite E in Hlen. }
  split_and!; [done | done | |].
  - intros name Hname. apply container_dir_literal; [done | | | done].
    + destruct id as [|c s]; [done |]. cbn [free_of] in Hfree.
      apply andb_prop in Hfree as [Hc _]. apply negb_true_iff in Hc.
      simpl in Hc. rewrite orb_false_r in Hc.
      apply bool_decide_eq_false in Hc. apply bool_decide_eq_false.
      unfold sep. congruence.
    + by apply free_of_endswith_sep.
  - intros ps Hpriv. unfold Kernel.sethostname. rewrite Hpriv, Hlen. done.
Qed.

End container_id.

(** ** [main] on the host *)

(** The launcher started as [run.py "busybox --rm" echo hello]: the text
    after the blank is not part of the name and goes unnoticed. *)
Lemma main_reads_image_name_witness :
  let w := Host.world_of Host.disk 0 in
  let bytes := replicate 16 Byte.x2a in
  run.main ["run.py"; "busybox --rm"; "echo"; "hello"] bytes w
  = (RunCommand.execute
       (mkContainerInitParams (mkImage "library" "busybox" "latest")
                              ["echo"; "hello"] (uuid.str (uuid.uuid4 bytes)));;
     mret Returns) w.
Proof.
  intros w bytes.
  exact (main_reads_image_name "run.py" None "busybox" None " --rm"
           ["echo"; "hello"] bytes w eq_refl eq_refl ltac:(discriminate)
           eq_refl eq_refl).
Defined.

(** The launcher started as [run.py :latest]. *)
Lemma main_invalid_args_witness :
  let w := Host.world_of Host.disk 0 in
  run.main ["run.py"; ":latest"] [] w
  = (Ok (SystemExit 1), logged (Print "invalid args") w).
Proof.
  intros w. exact (proj2 (main_invalid_args "run.py" ":latest" [] [] w) eq_refl).
Defined.

(** The container id drawn from sixteen bytes [0x2a]. *)
Example container_id_example :
  uuid.str (uuid.uuid4 (replicate 16 Byte.x2a))
  = "2a2a2a2a-2a2a-4a2a-aa2a-2a2a2a2a2a2a".
Proof. vm_compute. reflexivity. Qed.

(** * The puller: steps of the monad *)

Section pull_running.

Import pull.

Context {A B : Type}.

Lemma pull_bind_run (m : P A) (k : A → P B) (w : world) :
  (m ≫= k) w = match m w with
               | (Val a, w') => k a w'
               | (Exc e, w') => (Exc e, w')
               end.
Proof. reflexivity. Qed.

Lemma pull_bind_Val (m : P A) (k : A → P B) (w w' : world) (b : B) :
  (m ≫= k) w = (Val b, w') → ∃ a w1, m w = (Val a, w1) ∧ k a w1 = (Val b, w').
Proof.
  rewrite pull_bind_run. destruct (m w) as [[a|e] w1]; [by eauto | done].
Qed.

(** A sequence ends where its first part raises, or as its second part
    ends. *)
Lemma pull_bind_inv (m : P A) (k : A → P B) (w w' : world) (r : res B) :
  (m ≫= k) w = (r, w') →
  (∃ e, m w = (Exc e, w') ∧ r = Exc e)
  ∨ ∃ a w1, m w = (Val a, w1) ∧ k a w1 = (r, w').
Proof.
  rewrite pull_bind_run. destruct (m w) as [[a|e] w1].
  - right. by eauto.
  - intros [= <- <-]. left. by eauto.
Qed.

End pull_running.

Section pull_extends.

Import pull.

Lemma extends_refl (w : world) : extends w w [].
Proof. unfold extends. by rewrite app_nil_r. Qed.

Lemma extends_trans (w w1 w2 : world) (evs1 evs2 : list event) :
  extends w w1 evs1 → extends w1 w2 evs2 → extends w w2 (evs1 ++ evs2).
Proof.
  intros (E1 & R1 & D1 & M1 & X1) (E2 & R2 & D2 & M2 & X2). unfold extends.
  rewrite E2, E1, R2, R1, D2, D1, M2, M1, X2, X1. by rewrite app_assoc.
Qed.

Lemma extends_new_events (w w' : world) (evs : list event) :
  extends w w' evs → new_events w w' = evs.
Proof. intros [E _]. unfold new_events. by rewrite E, drop_app_length. Qed.

Lemma extends_set_disk (w : world) (d : disk) : extends w (set_disk d w) [].
Proof. unfold extends. simpl. by rewrite app_nil_r. Qed.

Lemma extends_emitted (w : world) (ev : event) :
  extends w (set_events (w_events w ++ [ev]) w) [ev].
Proof. by unfold extends. Qed.

Lemma requests_of_app (evs1 evs2 : list event) :
  requests_of (evs1 ++ evs2) = requests_of evs1 ++ requests_of evs2.
Proof. apply omap_app. Qed.

Lemma extractions_app (evs1 evs2 : list event) :
  extractions (evs1 ++ evs2) = extractions evs1 ++ extractions evs2.
Proof. apply omap_app. Qed.

Lemma opened_app (evs1 evs2 : list event) :
  opened (evs1 ++ evs2) = opened evs1 ++ opened evs2.
Proof. apply omap_app. Qed.

End pull_extends.

(** ** What every event of a step satisfies *)

Section pull_logs.

Import pull.

Context (Q : event → Prop).

Lemma logs_ret {A} (a : A) : logs Q (mret a : P A).
Proof.
  intros w r w' [= <- <-]. exists []. split; [apply extends_refl | done].
Qed.

Lemma logs_throw {A} (e : exn) : logs Q (throw e : P A).
Proof.
  intros w r w' [= <- <-]. exists []. split; [apply extends_refl | done].
Qed.

Lemma logs_lift {A} (x : res A) : logs Q (lift x).
Proof.
  intros w r w' [= <- <-]. exists []. split; [apply extends_refl | done].
Qed.

Lemma logs_bind {A B} (m : P A) (k : A → P B) :
  logs Q m → (∀ a, logs Q (k a)) → logs Q (m ≫= k).
Proof.
  intros Hm Hk w r w' [(e & H & ->)|(a & w1 & H1 & H2)]%pull_bind_inv.
  - apply Hm in H as (evs & He & HQ). by exists evs.
  - apply Hm in H1 as (evs1 & He1 & HQ1). apply Hk in H2 as (evs2 & He2 & HQ2).
    exists (evs1 ++ evs2). split; [by eapply extends_trans | by apply Forall_app].
Qed.

Lemma logs_if {A} (b : bool) (m1 m2 : P A) :
  logs Q m1 → logs Q m2 → logs Q (if b then m1 else m2).
Proof. by destruct b. Qed.

Lemma logs_for {A} (xs : list A) (body : A → P unit) :
  (∀ x, logs Q (body x)) → logs Q (for_ xs body).
Proof.
  intros Hb. induction xs as [|x xs IH]; [apply logs_ret |].
  apply logs_bind; [apply Hb | by intros _].
Qed.

Lemma logs_emit (ev : event) : Q ev → logs Q (emit ev).
Proof.
  intros HQ w r w' [= <- <-]. exists [ev].
  split; [apply extends_emitted | by constructor].
Qed.

Lemma logs_print (line : string) : Q (Printed line) → logs Q (print line).
Proof. apply logs_emit. Qed.

(** A step that leaves the log and the registry alone. *)
Lemma logs_quiet {A} (f : world → res A * world) :
  (∀ w, extends w (f w).2 []) → logs Q (act f).
Proof.
  intros Hf w r w' H. exists []. split; [|done].
  specialize (Hf w). unfold act in H. by rewrite H in Hf.
Qed.

Lemma logs_get (u : string) (auth : option string) (streamed : bool) :
  Q (Requested (mkRequest u auth streamed)) → logs Q (requests.get u auth streamed).
Proof.
  intros HQ w r w' H. exists [Requested (mkRequest u auth streamed)].
  split; [|by constructor].
  unfold requests.get, act in H. cbv zeta in H.
  destruct (w_registry w _ _) as [a|]; [destruct (negb streamed && broken a) |];
    injection H as <- <-; apply extends_emitted.
Qed.

Lemma logs_raise_for_status (r : response) : logs Q (requests.raise_for_status r).
Proof.
  unfold requests.raise_for_status. apply logs_if; [apply logs_throw | apply logs_ret].
Qed.

Lemma logs_json_of (r : response) : logs Q (requests.json_of r).
Proof.
  unfold requests.json_of. destruct (body r); [apply logs_ret | apply logs_throw].
Qed.

Lemma logs_path_exists (p : string) : Q (Tested p) → logs Q (files.path_exists p).
Proof.
  intros HQ. unfold files.path_exists. apply logs_bind; [by apply logs_emit |].
  intros _. apply logs_quiet. intros w. apply extends_refl.
Qed.

Lemma logs_makedirs (p : string) : Q (Made p) → logs Q (files.makedirs p).
Proof.
  intros HQ. unfold files.makedirs. apply logs_bind; [by apply logs_emit |].
  intros _. apply logs_quiet. intros w.
  destruct (Kernel.makedirs _ _); [apply extends_set_disk | apply extends_refl].
Qed.

Lemma logs_open_for_writing (p mode : string) (empty : file_content) :
  Q (Opened p mode) → logs Q (files.open_for_writing p mode empty).
Proof.
  intros HQ. unfold files.open_for_writing. apply logs_bind; [by apply logs_emit |].
  intros _. apply logs_quiet. intros w. cbv zeta.
  repeat case_match; first [apply extends_set_disk | apply extends_refl].
Qed.

Lemma logs_write_text (p : string) (f : path) (text : string) :
  Q (WroteText p text) → logs Q (files.write_text p f text).
Proof.
  intros HQ. unfold files.write_text. apply logs_bind; [by apply logs_emit |].
  intros _. apply logs_quiet. intros w. apply extends_set_disk.
Qed.

Lemma logs_write (p : string) (f : path) (chunk : list Byte.byte) :
  Q (Wrote p chunk) → logs Q (files.write p f chunk).
Proof.
  intros HQ. unfold files.write. apply logs_bind; [by apply logs_emit |].
  intros _. apply logs_quiet. intros w. apply extends_set_disk.
Qed.

Lemma logs_tar_open (p : string) : Q (TarOpened p) → logs Q (tarfile.open_ p).
Proof.
  intros HQ. unfold tarfile.open_. apply logs_bind; [by apply logs_emit |].
  intros _. apply logs_quiet. intros w. cbv zeta.
  repeat case_match; apply extends_refl.
Qed.

Lemma logs_getmembers (tar : file_content) : logs Q (tarfile.getmembers tar).
Proof. apply logs_quiet. intros w. apply extends_refl. Qed.

Lemma logs_extractall (p : string) (tar : file_content) (dest : string) :
  Q (Extracted p dest) → logs Q (tarfile.extractall p tar dest).
Proof.
  intros HQ. unfold tarfile.extractall. apply logs_bind; [by apply logs_emit |].
  intros _. apply logs_quiet. intros w.
  destruct (w_extractall _ _ _ _); [apply extends_set_disk | apply extends_refl].
Qed.

Lemma logs_dumps (j : json) :
  logs Q (act (λ w, (Val (w_dumps w j), w))).
Proof. apply logs_quiet. intros w. apply extends_refl. Qed.

End pull_logs.

(** ** The requests of the puller *)

Section pull_requests.

Import pull.

(** Anything but a request. *)
Let quiet (ev : event) : Prop :=
  match ev with
  | Requested _ => False
  | _ => True
  end.

Lemma requests_of_quiet (evs : list event) :
  Forall quiet evs → requests_of evs = [].
Proof.
  induction 1 as [|ev evs Hq _ IH]; [done |].
  change (ev :: evs) with ([ev] ++ evs). rewrite requests_of_app, IH.
  by destruct ev.
Qed.

Lemma exchanges_registry (w w1 : world) (tok : request) (hist rs : list request) :
  w_registry w1 = w_registry w → exchanges w1 tok hist rs → exchanges w tok hist rs.
Proof.
  intros Hr. induction 1 as [|hist answer content t a rs H1 H2 H3 H4 _ IH];
    [constructor |].
  rewrite Hr in H1. by econstructor.
Qed.

Lemma exchanges_app (w : world) (tok : request) (hist rs1 rs2 : list request) :
  exchanges w tok hist rs1 → exchanges w tok (hist ++ rs1) rs2 →
  exchanges w tok hist (rs1 ++ rs2).
Proof.
  induction 1 as [|hist answer content t a rs H1 H2 H3 H4 _ IH]; intros H.
  - by rewrite app_nil_r in H.
  - simpl. econstructor; [done .. |]. apply IH.
    by rewrite <- app_assoc.
Qed.

Context (library image : string).

Let tok : request := token_request library image.

Lemma exchanging_quiet {A} (m : P A) : logs quiet m → exchanging tok m.
Proof.
  intros Hm w r w' (evs & He & Hq)%Hm. exists evs, [], [].
  rewrite (requests_of_quiet _ Hq).
  split; [done |]. split; [done |]. split; [constructor | by left].
Qed.

Lemma exchanging_bind {A B} (m : P A) (k : A → P B) :
  exchanging tok m → (∀ a, exchanging tok (k a)) → exchanging tok (m ≫= k).
Proof.
  intros Hm Hk w r w' [(e & H & ->)|(a & w1 & H1 & H2)]%pull_bind_inv.
  - apply Hm in H as (evs & rs & tail & He & Hr & Hx & Ht).
    exists evs, rs, tail. split; [done |]. split; [done |]. split; [done |].
    destruct Ht as [->|[-> _]]; [by left | right; by eauto].
  - apply Hm in H1 as (evs1 & rs1 & tail1 & He1 & Hr1 & Hx1 & Ht1).
    destruct Ht1 as [->|[_ [e [=]]]]. rewrite app_nil_r in Hr1.
    apply Hk in H2 as (evs2 & rs2 & tail2 & He2 & Hr2 & Hx2 & Ht2).
    exists (evs1 ++ evs2), (rs1 ++ rs2), tail2.
    split; [by eapply extends_trans |].
    split; [by rewrite requests_of_app, Hr1, Hr2, app_assoc |].
    split; [|done].
    apply exchanges_app; [done |].
    destruct He1 as (E1 & R1 & _). rewrite E1, requests_of_app, Hr1 in Hx2.
    by apply (exchanges_registry _ w1).
Qed.

Lemma exchanging_if {A} (b : bool) (m1 m2 : P A) :
  exchanging tok m1 → exchanging tok m2 → exchanging tok (if b then m1 else m2).
Proof. by destruct b. Qed.

Lemma exchanging_for {A} (xs : list A) (body : A → P unit) :
  (∀ x, exchanging tok (body x)) → exchanging tok (for_ xs body).
Proof.
  intros Hb. induction xs as [|x xs IH].
  - apply exchanging_quiet, logs_ret.
  - apply exchanging_bind; [apply Hb | by intros _].
Qed.

Lemma get_spec (u : string) (auth : option string) (streamed : bool)
    (w w1 : world) (r : res response) :
  requests.get u auth streamed w = (r, w1) →
  extends w w1 [Requested (mkRequest u auth streamed)]
  ∧ w_disk w1 = w_disk w
  ∧ ∀ answer, r = Val answer →
      w_registry w (requests_of (w_events w)) (mkRequest u auth streamed)
      = Some answer.
Proof.
  unfold requests.get, act. cbv zeta.
  destruct (w_registry w _ _) as [answer|];
    [destruct (negb streamed && broken answer) |];
    intros [= <- <-]; (split; [apply extends_emitted |]); (split; [done |]);
    by intros ? [= <-].
Qed.

(** The header is built from the answer to a token request. *)
Lemma bearer_spec (w w1 : world) (r : res string) :
  DockerRegistoryClient.bearer library image w = (r, w1) →
  extends w w1
    [Printed ("Get authtoken, url: "
                +:+ DockerRegistoryClient.auth_url library image);
     Requested tok]
  ∧ w_disk w1 = w_disk w
  ∧ ∀ h, r = Val h →
      ∃ answer content t,
        w_registry w (requests_of (w_events w)) tok = Some answer
        ∧ body answer = Some content
        ∧ getitem content "token" = Val t
        ∧ h = "Bearer " +:+ str t.
Proof.
  unfold DockerRegistoryClient.bearer, DockerRegistoryClient.get_image_pull_auth_token,
    print, emit, requests.get, requests.raise_for_status, requests.json_of,
    DockerRegistoryClient.token, lift, throw, act.
  cbv zeta. rewrite !pull_bind_run. cbn [w_events set_events w_registry].
  assert (Hreq : requests_of
                   (w_events w ++
                      [Printed ("Get authtoken, url: "
                                  +:+ DockerRegistoryClient.auth_url library image)])
                 = requests_of (w_events w)).
  { by rewrite requests_of_app, app_nil_r. }
  rewrite Hreq.
  change (mkRequest (DockerRegistoryClient.auth_url library image) None false)
    with tok.
  assert (Hext : ∀ w0 : world, extends w
            (set_events
               ((w_events w ++
                   [Printed ("Get authtoken, url: "
                               +:+ DockerRegistoryClient.auth_url library image)])
                  ++ [Requested tok])
               (set_events
                  (w_events w ++
                     [Printed ("Get authtoken, url: "
                                 +:+ DockerRegistoryClient.auth_url library image)]) w))
            [Printed ("Get authtoken, url: "
                        +:+ DockerRegistoryClient.auth_url library image);
             Requested tok]).
  { intros _. unfold extends. simpl. by rewrite <- app_assoc. }
  destruct (w_registry w (requests_of (w_events w)) tok) as [answer|] eqn:Ha.
  2:{ intros [= <- <-]. split; [by apply Hext | done]. }
  cbn [negb andb]. destruct (broken answer).
  { intros [= <- <-]. split; [by apply Hext | done]. }
  rewrite !pull_bind_run.
  destruct ((400 <=? status_code answer) && (status_code answer <? 600)).
  { intros [= <- <-]. split; [by apply Hext | done]. }
  cbn [mret P_ret]. rewrite ?pull_bind_run.
  destruct (body answer) as [content|] eqn:Hb.
  2:{ intros [= <- <-]. split; [by apply Hext | done]. }
  cbn [mret P_ret DockerRegistoryClient.token_content].
  destruct (getitem content "token") as [t|e] eqn:Ht.
  2:{ intros [= <- <-]. split; [by apply Hext | done]. }
  intros [= <- <-]. split; [by apply Hext |]. split; [done |].
  intros h [= <-]. by exists answer, content, t.
Qed.

(** A request with a header: the token request, then the request itself
    with the token it got. *)
Lemma exchanging_authorized {A} (u : string) (streamed : bool)
    (k : response → P A) :
  (∀ response, exchanging tok (k response)) →
  exchanging tok (header ← DockerRegistoryClient.bearer library image;
                  response ← requests.get u (Some header) streamed;
                  k response).
Proof.
  intros Hk w r w' [(e & H & ->)|(h & w1 & H1 & H2)]%pull_bind_inv.
  - apply bearer_spec in H as (He & _ & _). eexists _, [], [tok].
    split; [exact He |]. split; [done |]. split; [constructor |].
    right. by eauto.
  - apply bearer_spec in H1 as (He1 & _ & Hh).
    destruct (Hh h eq_refl) as (answer & content & t & Ha & Hb & Ht & ->).
    set (a := mkRequest u (Some ("Bearer " +:+ str t)) streamed) in *.
    assert (Hone : exchanges w tok (requests_of (w_events w)) [tok; a]).
    { econstructor; [exact Ha | exact Hb | exact Ht | done | constructor]. }
    apply pull_bind_inv in H2 as [(e & H & ->)|(resp & w2 & H2 & H3)].
    + apply get_spec in H as (He2 & _ & _). fold a in He2.
      eexists _, [tok; a], [].
      split; [by eapply extends_trans |].
      split; [|split; [done | by left]].
      by rewrite app_nil_r.
    + apply get_spec in H2 as (He2 & _ & _). fold a in He2.
      apply Hk in H3 as (evs3 & rs3 & tail3 & He3 & Hr3 & Hx3 & Ht3).
      eexists _, ([tok; a] ++ rs3), tail3.
      split; [eapply extends_trans; [by eapply extends_trans | done] |].
      split; [by rewrite !requests_of_app, Hr3 |].
      split; [|done].
      apply exchanges_app; [done |].
      apply (exchanges_registry _ w2).
      { destruct He1 as (_ & R1 & _), He2 as (_ & R2 & _). by rewrite R2. }
      destruct He1 as (E1 & _), He2 as (E2 & _).
      rewrite E2, E1, !requests_of_app in Hx3. simpl in Hx3.
      by rewrite <- app_assoc in Hx3.
Qed.

End pull_requests.

Ltac logs_tac :=
  cbv zeta;
  repeat first
    [ apply logs_ret | apply logs_throw | apply logs_lift
    | apply logs_print | apply logs_emit | apply logs_get
    | apply logs_raise_for_status | apply logs_json_of
    | apply logs_path_exists | apply logs_makedirs
    | apply logs_open_for_writing | apply logs_write_text | apply logs_write
    | apply logs_tar_open | apply logs_getmembers | apply logs_extractall
    | apply logs_dumps
    | apply logs_for; intros ?
    | apply logs_if
    | apply logs_bind; [|intros ?]
    | match goal with
      | |- pull.logs _ (let '(_, _) := ?x in _) => destruct x
      end ].

Ltac exchanging_tac :=
  cbv zeta;
  repeat first
    [ apply exchanging_authorized; intros ?
    | solve [apply exchanging_quiet; logs_tac; exact I]
    | apply exchanging_for; intros ?
    | apply exchanging_if
    | apply exchanging_bind; [|intros ?]
    | match goal with
      | |- pull.exchanging _ (let '(_, _) := ?x in _) => destruct x
      end ].

Section pull_protocol.

Import pull.

Context (library image : string).

Lemma exchanging_get_manifest (tag : string) :
  exchanging (token_request library image)
             (DockerRegistoryClient.get_manifest library image tag).
Proof. unfold DockerRegistoryClient.get_manifest. exchanging_tac. Qed.

Lemma exchanging_download_layer (layer_digest : string) :
  exchanging (token_request library image)
             (DockerRegistoryClient.download_layer library image layer_digest).
Proof. unfold DockerRegistoryClient.download_layer. exchanging_tac. Qed.

Lemma exchanging_fetch_layer (image_layers_path contents_path : string)
    (digest : json) :
  exchanging (token_request library image)
             (PullCommand.fetch_layer library image image_layers_path
                                      contents_path digest).
Proof.
  unfold PullCommand.fetch_layer. exchanging_tac.
Qed.

Lemma exchanging_execute (tag : string) :
  exchanging (token_request library image)
             (PullCommand.execute library image tag).
Proof.
  unfold PullCommand.execute. exchanging_tac.
Qed.

End pull_protocol.

(** ** What the steps of the puller do when they succeed *)

Section pull_specs.

Import pull.

Lemma extends_requests (w w' : world) (evs : list event) :
  extends w w' evs →
  requests_of (w_events w') = requests_of (w_events w) ++ requests_of evs.
Proof. intros [E _]. by rewrite E, requests_of_app. Qed.

Lemma extends_registry (w w' : world) (evs : list event) :
  extends w w' evs → w_registry w' = w_registry w.
Proof. by intros (_ & R & _). Qed.

Lemma emit_inv (ev : event) (w w' : world) (r : res unit) :
  emit ev w = (r, w') →
  r = Val tt ∧ extends w w' [ev] ∧ w_disk w' = w_disk w.
Proof. intros [= <- <-]. split; [done |]. split; [apply extends_emitted | done]. Qed.

Lemma lift_inv {A} (x : res A) (w w' : world) (r : res A) :
  lift x w = (r, w') → r = x ∧ w' = w.
Proof. by intros [= <- <-]. Qed.

Lemma raise_for_status_Val (answer : response) (w w' : world) (u : unit) :
  requests.raise_for_status answer w = (Val u, w') → w' = w.
Proof.
  unfold requests.raise_for_status. by case_match; intros [= <-].
Qed.

Lemma json_of_Val (answer : response) (w w' : world) (j : json) :
  requests.json_of answer w = (Val j, w') → body answer = Some j ∧ w' = w.
Proof.
  unfold requests.json_of. destruct (body answer); [|done]. by intros [= <- <-].
Qed.

Lemma path_exists_inv (p : string) (w w' : world) (r : res bool) :
  files.path_exists p w = (r, w') →
  r = Val (Kernel.path_exists p (d_proc (w_disk w)))
  ∧ extends w w' [Tested p] ∧ w_disk w' = w_disk w.
Proof.
  unfold files.path_exists, act. rewrite pull_bind_run. cbn [emit].
  intros [= <- <-]. split; [done |]. split; [apply extends_emitted | done].
Qed.

Lemma makedirs_Val (p : string) (w w' : world) (u : unit) :
  files.makedirs p w = (Val u, w') →
  ∃ ps, Kernel.makedirs p (d_proc (w_disk w)) = Done ps
        ∧ w_disk w' = mkDisk ps (d_files (w_disk w))
        ∧ extends w w' [Made p].
Proof.
  unfold files.makedirs, act. rewrite pull_bind_run. cbn [emit w_disk set_events].
  destruct (Kernel.makedirs p (d_proc (w_disk w))) as [ps|e]; [|done].
  intros [= _ <-]. exists ps. split; [done |]. split; [done |].
  by unfold extends.
Qed.

(** [if not os.path.exists(p): os.makedirs(p)] *)
Lemma ensure_Val (p : string) (w w' : world) :
  (e ← files.path_exists p;
   if negb e then files.makedirs p else mret tt) w = (Val tt, w') →
  Kernel.path_exists p (d_proc (w_disk w')) = true
  ∧ d_files (w_disk w') = d_files (w_disk w)
  ∧ ∃ evs, extends w w' evs
           ∧ Forall (λ ev, ev = Tested p ∨ ev = Made p) evs.
Proof.
  intros (e & w1 & ([= ->] & He1 & Hd1)%path_exists_inv & H)%pull_bind_Val.
  destruct (Kernel.path_exists p (d_proc (w_disk w))) eqn:Hex; cbn [negb] in H.
  - injection H as <-. rewrite Hd1. split; [done |]. split; [done |].
    eexists. split; [exact He1 |]. constructor; [by left | done].
  - apply makedirs_Val in H as (ps & Hm & Hd & He2).
    rewrite Hd, Hd1. cbn [d_proc d_files]. split.
    { rewrite Hd1 in Hm. by apply (makedirs_exists _ _ _ Hm). }
    split; [done |]. eexists. split; [by eapply extends_trans |].
    constructor; [by left |]. constructor; [by right | done].
Qed.

Context (library image : string).

Let tok : request := token_request library image.

Lemma get_manifest_Val (tag : string) (w w' : world)
    (m : DockerRegistoryClient.ImageManifestResponse) :
  DockerRegistoryClient.get_manifest library image tag w = (Val m, w') →
  ∃ h answer,
    w_registry w (requests_of (w_events w) ++ [tok])
      (mkRequest (DockerRegistoryClient.manifest_url library image tag) (Some h) false)
    = Some answer
    ∧ body answer = Some (DockerRegistoryClient.manifest_content m)
    ∧ w_disk w' = w_disk w
    ∧ extends w w'
        [Printed ("Downloading manifest, url: "
                    +:+ DockerRegistoryClient.manifest_url library image tag);
         Printed ("Get authtoken, url: "
                    +:+ DockerRegistoryClient.auth_url library image);
         Requested tok;
         Requested (mkRequest (DockerRegistoryClient.manifest_url library image tag)
                              (Some h) false)].
Proof.
  unfold DockerRegistoryClient.get_manifest. cbv zeta.
  intros ([] & w1 & (_ & He1 & Hd1)%emit_inv & H)%pull_bind_Val.
  apply pull_bind_Val in H as (h & w2 & (He2 & Hd2 & _)%bearer_spec & H).
  apply pull_bind_Val in H as (answer & w3 & (He3 & Hd3 & Ha)%get_spec & H).
  apply pull_bind_Val in H as ([] & w4 & ->%raise_for_status_Val & H).
  apply pull_bind_Val in H as (content & w5 & [Hb ->]%json_of_Val & H).
  injection H as <- <-. exists h, answer.
  specialize (Ha answer eq_refl).
  pose proof (extends_trans _ _ _ _ _ He1 He2) as He12.
  rewrite (extends_registry _ _ _ He12), (extends_requests _ _ _ He12) in Ha.
  cbn [app] in Ha. change (requests_of _ ++ requests_of _)
    with (requests_of (w_events w) ++ [tok]) in Ha.
  split; [exact Ha |]. split; [exact Hb |].
  split; [by rewrite Hd3, Hd2 |].
  apply (extends_trans _ _ _ _ _ He12 He3).
Qed.

Lemma download_layer_Val (layer_digest : string) (w w' : world)
    (chunks : list (list Byte.byte)) (b : bool) :
  DockerRegistoryClient.download_layer library image layer_digest w
    = (Val (chunks, b), w') →
  ∃ h answer,
    w_registry w (requests_of (w_events w) ++ [tok])
      (mkRequest (DockerRegistoryClient.blob_url library image layer_digest)
                 (Some h) true)
    = Some answer
    ∧ chunks = filter (λ chunk, truthy chunk = true) (content answer)
    ∧ b = broken answer
    ∧ w_disk w' = w_disk w
    ∧ extends w w'
        [Printed ("Fetching layer " +:+ layer_digest +:+ " ..");
         Printed ("Get authtoken, url: "
                    +:+ DockerRegistoryClient.auth_url library image);
         Requested tok;
         Requested (mkRequest (DockerRegistoryClient.blob_url library image layer_digest)
                              (Some h) true)].
Proof.
  unfold DockerRegistoryClient.download_layer.
  intros ([] & w1 & (_ & He1 & Hd1)%emit_inv & H)%pull_bind_Val.
  apply pull_bind_Val in H as (h & w2 & (He2 & Hd2 & _)%bearer_spec & H).
  apply pull_bind_Val in H as (answer & w3 & (He3 & Hd3 & Ha)%get_spec & H).
  apply pull_bind_Val in H as ([] & w4 & ->%raise_for_status_Val & H).
  injection H as <- <- <-. exists h, answer.
  specialize (Ha answer eq_refl).
  pose proof (extends_trans _ _ _ _ _ He1 He2) as He12.
  rewrite (extends_registry _ _ _ He12), (extends_requests _ _ _ He12) in Ha.
  cbn [app] in Ha. change (requests_of _ ++ requests_of _)
    with (requests_of (w_events w) ++ [tok]) in Ha.
  split; [exact Ha |]. split; [done |]. split; [done |].
  split; [by rewrite Hd3, Hd2 |].
  apply (extends_trans _ _ _ _ _ He12 He3).
Qed.

End pull_specs.

(** ** One layer *)

Section pull_layer.

Import pull.

Lemma open_for_writing_Val (p mode : string) (empty : file_content)
    (w w' : world) (q : path) :
  files.open_for_writing p mode empty w = (Val q, w') →
  Kernel.resolve (d_proc (w_disk w)) p = Some q
  ∧ d_files (w_disk w') = <[q := empty]> (d_files (w_disk w))
  ∧ ps_cwd (d_proc (w_disk w')) = ps_cwd (d_proc (w_disk w))
  ∧ (∀ x, Kernel.path_exists x (d_proc (w_disk w)) = true →
          Kernel.path_exists x (d_proc (w_disk w')) = true)
  ∧ extends w w' [Opened p mode].
Proof.
  unfold files.open_for_writing, act. rewrite pull_bind_run.
  cbn [emit w_disk set_events]. cbv zeta.
  destruct (Kernel.resolve (d_proc (w_disk w)) p) as [q'|] eqn:Hres; [|done].
  destruct (lookup_node _ (removelast q')) as [[| | |]|]; try done.
  destruct (lookup_node (ps_view (d_proc (w_disk w))) q') as [[| | |]|] eqn:Hq;
    try done; intros [= <- <-]; cbn [w_disk set_disk d_files d_proc];
    (split; [done |]); (split; [done |]); (split; [done |]);
    (split; [|by unfold extends]); try done.
  intros x. unfold Kernel.path_exists, Kernel.resolve.
  cbn [ps_cwd Kernel.set_view ps_view].
  destruct (bool_decide (x = EmptyString)); [done |].
  destruct (locate _ x) as [|c l] eqn:Hl; [done |]. cbn [lookup_node].
  destruct (decide (q' = c :: l)) as [->|Hne].
  - by rewrite lookup_insert_eq.
  - by rewrite lookup_insert_ne.
Qed.

(** The chunks are written one after the other behind what the file
    holds. *)
Lemma write_chunks (p : string) (f : path) (chunks : list (list Byte.byte))
    (b : list Byte.byte) (w w' : world) (r : res unit) :
  for_ chunks (λ chunk, if truthy chunk then files.write p f chunk else mret tt) w
    = (r, w') →
  d_files (w_disk w) !! f = Some (Binary b) →
  r = Val tt
  ∧ d_proc (w_disk w') = d_proc (w_disk w)
  ∧ d_files (w_disk w') = <[f := Binary (b ++ concat chunks)]> (d_files (w_disk w))
  ∧ extends w w' (Wrote p <$> filter (λ chunk, truthy chunk = true) chunks).
Proof.
  revert b w. induction chunks as [|c chunks IH]; intros b w H Hf.
  - injection H as <- <-. rewrite app_nil_r. split; [done |]. split; [done |].
    split; [by rewrite insert_id | apply extends_refl].
  - cbn [for_] in H. rewrite pull_bind_run in H. destruct c as [|x c].
    + cbn [truthy mret P_ret] in H.
      apply IH with (b := b) in H as (-> & Hp & Hd & He); [|done].
      by rewrite filter_cons_False.
    + cbn [truthy] in H. unfold files.write, act in H. rewrite pull_bind_run in H.
      cbn [emit w_disk set_events] in H. rewrite Hf in H.
      apply IH with (b := b ++ x :: c) in H as (-> & Hp & Hd & He).
      2:{ cbn [files.set_file w_disk set_disk d_files]. by rewrite lookup_insert_eq. }
      cbn [files.set_file w_disk set_disk set_events d_files d_proc] in *.
      split; [done |]. split; [done |].
      split.
      { rewrite Hd, insert_insert_eq. by rewrite <- app_assoc. }
      rewrite filter_cons_True by done. rewrite fmap_cons.
      destruct He as (E & R & D & M & X). unfold extends. cbn in *.
      rewrite E, <- app_assoc. by cbn.
Qed.

Lemma concat_truthy (chunks : list (list Byte.byte)) :
  concat (filter (λ chunk, truthy chunk = true) chunks) = concat chunks.
Proof.
  induction chunks as [|[|x c] chunks IH]; [done | |].
  - by rewrite filter_cons_False.
  - rewrite filter_cons_True by done. simpl. by rewrite IH.
Qed.

Lemma filter_truthy_idemp (chunks : list (list Byte.byte)) :
  filter (λ chunk, truthy chunk = true)
         (filter (λ chunk, truthy chunk = true) chunks)
  = filter (λ chunk, truthy chunk = true) chunks.
Proof.
  induction chunks as [|[|x c] chunks IH]; [done | |].
  - by rewrite filter_cons_False.
  - rewrite !filter_cons_True by done. by rewrite IH.
Qed.

Lemma print_members (members : list string) (w w' : world) (r : res unit) :
  for_ members (λ member, print ("- " +:+ member)) w = (r, w') →
  r = Val tt
  ∧ w_disk w' = w_disk w
  ∧ extends w w' ((λ member, Printed ("- " +:+ member)) <$> members).
Proof.
  revert w. induction members as [|m members IH]; intros w H.
  - injection H as <- <-. split; [done |]. split; [done | apply extends_refl].
  - cbn [for_] in H. rewrite pull_bind_run in H. cbn [print emit] in H.
    apply IH in H as (-> & Hd & He). split; [done |]. split; [done |].
    rewrite fmap_cons.
    apply (extends_trans _ _ _ [_] _ (extends_emitted w _) He).
Qed.

Lemma tar_open_Val (p : string) (w w' : world) (tar : file_content) :
  tarfile.open_ p w = (Val tar, w') →
  (∃ q, Kernel.resolve (d_proc (w_disk w)) p = Some q
        ∧ d_files (w_disk w) !! q = Some tar)
  ∧ is_Some (w_members w tar)
  ∧ w_disk w' = w_disk w
  ∧ extends w w' [TarOpened p].
Proof.
  unfold tarfile.open_, act. rewrite pull_bind_run.
  cbn [emit w_disk set_events w_members]. cbv zeta.
  destruct (Kernel.resolve (d_proc (w_disk w)) p) as [q|]; [|done].
  destruct (d_files (w_disk w) !! q) as [c|] eqn:Hc; [|done].
  destruct (w_members w c) as [ms|] eqn:Hm; [|done].
  intros [= <- <-]. split; [by eauto |]. split; [by rewrite Hm |].
  split; [done | by unfold extends].
Qed.

Lemma extractall_Val (p : string) (tar : file_content) (dest : string)
    (w w' : world) (u : unit) :
  tarfile.extractall p tar dest w = (Val u, w') →
  w_extractall w tar dest (w_disk w) = Val (w_disk w')
  ∧ extends w w' [Extracted p dest].
Proof.
  unfold tarfile.extractall, act. rewrite pull_bind_run.
  cbn [emit w_disk set_events w_extractall].
  destruct (w_extractall w tar dest (w_disk w)) as [d|e]; [|done].
  intros [= _ <-]. split; [done | by unfold extends].
Qed.

Context (library image : string).

Let tok : request := token_request library image.

(** A layer that is fetched: the archive is asked for with a fresh token,
    the file holds the chunks of the answer in their order, and this is
    what is unpacked. *)
Lemma fetch_layer_Val (image_layers_path contents_path : string)
    (digest : json) (w w' : world) :
  PullCommand.fetch_layer library image image_layers_path contents_path digest w
    = (Val tt, w') →
  ∃ (d h : string) (answer : response) (q : path) (before : disk)
    (members : list string),
    let tar := posixpath.join image_layers_path [d] +:+ ".tar" in
    let archive := Binary (concat (content answer)) in
    digest = JStr d
    ∧ w_registry w (requests_of (w_events w) ++ [tok])
        (mkRequest (DockerRegistoryClient.blob_url library image d) (Some h) true)
      = Some answer
    ∧ broken answer = false
    ∧ Kernel.resolve (d_proc (w_disk w)) tar = Some q
    ∧ d_files before !! q = Some archive
    ∧ (∀ x, Kernel.path_exists x (d_proc (w_disk w)) = true →
            Kernel.path_exists x (d_proc before) = true)
    ∧ w_members w archive = Some members
    ∧ w_extractall w archive contents_path before = Val (w_disk w')
    ∧ extends w w'
        ([Printed ("Fetching layer " +:+ d +:+ "..");
          Opened tar "wb";
          Printed ("Fetching layer " +:+ d +:+ " ..");
          Printed ("Get authtoken, url: "
                     +:+ DockerRegistoryClient.auth_url library image);
          Requested tok;
          Requested (mkRequest (DockerRegistoryClient.blob_url library image d)
                               (Some h) true)]
           ++ (Wrote tar <$> filter (λ chunk, truthy chunk = true) (content answer))
           ++ [TarOpened tar]
           ++ ((λ member, Printed ("- " +:+ member)) <$> take 10 members)
           ++ [Printed "..."; Extracted tar contents_path; Printed "extract done"]).
Proof.
  unfold PullCommand.fetch_layer.
  intros ([] & w1 & (_ & He1 & Hd1)%emit_inv & H)%pull_bind_Val.
  apply pull_bind_Val in H as (joined & w2 & [Hj ->]%lift_inv & H).
  destruct digest as [| | | |d| |]; try done. injection Hj as ->.
  cbv zeta in H. cbn [str] in *.
  set (tar := posixpath.join image_layers_path [d] +:+ ".tar") in *.
  apply pull_bind_Val in H as (q & w3 & H3 & H).
  apply open_for_writing_Val in H3 as (Hq & Hf3 & Hcwd3 & Hex3 & He3).
  apply pull_bind_Val in H as ([chunks b] & w4 & H4 & H).
  apply download_layer_Val in H4 as (h & answer & Ha & -> & -> & Hd4 & He4).
  apply pull_bind_Val in H as ([] & w5 & Hw & H).
  apply (write_chunks _ _ _ []) in Hw as (_ & Hp5 & Hf5 & He5).
  2:{ by rewrite Hd4, Hf3, lookup_insert_eq. }
  apply pull_bind_Val in H as ([] & w6 & H6 & H).
  destruct (broken answer) eqn:Hbr; [done |]. injection H6 as <-.
  apply pull_bind_Val in H as (tarc & w7 & H7 & H).
  apply tar_open_Val in H7 as ((q' & Hq' & Hc) & [ms Hms] & Hd7 & He7).
  apply pull_bind_Val in H as (members & w8 & H8 & H).
  unfold tarfile.getmembers, act in H8. injection H8 as <- <-.
  apply pull_bind_Val in H as ([] & w9 & (_ & Hd9 & He9)%print_members & H).
  apply pull_bind_Val in H as ([] & w10 & (_ & He10 & Hd10)%emit_inv & H).
  apply pull_bind_Val in H as ([] & w11 & (Hx & He11)%extractall_Val & H).
  apply emit_inv in H as (_ & He12 & Hd12).
  (* the file that is opened as an archive is the one that was written *)
  rewrite Hd1 in Hq.
  assert (Hres : ∀ ps, ps_cwd ps = ps_cwd (d_proc (w_disk w)) →
                       Kernel.resolve ps tar = Some q).
  { intros ps Hc'. rewrite <- Hq. unfold Kernel.resolve. by rewrite Hc'. }
  assert (q' = q) as ->.
  { rewrite Hres in Hq'; [by injection Hq' |].
    by rewrite Hp5, Hd4, Hcwd3, Hd1. }
  rewrite Hf5, lookup_insert_eq, concat_truthy in Hc.
  cbn [app] in Hc. injection Hc as <-.
  pose proof (extends_trans _ _ _ _ _ He1 He3) as E13.
  pose proof (extends_trans _ _ _ _ _ E13 He4) as E14.
  pose proof (extends_trans _ _ _ _ _ E14 He5) as E15.
  pose proof (extends_trans _ _ _ _ _ E15 He7) as E17.
  pose proof (extends_trans _ _ _ _ _ E17 He9) as E19.
  pose proof (extends_trans _ _ _ _ _ E19 He10) as E110.
  pose proof (extends_trans _ _ _ _ _ E110 He11) as E111.
  pose proof (extends_trans _ _ _ _ _ E111 He12) as E112.
  assert (Hmem : w_members w5 = w_members w) by (by destruct E15 as (_ & _ & _ & M & _)).
  assert (Hxt : w_extractall w10 = w_extractall w) by (by destruct E110 as (_ & _ & _ & _ & X)).
  assert (Hmem7 : w_members w7 = w_members w) by (by destruct E17 as (_ & _ & _ & M & _)).
  rewrite Hmem in Hms. rewrite Hmem7, Hms in E112. cbn [default] in E112.
  rewrite Hxt, Hd10, Hd9, Hd7, <- Hd12 in Hx.
  exists d, h, answer, q, (w_disk w5), ms. cbv zeta.
  split; [done |].
  split.
  { rewrite (extends_registry _ _ _ E13), (extends_requests _ _ _ E13) in Ha.
    cbn in Ha. by rewrite app_nil_r in Ha. }
  split; [done |]. split; [done |].
  split; [by rewrite Hf5, lookup_insert_eq, concat_truthy |].
  split.
  { intros x Hx'. rewrite Hp5, Hd4. apply Hex3. by rewrite Hd1. }
  split; [done |]. split; [exact Hx |].
  rewrite filter_truthy_idemp in E112.
  rewrite <- !app_assoc in E112. exact E112.
Qed.

End pull_layer.

(** ** The pull command *)

Section pull_projections.

Import pull.

Lemma pull_bind_assoc {A B C} (m : P A) (k1 : A → P B) (k2 : B → P C) (w : world) :
  ((m ≫= k1) ≫= k2) w = (m ≫= (λ a, k1 a ≫= k2)) w.
Proof. rewrite !pull_bind_run. by destruct (m w) as [[a|e] w1]. Qed.

Lemma pull_bind_ext {A B} (m : P A) (k k' : A → P B) (w : world) :
  (∀ a w1, k a w1 = k' a w1) → (m ≫= k) w = (m ≫= k') w.
Proof. intros Hk. rewrite !pull_bind_run. by destruct (m w) as [[a|e] w1]. Qed.

Lemma omap_fmap_None {A B C} (f : B → option C) (g : A → B) (l : list A) :
  (∀ x, f (g x) = None) → omap f (g <$> l) = [].
Proof.
  intros Hf. induction l as [|x l IH]; [done |].
  rewrite fmap_cons. change (g x :: (g <$> l)) with ([g x] ++ (g <$> l)).
  rewrite omap_app, IH. simpl. by rewrite Hf.
Qed.

Lemma unpacking_keeps_extends (w w' : world) (evs : list event) (dir : string) :
  extends w w' evs → unpacking_keeps w dir → unpacking_keeps w' dir.
Proof.
  intros (_ & _ & _ & _ & X) Hk tar d d'. rewrite X. apply Hk.
Qed.

(** [if not os.path.exists(p): os.makedirs(p)], however it ends. *)
Lemma ensure_inv (p : string) (w w' : world) (r : res unit) :
  (e ← files.path_exists p;
   if negb e then files.makedirs p else mret tt) w = (r, w') →
  d_files (w_disk w') = d_files (w_disk w)
  ∧ only_adds_dirs (ps_view (d_proc (w_disk w))) (ps_view (d_proc (w_disk w')))
  ∧ (∀ x, Kernel.path_exists x (d_proc (w_disk w)) = true →
          Kernel.path_exists x (d_proc (w_disk w')) = true)
  ∧ (r = Val tt → Kernel.path_exists p (d_proc (w_disk w')) = true)
  ∧ (r = Val tt ∨ ∃ e, r = Exc (OSError e))
  ∧ ∃ evs, extends w w' evs
           ∧ Forall (λ ev, ev = Tested p ∨ ev = Made p) evs.
Proof.
  intros [(e & (Hr & _)%path_exists_inv & _)|(e & w1 & H1 & H)]%pull_bind_inv;
    [done |].
  apply path_exists_inv in H1 as ([= ->] & He1 & Hd1).
  destruct (Kernel.path_exists p (d_proc (w_disk w))) eqn:Hex; cbn [negb] in H.
  - injection H as <- <-. rewrite Hd1.
    split; [done |]. split; [by left |]. split; [done |]. split; [done |].
    split; [by left |].
    eexists. split; [exact He1 |]. constructor; [by left | done].
  - unfold files.makedirs, act in H. rewrite pull_bind_run in H.
    cbn [emit w_disk set_events] in H. rewrite Hd1 in H.
    assert (Hext : ∀ d, extends w (set_disk d (set_events (w_events w1 ++ [Made p]) w1))
                          [Tested p; Made p]).
    { intros d. apply (extends_trans _ _ _ [_] [_] He1). by unfold extends. }
    assert (HQ : Forall (λ ev, ev = Tested p ∨ ev = Made p) [Tested p; Made p]).
    { constructor; [by left |]. constructor; [by right | done]. }
    destruct (Kernel.makedirs p (d_proc (w_disk w))) as [ps|e] eqn:Hm.
    + injection H as <- <-. cbn [w_disk set_disk d_files d_proc].
      split; [done |]. split; [by apply (makedirs_only_adds_dirs p) |].
      split; [intros x; by apply (makedirs_keeps p) |].
      split; [intros _; by apply (makedirs_exists p _ _ Hm) |].
      split; [by left |].
      eexists. split; [apply Hext | done].
    + injection H as <- <-. cbn [w_disk set_events]. rewrite Hd1.
      split; [done |]. split; [by left |]. split; [done |]. split; [done |].
      split; [right; by eauto |].
      eexists. split; [|exact HQ].
      apply (extends_trans _ _ _ [_] [_] He1). by unfold extends.
Qed.

Lemma ensure_projections (p : string) (evs : list event) :
  Forall (λ ev, ev = Tested p ∨ ev = Made p) evs →
  requests_of evs = [] ∧ extractions evs = [] ∧ opened evs = [].
Proof.
  induction 1 as [|ev evs [-> | ->] _ (IH1 & IH2 & IH3)]; [done | |];
    change (?x :: evs) with ([x] ++ evs);
    by rewrite requests_of_app, extractions_app, opened_app, IH1, IH2, IH3.
Qed.

Context (library image : string).

Let tok : request := token_request library image.

(** The layers that are fetched, in the order of the list. *)
Lemma fetch_layers_Val (image_layers_path contents_path : string)
    (digests : list json) (w w' : world) :
  for_ digests (PullCommand.fetch_layer library image image_layers_path
                                        contents_path) w = (Val tt, w') →
  ∃ (ds : list string) (evs : list event),
    digests = JStr <$> ds
    ∧ extends w w' evs
    ∧ extractions evs
      = (λ d, (posixpath.join image_layers_path [d] +:+ ".tar", contents_path)) <$> ds
    ∧ url <$> requests_of evs
      = ds ≫= (λ d, [DockerRegistoryClient.auth_url library image;
                     DockerRegistoryClient.blob_url library image d])
    ∧ opened evs = (λ d, posixpath.join image_layers_path [d] +:+ ".tar") <$> ds
    ∧ (unpacking_keeps w contents_path →
       Kernel.path_exists contents_path (d_proc (w_disk w)) = true →
       Kernel.path_exists contents_path (d_proc (w_disk w')) = true).
Proof.
  revert w. induction digests as [|digest digests IH]; intros w H.
  - injection H as <-. exists [], []. split; [done |].
    split; [apply extends_refl | done].
  - cbn [for_] in H.
    apply pull_bind_Val in H as ([] & w1 & H1 & H).
    apply fetch_layer_Val in H1
      as (d & h & answer & q & before & members & -> & Ha & Hbr & Hq & Hf & Hex
          & Hms & Hx & He1).
    apply IH in H as (ds & evs & -> & He & Hext & Hreq & Hop & Hkeep).
    exists (d :: ds). eexists. split; [done |].
    split; [by eapply extends_trans |].
    rewrite !extractions_app, !requests_of_app, !opened_app, Hext, Hop.
    rewrite !fmap_app, Hreq.
    unfold extractions, requests_of, opened.
    rewrite !omap_fmap_None by done.
    split; [done |]. split; [done |]. split; [done |].
    intros Hk Hc. apply Hkeep.
    + by apply (unpacking_keeps_extends _ _ _ _ He1).
    + apply (Hk _ _ _ Hx). by apply Hex.
Qed.

End pull_projections.

(** ** The pull command, from the manifest to the layers *)

Section pull_command.

Import pull.

Lemma replace_char_app (old new : ascii) (a b : string) :
  replace_char old new (a +:+ b)
  = replace_char old new a +:+ replace_char old new b.
Proof.
  induction a as [|x a IH]; [done |]. rewrite append_cons. simpl.
  by rewrite IH.
Qed.

Lemma replace_char_free (old new : ascii) (s : string) :
  py.contains old s = false → replace_char old new s = s.
Proof.
  induction s as [|x s IH]; [done |]. simpl.
  intros [Hx Hs]%orb_false_elim. by rewrite Hx, (IH Hs).
Qed.

(** The two ways to the contents of an image: [layers] and then [contents],
    or [layers/contents] at once. *)
Lemma join2_layers (a : string) :
  posixpath.join2 (posixpath.join2 a "layers") "contents"
  = posixpath.join2 a "layers/contents".
Proof.
  unfold posixpath.join2. cbn [posixpath.startswith_sep].
  rewrite !(bool_decide_false ("l"%char = posixpath.sep)) by done.
  rewrite !(bool_decide_false ("c"%char = posixpath.sep)) by done.
  destruct (bool_decide (a = EmptyString) || posixpath.endswith_sep a) eqn:E.
  - rewrite bool_decide_false.
    2:{ destruct a; [done |]. by rewrite append_cons. }
    rewrite endswith_sep_app by done. cbn [orb].
    change (posixpath.endswith_sep "layers") with false. cbv iota.
    by rewrite !append_assoc.
  - rewrite bool_decide_false.
    2:{ destruct a; [done |]. by rewrite append_cons. }
    rewrite endswith_sep_app by done. cbn [orb].
    change (posixpath.endswith_sep ("/" +:+ "layers")) with false. cbv iota.
    by rewrite !append_assoc.
Qed.

Lemma json_of_inv (answer : response) (w w' : world) (r : res json) :
  requests.json_of answer w = (r, w') → w' = w.
Proof. unfold requests.json_of. by case_match; intros [= <- <-]. Qed.

Lemma raise_for_status_inv (answer : response) (w w' : world) (r : res unit) :
  requests.raise_for_status answer w = (r, w') → w' = w.
Proof. unfold requests.raise_for_status. by case_match; intros [= <- <-]. Qed.

Lemma write_text_inv (p : string) (f : path) (text : string) (w w' : world)
    (r : res unit) :
  files.write_text p f text w = (r, w') →
  r = Val tt
  ∧ d_proc (w_disk w') = d_proc (w_disk w)
  ∧ extends w w' [WroteText p text].
Proof.
  unfold files.write_text, act. rewrite pull_bind_run. cbn [emit].
  intros [= <- <-]. split; [done |]. split; [done | by unfold extends].
Qed.

Context (library image : string).

Let tok : request := token_request library image.

Let images_dir : string := "/var/opt/app/images".

Let ensure (p : string) : P unit :=
  e ← files.path_exists p;
  if negb e then files.makedirs p else mret tt.

(** What [execute] does with a manifest once it has read its name and its
    tag. *)
Let save (manifest : DockerRegistoryClient.ImageManifestResponse)
    (replaced : string) (tg : json) : P unit :=
  let image_name_friendly := replaced +:+ "_" +:+ str tg in
  let image_base_dir := posixpath.join images_dir [image_name_friendly] in
  let manifest_path :=
    posixpath.join images_dir [image_name_friendly +:+ ".json"] in
  manifest_file ← files.open_for_writing manifest_path "w" (Text EmptyString);
  text ← act (λ w, (Val (w_dumps w (DockerRegistoryClient.manifest_content
                                      manifest)), w));
  files.write_text manifest_path manifest_file text;;
  let image_layers_path := posixpath.join image_base_dir ["layers"] in
  let contents_path := posixpath.join image_layers_path ["contents"] in
  ensure contents_path;;
  digests ← lift (DockerRegistoryClient.layer_digests manifest);
  for_ digests (PullCommand.fetch_layer library image image_layers_path
                                        contents_path);;
  print ("Save docker image to " +:+ image_base_dir).

Lemma execute_unfold (tag : string) (w : world) :
  PullCommand.execute library image tag w
  = (ensure images_dir;;
     manifest ← DockerRegistoryClient.get_manifest library image tag;
     name ← lift (DockerRegistoryClient.name manifest);
     replaced ← lift (PullCommand.replace_json name);
     tg ← lift (DockerRegistoryClient.tag manifest);
     save manifest replaced tg) w.
Proof.
  unfold ensure. rewrite pull_bind_assoc.
  unfold PullCommand.execute. cbv zeta.
  change (posixpath.join (os_path.dirname "/var/opt/app/") ["images"])
    with images_dir.
  apply pull_bind_ext. intros e w1. apply pull_bind_ext. intros [] w2.
  apply pull_bind_ext. intros manifest w3. apply pull_bind_ext. intros name w4.
  apply pull_bind_ext. intros replaced w5. apply pull_bind_ext. intros tg w6.
  unfold save. cbv zeta.
  apply pull_bind_ext. intros f w7. apply pull_bind_ext. intros text w8.
  apply pull_bind_ext. intros [] w9. unfold ensure.
  by rewrite pull_bind_assoc.
Qed.

(** The manifest request, however it ends, touches no file. *)
Lemma get_manifest_inv (tag : string) (w w' : world)
    (r : res DockerRegistoryClient.ImageManifestResponse) :
  DockerRegistoryClient.get_manifest library image tag w = (r, w') →
  w_disk w' = w_disk w
  ∧ ∃ evs, extends w w' evs
           ∧ opened evs = [] ∧ extractions evs = []
           ∧ (length (requests_of evs) ≤ 2)%nat.
Proof.
  unfold DockerRegistoryClient.get_manifest. cbv zeta.
  intros [(e & (? & _)%emit_inv & _)|([] & w1 & H1 & H)]%pull_bind_inv;
    [done |].
  apply emit_inv in H1 as (_ & He1 & Hd1).
  apply pull_bind_inv in H
    as [(e & (He2 & Hd2 & _)%bearer_spec & ->)
       |(h & w2 & (He2 & Hd2 & _)%bearer_spec & H)].
  { split; [by rewrite Hd2 |]. eexists. split; [by eapply extends_trans |].
    cbn. split; [done |]. split; [done | lia]. }
  pose proof (extends_trans _ _ _ _ _ He1 He2) as He12.
  apply pull_bind_inv in H
    as [(e & (He3 & Hd3 & _)%get_spec & ->)
       |(answer & w3 & (He3 & Hd3 & _)%get_spec & H)].
  { split; [by rewrite Hd3, Hd2 |]. eexists. split; [by eapply extends_trans |].
    cbn. split; [done |]. split; [done | lia]. }
  pose proof (extends_trans _ _ _ _ _ He12 He3) as He13.
  assert (w' = w3) as ->.
  { apply pull_bind_inv in H
      as [(e & ->%raise_for_status_inv & _)|([] & w4 & ->%raise_for_status_inv & H)];
      [done |].
    apply pull_bind_inv in H
      as [(e & ->%json_of_inv & _)|(content & w5 & ->%json_of_inv & H)];
      [done |].
    by injection H as _ <-. }
  split; [by rewrite Hd3, Hd2 |]. eexists. split; [exact He13 |].
  cbn. split; [done |]. split; [done | lia].
Qed.

(** How [execute] goes: the image directory is made sure of; then the
    manifest is asked for; then its name and tag are read; then it is
    saved. *)
Lemma execute_inv (tag : string) (w w' : world) (r : res unit) :
  PullCommand.execute library image tag w = (r, w') →
  ∃ w1 evs1,
    d_files (w_disk w1) = d_files (w_disk w)
    ∧ only_adds_dirs (ps_view (d_proc (w_disk w))) (ps_view (d_proc (w_disk w1)))
    ∧ extends w w1 evs1
    ∧ requests_of evs1 = [] ∧ extractions evs1 = [] ∧ opened evs1 = []
    ∧ ((w' = w1 ∧ ∃ e, r = Exc (OSError e))
       ∨ (∃ e, DockerRegistoryClient.get_manifest library image tag w1 = (Exc e, w')
               ∧ r = Exc e)
       ∨ ∃ m w2,
           DockerRegistoryClient.get_manifest library image tag w1 = (Val m, w2)
           ∧ ((w' = w2 ∧ (∃ e, r = Exc e)
               ∧ ¬ ∃ n tg, DockerRegistoryClient.name m = Val (JStr n)
                           ∧ DockerRegistoryClient.tag m = Val tg)
              ∨ ∃ n tg,
                  DockerRegistoryClient.name m = Val (JStr n)
                  ∧ DockerRegistoryClient.tag m = Val tg
                  ∧ save m (replace_char "/" "_" n) tg w2 = (r, w'))).
Proof.
  rewrite execute_unfold.
  intros [(e & H & ->)|([] & w1 & H1 & H)]%pull_bind_inv.
  - apply ensure_inv in H
      as (Hf & Hadd & _ & _ & [[=]|[e' [= ->]]] & evs & He & HQ).
    apply ensure_projections in HQ as (Q1 & Q2 & Q3).
    exists w', evs. repeat (split; [done |]). left. by eauto.
  - apply ensure_inv in H1 as (Hf & Hadd & _ & _ & _ & evs & He & HQ).
    apply ensure_projections in HQ as (Q1 & Q2 & Q3).
    exists w1, evs. repeat (split; [done |]). right.
    apply pull_bind_inv in H as [(e & H & ->)|(m & w2 & H2 & H)];
      [left; by eauto |].
    right. exists m, w2. split; [done |].
    apply pull_bind_inv in H
      as [(e & [He' ->]%lift_inv & ->)|(name & w3 & [Hn ->]%lift_inv & H)].
    { left. split; [done |]. split; [by eauto |].
      intros (n & tg & Hn & _). congruence. }
    apply pull_bind_inv in H
      as [(e & [He' ->]%lift_inv & ->)|(replaced & w4 & [Hrp ->]%lift_inv & H)].
    { left. split; [done |]. split; [by eauto |].
      intros (n & tg & Hn' & _). rewrite <- Hn in Hn'. injection Hn' as ->.
      done. }
    destruct name as [| | | |n| |]; try done. injection Hrp as ->.
    apply pull_bind_inv in H
      as [(e & [He' ->]%lift_inv & ->)|(tg & w5 & [Ht ->]%lift_inv & H)].
    { left. split; [done |]. split; [by eauto |].
      intros (n' & tg & _ & Ht). congruence. }
    right. by exists n, tg.
Qed.

(** A manifest that is saved: its layers are fetched and unpacked in the
    order of the list. *)
Lemma save_Val (manifest : DockerRegistoryClient.ImageManifestResponse)
    (replaced : string) (tg : json) (w w' : world) :
  save manifest replaced tg w = (Val tt, w') →
  let base := posixpath.join images_dir [replaced +:+ "_" +:+ str tg] in
  let layers := posixpath.join base ["layers"] in
  let contents := posixpath.join layers ["contents"] in
  ∃ (ds : list string) (evs : list event),
    DockerRegistoryClient.layer_digests manifest = Val (JStr <$> ds)
    ∧ extends w w' evs
    ∧ extractions evs
      = (λ d, (posixpath.join layers [d] +:+ ".tar", contents)) <$> ds
    ∧ url <$> requests_of evs
      = ds ≫= (λ d, [DockerRegistoryClient.auth_url library image;
                     DockerRegistoryClient.blob_url library image d])
    ∧ opened evs
      = posixpath.join images_dir [(replaced +:+ "_" +:+ str tg) +:+ ".json"]
          :: ((λ d, posixpath.join layers [d] +:+ ".tar") <$> ds)
    ∧ last evs = Some (Printed ("Save docker image to " +:+ base))
    ∧ (unpacking_keeps w contents →
       Kernel.path_exists contents (d_proc (w_disk w')) = true).
Proof.
  unfold save. cbv zeta.
  set (base := posixpath.join images_dir [replaced +:+ "_" +:+ str tg]).
  set (layers := posixpath.join base ["layers"]).
  set (contents := posixpath.join layers ["contents"]).
  intros (f & w1 & (_ & _ & _ & _ & He1)%open_for_writing_Val & H)%pull_bind_Val.
  apply pull_bind_Val in H as (text & w2 & H2 & H).
  unfold act in H2. injection H2 as <- <-.
  apply pull_bind_Val in H as ([] & w3 & (_ & _ & He3)%write_text_inv & H).
  apply pull_bind_Val in H as ([] & w4 & H4 & H).
  apply ensure_inv in H4 as (_ & _ & _ & Hex4 & _ & evs4 & He4 & HQ4).
  apply ensure_projections in HQ4 as (Q1 & Q2 & Q3).
  apply pull_bind_Val in H as (digests & w5 & [Hds ->]%lift_inv & H).
  apply pull_bind_Val in H as ([] & w6 & H6 & H).
  apply fetch_layers_Val in H6 as (ds & evs6 & -> & He6 & Hx6 & Hr6 & Ho6 & Hk6).
  apply emit_inv in H as (_ & He7 & Hd7).
  pose proof (extends_trans _ _ _ _ _ He1 He3) as E13.
  pose proof (extends_trans _ _ _ _ _ E13 He4) as E14.
  pose proof (extends_trans _ _ _ _ _ E14 He6) as E16.
  pose proof (extends_trans _ _ _ _ _ E16 He7) as E17.
  exists ds. eexists. split; [done |]. split; [exact E17 |].
  rewrite last_snoc.
  rewrite !extractions_app, !requests_of_app, !opened_app, Q1, Q2, Q3, Hx6, Ho6.
  rewrite !fmap_app, Hr6. cbn. rewrite !app_nil_r.
  split; [done |]. split; [done |]. split; [done |]. split; [done |].
  intros Hk. rewrite Hd7. apply Hk6.
  - by apply (unpacking_keeps_extends _ _ _ _ E14).
  - by apply Hex4.
Qed.

(** The directory every archive of a saved manifest is unpacked into. *)
Lemma logs_save (manifest : DockerRegistoryClient.ImageManifestResponse)
    (replaced : string) (tg : json) :
  let contents :=
    posixpath.join images_dir [replaced +:+ "_" +:+ str tg; "layers"; "contents"] in
  logs (λ ev, match ev with
              | Extracted _ dest => dest = contents
              | _ => True
              end)
       (save manifest replaced tg).
Proof.
  intros contents. unfold save, ensure. logs_tac; first [exact I | reflexivity].
Qed.

Lemma extractions_logs (dir : string) (evs : list event) :
  Forall (λ ev, match ev with
                | Extracted _ dest => dest = dir
                | _ => True
                end) evs →
  Forall (λ x, x.2 = dir) (extractions evs).
Proof.
  induction 1 as [|ev evs Hev _ IH]; [constructor |].
  change (ev :: evs) with ([ev] ++ evs). rewrite extractions_app.
  apply Forall_app. split; [|done].
  destruct ev; try constructor; done.
Qed.

(** Where the puller unpacks [library/image:tag] is where the launcher
    looks for it. *)
Lemma contents_image_contents (tag : string) :
  py.contains "/" library = false → py.contains "/" image = false →
  posixpath.join images_dir
    [replace_char "/" "_" (library +:+ "/" +:+ image) +:+ "_" +:+ str (JStr tag);
     "layers"; "contents"]
  = image_contents (mkImage library image tag).
Proof.
  intros Hl Hi. unfold image_contents, posixpath.join. cbn [foldl str].
  rewrite join2_layers.
  rewrite !replace_char_app, (replace_char_free _ _ library Hl),
    (replace_char_free _ _ image Hi).
  change (replace_char "/" "_" "/") with "_".
  simpl. by rewrite !append_assoc.
Qed.

(** X15: the requests of a pull are exchanges.  Whatever the registry
    answers and however [execute] ends, its requests come in pairs: a
    request for a token, without a header, which the registry answers with
    a token, and then a request that carries exactly this token in its
    [Authorization] header; a token is asked for anew for every request.
    The only request that may be left alone is a last token request that
    got no usable answer, and then [execute] raises. *)
Theorem execute_requests (tag : string) (w w' : world) (r : res unit) :
  PullCommand.execute library image tag w = (r, w') →
  ∃ rs tail,
    requests_of (new_events w w') = rs ++ tail
    ∧ exchanges w (token_request library image) (requests_of (w_events w)) rs
    ∧ (tail = [] ∨ (tail = [token_request library image] ∧ ∃ e, r = Exc e)).
Proof.
  intros (evs & rs & tail & He & Hr & Hx & Ht)%exchanging_execute.
  exists rs, tail. by rewrite (extends_new_events _ _ _ He).
Qed.

(** X16: a pull that succeeds has fetched the layers of the manifest the
    registry sent, one after the other in the order of [fsLayers], a layer
    that is listed twice being fetched twice: each is asked for after a
    token request of its own, and is unpacked from [layers/<digest>.tar]
    into the one directory [layers/contents] of the image, named after the
    name and the tag of the manifest.  The line [Save docker image to ...]
    is the last thing it prints. *)
Theorem execute_layers_in_order (tag : string) (w w' : world) :
  PullCommand.execute library image tag w = (Val tt, w') →
  ∃ (manifest : DockerRegistoryClient.ImageManifestResponse) (h name : string)
    (answer : response) (tg : json) (digests : list string),
    w_registry w (requests_of (w_events w) ++ [token_request library image])
      (mkRequest (DockerRegistoryClient.manifest_url library image tag) (Some h) false)
    = Some answer
    ∧ body answer = Some (DockerRegistoryClient.manifest_content manifest)
    ∧ DockerRegistoryClient.name manifest = Val (JStr name)
    ∧ DockerRegistoryClient.tag manifest = Val tg
    ∧ DockerRegistoryClient.layer_digests manifest = Val (JStr <$> digests)
    ∧ let base :=
        posixpath.join "/var/opt/app/images"
                       [replace_char "/" "_" name +:+ "_" +:+ str tg] in
      let layers := posixpath.join base ["layers"] in
      extractions (new_events w w')
      = (λ d, (posixpath.join layers [d] +:+ ".tar",
               posixpath.join layers ["contents"])) <$> digests
      ∧ url <$> requests_of (new_events w w')
        = [DockerRegistoryClient.auth_url library image;
           DockerRegistoryClient.manifest_url library image tag]
            ++ (digests ≫= (λ d, [DockerRegistoryClient.auth_url library image;
                                  DockerRegistoryClient.blob_url library image d]))
      ∧ last (new_events w w')
        = Some (Printed ("Save docker image to " +:+ base)).
Proof.
  intros (w1 & evs1 & _ & _ & He1 & Q1 & Q2 & Q3 & H)%execute_inv.
  destruct H as [[_ [e [=]]]|[(e & _ & [=])|(m & w2 & Hm & H)]].
  destruct H as [(_ & [e [=]] & _)|(n & tg & Hn & Htg & H)].
  apply get_manifest_Val in Hm as (h & answer & Ha & Hb & _ & He2).
  apply save_Val in H as (ds & evs3 & Hds & He3 & Hx3 & Hr3 & _ & Hl3 & _).
  rewrite (extends_registry _ _ _ He1), (extends_requests _ _ _ He1), Q1,
    app_nil_r in Ha.
  pose proof (extends_trans _ _ _ _ _ (extends_trans _ _ _ _ _ He1 He2) He3) as He.
  exists m, h, n, answer, tg, ds.
  rewrite (extends_new_events _ _ _ He).
  repeat (split; [done |]). cbv zeta.
  rewrite !extractions_app, !requests_of_app, Q1, Q2, Hx3, !fmap_app, Hr3.
  split; [done |]. split; [done |].
  by rewrite last_app, Hl3.
Qed.

(** X17: the puller stores an image where the launcher looks for it.  If
    the manifests of the registry carry the name [library/image] and the
    tag they were asked under, and neither [library] nor [image] holds a
    [/], then every archive is unpacked into the directory that is the
    lower directory of the launcher's overlay for the image; and after a
    pull that succeeded this directory exists, as long as unpacking an
    archive into it leaves it in place. *)
Theorem pull_stores_where_run_mounts (tag : string) (w w' : world) (r : res unit) :
  PullCommand.execute library image tag w = (r, w') →
  names_as_asked w library image tag →
  free_of "/" library = true → free_of "/" image = true →
  let image_root := image_contents (mkImage library image tag) in
  Forall (λ x, x.2 = image_root) (extractions (new_events w w'))
  ∧ (r = Val tt → unpacking_keeps w image_root →
     Kernel.path_exists image_root (d_proc (w_disk w')) = true).
Proof.
  intros (w1 & evs1 & _ & _ & He1 & Q1 & Q2 & Q3 & H)%execute_inv
    Hnames Hl%free_of_contains Hi%free_of_contains image_root.
  destruct H as [[-> [e ->]]|[(e & Hm & ->)|(m & w2 & Hm & H)]].
  - rewrite (extends_new_events _ _ _ He1), Q2. by split.
  - apply get_manifest_inv in Hm as (_ & evs2 & He2 & _ & X2 & _).
    rewrite (extends_new_events _ _ _ (extends_trans _ _ _ _ _ He1 He2)).
    rewrite extractions_app, Q2, X2. by split.
  - pose proof Hm as (h & answer & Ha & Hb & _ & He2)%get_manifest_Val.
    pose proof (extends_trans _ _ _ _ _ He1 He2) as He12.
    rewrite (extends_registry _ _ _ He1) in Ha.
    destruct (Hnames _ _ _ _ Ha Hb) as [Hname Htag].
    destruct H as [(-> & [e ->] & Hno)|(n & tg & Hn & Htg & H)].
    { exfalso. apply Hno. by eauto. }
    unfold DockerRegistoryClient.name, DockerRegistoryClient.tag in Hn, Htg.
    rewrite Hname in Hn. rewrite Htag in Htg.
    injection Hn as <-. injection Htg as <-.
    pose proof (contents_image_contents tag Hl Hi) as Hroot.
    fold image_root in Hroot. split.
    + pose proof (logs_save m _ _ _ _ _ H) as (evs3 & He3 & HQ).
      cbv zeta in HQ. rewrite Hroot in HQ.
      rewrite (extends_new_events _ _ _ (extends_trans _ _ _ _ _ He12 He3)).
      rewrite !extractions_app, Q2. cbn [app].
      by apply extractions_logs.
    + intros -> Hk.
      apply save_Val in H as (_ & _ & _ & _ & _ & _ & _ & _ & Hex).
      cbv zeta in Hex. unfold posixpath.join in Hex, Hroot. cbn [foldl] in Hex, Hroot.
      rewrite Hroot in Hex. apply Hex.
      by apply (unpacking_keeps_extends _ _ _ _ He12).
Qed.

(** X18: what is unpacked is what the registry sent.  When a layer has
    been fetched, the registry was asked for the blob of its digest, the
    answer did not break off, the file [<digest>.tar] held the chunks of the
    answer one after the other, none left out and none added, and it is
    this archive that was unpacked. *)
Theorem fetch_layer_unpacks_what_was_sent
    (image_layers_path contents_path : string) (digest : json) (w w' : world) :
  PullCommand.fetch_layer library image image_layers_path contents_path digest w
    = (Val tt, w') →
  ∃ (d h : string) (answer : response) (q : path) (before : disk),
    digest = JStr d
    ∧ w_registry w (requests_of (w_events w) ++ [token_request library image])
        (mkRequest (DockerRegistoryClient.blob_url library image d) (Some h) true)
      = Some answer
    ∧ broken answer = false
    ∧ Kernel.resolve (d_proc (w_disk w))
                     (posixpath.join image_layers_path [d] +:+ ".tar") = Some q
    ∧ d_files before !! q = Some (Binary (concat (content answer)))
    ∧ w_extractall w (Binary (concat (content answer))) contents_path before
      = Val (w_disk w').
Proof.
  intros (d & h & answer & q & before & members & -> & Ha & Hbr & Hq & Hf & _
          & _ & Hx & _)%fetch_layer_Val.
  by exists d, h, answer, q, before.
Qed.

(** X19: a manifest without a name or a tag is found out before anything
    is written.  If the manifests of the registry have no text under
    [name], or nothing under [tag], as those of the second schema, then
    [execute] raises, whatever else happens; it has made two requests at
    most, opened no file and unpacked nothing; the files hold what they
    held, and all that may be new in the file tree are directories. *)
Theorem execute_unnamed_manifest (tag : string) (w w' : world) (r : res unit) :
  PullCommand.execute library image tag w = (r, w') →
  unnamed w library image tag →
  (∃ e, r = Exc e)
  ∧ opened (new_events w w') = []
  ∧ extractions (new_events w w') = []
  ∧ (length (requests_of (new_events w w')) ≤ 2)%nat
  ∧ d_files (w_disk w') = d_files (w_disk w)
  ∧ only_adds_dirs (ps_view (d_proc (w_disk w)))
                   (ps_view (d_proc (w_disk w'))).
Proof.
  intros (w1 & evs1 & Hf1 & Hadd1 & He1 & Q1 & Q2 & Q3 & H)%execute_inv Hun.
  destruct H as [[-> [e ->]]|[(e & Hm & ->)|(m & w2 & Hm & H)]].
  - rewrite (extends_new_events _ _ _ He1), Q1, Q2, Q3.
    split; [by eauto |]. repeat (split; [done || (simpl; lia) |]). done.
  - apply get_manifest_inv in Hm as (Hd2 & evs2 & He2 & O2 & X2 & R2).
    rewrite (extends_new_events _ _ _ (extends_trans _ _ _ _ _ He1 He2)).
    rewrite opened_app, extractions_app, requests_of_app, Q1, Q2, Q3, O2, X2, Hd2.
    split; [by eauto |]. by repeat (split; [done |]).
  - pose proof Hm as (h & answer & Ha & Hb & _)%get_manifest_Val.
    rewrite (extends_registry _ _ _ He1) in Ha.
    pose proof (Hun _ _ _ _ Ha Hb) as Hno.
    destruct H as [(-> & [e ->] & _)|(n & tg & Hn & Htg & _)].
    2:{ exfalso. apply Hno. by eauto. }
    apply get_manifest_inv in Hm as (Hd2 & evs2 & He2 & O2 & X2 & R2).
    rewrite (extends_new_events _ _ _ (extends_trans _ _ _ _ _ He1 He2)).
    rewrite opened_app, extractions_app, requests_of_app, Q1, Q2, Q3, O2, X2, Hd2.
    split; [by eauto |]. by repeat (split; [done |]).
Qed.

(** A registry that refuses the token: the manifest request is never
    made. *)
Lemma get_manifest_refused (tag : string) (status : Z) (w : world) :
  (∀ hist, ∃ answer,
     w_registry w hist (token_request library image) = Some answer
     ∧ status_code answer = status ∧ broken answer = false) →
  400 ≤ status < 600 →
  ∃ w', DockerRegistoryClient.get_manifest library image tag w
        = (Exc (HTTPError status), w')
        ∧ w_disk w' = w_disk w
        ∧ extends w w'
            [Printed ("Downloading manifest, url: "
                        +:+ DockerRegistoryClient.manifest_url library image tag);
             Printed ("Get authtoken, url: "
                        +:+ DockerRegistoryClient.auth_url library image);
             Requested (token_request library image)].
Proof.
  intros Hreg Hstatus.
  unfold DockerRegistoryClient.get_manifest, DockerRegistoryClient.bearer,
    DockerRegistoryClient.get_image_pull_auth_token, print, emit, requests.get,
    requests.raise_for_status, throw, act.
  cbv zeta. rewrite !pull_bind_run. cbn [w_registry set_events w_events].
  change (mkRequest (DockerRegistoryClient.auth_url library image) None false)
    with (token_request library image).
  match goal with
  | |- context [w_registry w ?hist (token_request library image)] =>
      destruct (Hreg hist) as (answer & -> & Hs & Hb)
  end.
  rewrite Hb. cbn [negb andb]. rewrite !pull_bind_run, Hs.
  replace ((400 <=? status) && (status <? 600)) with true by lia.
  eexists. split; [reflexivity |]. split; [done |].
  unfold extends. cbn. by rewrite <- !app_assoc.
Qed.

(** X23: a registry that refuses the token stops the pull at its first
    request.  If every token request is answered with the same status
    between 400 and 599, then [execute] raises the [HTTPError] of that
    status after this one request, and the manifest is never asked for,
    unless the image directory could not be made, in which case it raises
    the error of [os.makedirs] and has made no request at all.  Either way
    no file is opened and the files hold what they held. *)
Theorem execute_token_refused (tag : string) (status : Z) (w w' : world)
    (r : res unit) :
  PullCommand.execute library image tag w = (r, w') →
  (∀ hist, ∃ answer,
     w_registry w hist (token_request library image) = Some answer
     ∧ status_code answer = status ∧ broken answer = false) →
  400 ≤ status < 600 →
  ((r = Exc (HTTPError status)
    ∧ requests_of (new_events w w') = [token_request library image])
   ∨ ((∃ e, r = Exc (OSError e)) ∧ requests_of (new_events w w') = []))
  ∧ opened (new_events w w') = []
  ∧ d_files (w_disk w') = d_files (w_disk w).
Proof.
  intros (w1 & evs1 & Hf1 & _ & He1 & Q1 & _ & Q3 & H)%execute_inv Hreg Hstatus.
  destruct H as [[-> [e ->]]|H].
  { rewrite (extends_new_events _ _ _ He1), Q1, Q3.
    split; [right; by eauto | done]. }
  destruct (get_manifest_refused tag status w1) as (w2 & Hm & Hd2 & He2);
    [|done |].
  { intros hist. rewrite (extends_registry _ _ _ He1). apply Hreg. }
  destruct H as [(e & Hm' & ->)|(m & w2' & Hm' & _)]; rewrite Hm in Hm'; [|done].
  injection Hm' as <- <-.
  rewrite (extends_new_events _ _ _ (extends_trans _ _ _ _ _ He1 He2)).
  rewrite requests_of_app, opened_app, Q1, Q3, Hd2.
  split; [by left | done].
Qed.

End pull_command.

(** ** The puller on a small registry *)

Section pull_on_hub.

Import pull.

Lemma pull_run_eta {A} (m : P A) (w : world) (r : res A) :
  (m w).1 = r → m w = (r, Hub.after m w).
Proof. unfold Hub.after. by destruct (m w) as [r' w']; intros [= ->]. Qed.

Lemma hub_manifests (manifest : json) (Q : json → Prop) :
  Q manifest → manifests (Hub.world_of manifest) "library" "busybox" "latest" Q.
Proof.
  intros HQ hist auth answer content H Hb.
  unfold Hub.world_of, Hub.registry in H. cbn [w_registry url] in H.
  rewrite bool_decide_false in H by (by vm_compute).
  rewrite bool_decide_true in H by done.
  injection H as <-. by injection Hb as <-.
Qed.

End pull_on_hub.

(** The pull of [busybox]: eight requests, four exchanges. *)
Lemma execute_requests_witness :
  let w := Hub.world_of Hub.manifest in
  let w' := Hub.after (pull.PullCommand.execute "library" "busybox" "latest") w in
  (∃ rs tail,
     pull.requests_of (pull.new_events w w') = rs ++ tail
     ∧ pull.exchanges w (pull.token_request "library" "busybox")
                      (pull.requests_of (pull.w_events w)) rs
     ∧ (tail = []
        ∨ (tail = [pull.token_request "library" "busybox"]
           ∧ ∃ e, pull.Val tt = pull.Exc e)))
  ∧ length (pull.requests_of (pull.new_events w w')) = 8%nat.
Proof.
  intros w w'. split; [|vm_compute; reflexivity].
  apply (execute_requests "library" "busybox" "latest" w w' (pull.Val tt)).
  apply (pull_run_eta (pull.PullCommand.execute "library" "busybox" "latest") w
                      (pull.Val tt)).
  vm_compute. reflexivity.
Defined.

(** The three layers of the manifest, the first of them twice. *)
Lemma execute_layers_in_order_witness :
  let w := Hub.world_of Hub.manifest in
  let w' := Hub.after (pull.PullCommand.execute "library" "busybox" "latest") w in
  pull.extractions (pull.new_events w w')
  = [("/var/opt/app/images/library_busybox_latest/layers/sha256:aa.tar",
      "/var/opt/app/images/library_busybox_latest/layers/contents");
     ("/var/opt/app/images/library_busybox_latest/layers/sha256:bb.tar",
      "/var/opt/app/images/library_busybox_latest/layers/contents");
     ("/var/opt/app/images/library_busybox_latest/layers/sha256:aa.tar",
      "/var/opt/app/images/library_busybox_latest/layers/contents")]
  ∧ ∃ manifest digests,
      pull.DockerRegistoryClient.layer_digests manifest
      = pull.Val (pull.JStr <$> digests)
      ∧ length (pull.extractions (pull.new_events w w')) = length digests.
Proof.
  intros w w'. split; [vm_compute; reflexivity |].
  destruct (execute_layers_in_order "library" "busybox" "latest" w w')
    as (manifest & h & name & answer & tg & digests & _ & _ & _ & _ & Hd & Hx & _).
  { apply (pull_run_eta (pull.PullCommand.execute "library" "busybox" "latest") w
                        (pull.Val tt)).
    vm_compute. reflexivity. }
  exists manifest, digests. split; [exact Hd |].
  rewrite Hx. by rewrite length_fmap.
Defined.

(** The image is stored where the launcher mounts it from. *)
Lemma pull_stores_where_run_mounts_witness :
  let w := Hub.world_of Hub.manifest in
  let w' := Hub.after (pull.PullCommand.execute "library" "busybox" "latest") w in
  Forall (λ x, x.2 = image_contents Host.busybox)
         (pull.extractions (pull.new_events w w'))
  ∧ Kernel.path_exists (image_contents Host.busybox)
                       (pull.d_proc (pull.w_disk w')) = true.
Proof.
  intros w w'.
  destruct (pull_stores_where_run_mounts "library" "busybox" "latest" w w'
              (pull.Val tt)) as [Hx Hex].
  - apply (pull_run_eta (pull.PullCommand.execute "library" "busybox" "latest") w
                        (pull.Val tt)).
    vm_compute. reflexivity.
  - by apply hub_manifests.
  - reflexivity.
  - reflexivity.
  - split; [exact Hx |]. apply Hex; [reflexivity |].
    intros tar d d' [= <-]. done.
Defined.

(** A layer fetched into [/var/opt/app] and unpacked into [/home]: the
    archive holds the three bytes of the two chunks that are not empty. *)
Lemma fetch_layer_unpacks_what_was_sent_witness :
  let w := Hub.world_of Hub.manifest in
  let m := pull.PullCommand.fetch_layer "library" "busybox" "/var/opt/app" "/home"
             (pull.JStr "sha256:aa") in
  (∃ d h answer q before,
     pull.JStr "sha256:aa" = pull.JStr d
     ∧ pull.w_registry w
         (pull.requests_of (pull.w_events w)
            ++ [pull.token_request "library" "busybox"])
         (pull.mkRequest (pull.DockerRegistoryClient.blob_url "library" "busybox" d)
                         (Some h) true)
       = Some answer
     ∧ pull.broken answer = false
     ∧ Kernel.resolve (pull.d_proc (pull.w_disk w))
                      (posixpath.join "/var/opt/app" [d] +:+ ".tar") = Some q
     ∧ pull.d_files before !! q
       = Some (pull.Binary (concat (pull.content answer)))
     ∧ pull.w_extractall w (pull.Binary (concat (pull.content answer)))
                         "/home" before
       = pull.Val (pull.w_disk (Hub.after m w)))
  ∧ pull.d_files (pull.w_disk (Hub.after m w)) !! ["var"; "opt"; "app"; "sha256:aa.tar"]
    = Some (pull.Binary [Byte.x61; Byte.x62; Byte.x63]).
Proof.
  intros w m. split; [|vm_compute; reflexivity].
  apply (fetch_layer_unpacks_what_was_sent "library" "busybox" "/var/opt/app"
           "/home" (pull.JStr "sha256:aa") w (Hub.after m w)).
  apply (pull_run_eta m w (pull.Val tt)). vm_compute. reflexivity.
Defined.

(** A registry that sends a manifest of the second schema: the pull ends
    in the [KeyError] for [name], and has created the image directory
    only. *)
Lemma execute_unnamed_manifest_witness :
  let w := Hub.world_of Hub.manifest_v2 in
  let out := pull.PullCommand.execute "library" "busybox" "latest" w in
  ((∃ e, out.1 = pull.Exc e)
   ∧ pull.opened (pull.new_events w out.2) = []
   ∧ pull.extractions (pull.new_events w out.2) = []
   ∧ (length (pull.requests_of (pull.new_events w out.2)) ≤ 2)%nat
   ∧ pull.d_files (pull.w_disk out.2) = pull.d_files (pull.w_disk w)
   ∧ only_adds_dirs (ps_view (pull.d_proc (pull.w_disk w)))
                    (ps_view (pull.d_proc (pull.w_disk out.2))))
  ∧ out.1 = pull.Exc (pull.KeyError "name")
  ∧ Kernel.path_exists "/var/opt/app/images" (pull.d_proc (pull.w_disk out.2)) = true.
Proof.
  intros w out. split; [|split; vm_compute; reflexivity].
  apply (execute_unnamed_manifest "library" "busybox" "latest" w out.2 out.1).
  - apply surjective_pairing.
  - apply hub_manifests. intros (n & tg & Hn & _). discriminate Hn.
Defined.

(** The pull of [busybox] from a registry that refuses the token. *)
Lemma execute_token_refused_witness :
  let w := Hub.refusing in
  let out := pull.PullCommand.execute "library" "busybox" "latest" w in
  (((out.1 = pull.Exc (pull.HTTPError 401)
     ∧ pull.requests_of (pull.new_events w out.2)
       = [pull.token_request "library" "busybox"])
    ∨ ((∃ e, out.1 = pull.Exc (pull.OSError e))
       ∧ pull.requests_of (pull.new_events w out.2) = []))
   ∧ pull.opened (pull.new_events w out.2) = []
   ∧ pull.d_files (pull.w_disk out.2) = pull.d_files (pull.w_disk w))
  ∧ out.1 = pull.Exc (pull.HTTPError 401).
Proof.
  intros w out. split; [|vm_compute; reflexivity].
  apply (execute_token_refused "library" "busybox" "latest" 401 w out.2 out.1).
  - apply surjective_pairing.
  - intros hist. by eexists.
  - lia.
Defined.

(** ** [main] of [pull.py] *)

Section pull_main.

Import pull.

Lemma if_else_default (tg : option string) (d : string) :
  if_else (Some (default EmptyString tg)) d = if_else tg d.
Proof. by destruct tg as [[|c t]|]. Qed.

(** X20: [main] of [pull.py] reads the image name as it is written.  For a
    name [library/image:tag], with or without the library and the tag,
    whose parts hold no [/] and no [:], it pulls the image with the library
    [library] and the tag [latest] where they are missing or empty.  A
    blank does not end a name here: it is part of the image or of the
    tag. *)
Theorem pull_main_reads_image_name
    (lib : option string) (img : string) (tg : option string) (rest : string)
    (w : pull.world) :
  opt_free_of "/:" lib = true → free_of "/:" img = true → img ≠ EmptyString →
  opt_free_of "/:" tg = true → ends_name_in "/:" lib tg rest = true →
  pull.main (image_name lib img tg +:+ rest) w
  = (pull.PullCommand.execute (if_else lib "library") img (if_else tg "latest");;
     mret Returns) w.
Proof.
  intros Hl Hi Hne Ht Hrest. unfold pull.main.
  destruct (pull_match_image_name lib img tg rest Hl Hi Hne Ht Hrest)
    as (m & -> & -> & -> & ->).
  cbv zeta. cbn [default]. by rewrite if_else_default.
Qed.

(** X21: [main] of [pull.py] prints [invalid args] and ends the interpreter
    with status 1, without a request and without touching a file, exactly
    for the names that begin neither with a character of a name nor with
    [/] followed by one: the empty name, and those that begin with [:], or
    with [/] and then no character of a name. *)
Theorem pull_main_invalid_args (name : string) (w : pull.world) :
  pull.main name w
    = (pull.Val (SystemExit 1),
       pull.set_events (pull.w_events w ++ [pull.Printed "invalid args"]) w)
  ↔ accepted_in "/:" name = false.
Proof.
  unfold pull.main.
  pose proof (pull_match_accepted name) as Hacc.
  destruct (re.match_ pull.IMAGE_NAME name) as [m|].
  - assert (Ha : accepted_in "/:" name = true) by (by apply Hacc). rewrite Ha.
    split; [|done]. cbv zeta. rewrite pull_bind_run.
    by destruct (pull.PullCommand.execute _ _ _ w) as [[[]|e] w'].
  - split; [intros _ | done].
    destruct (accepted_in "/:" name); [|done]. by destruct (proj2 Hacc eq_refl).
Qed.

Lemma contains_weaken (c : ascii) :
  py.contains c "/:" = true → py.contains c "/: " = true.
Proof.
  cbn [py.contains]. rewrite !orb_false_r.
  intros [->| ->]%orb_prop; [done |]. by rewrite !orb_true_r.
Qed.

Lemma free_of_weaken (s : string) :
  free_of "/: " s = true → free_of "/:" s = true.
Proof.
  induction s as [|c s IH]; [done |]. cbn [free_of].
  intros [Hc Hs]%andb_prop. rewrite (IH Hs), andb_true_r.
  apply negb_true_iff. apply negb_true_iff in Hc.
  destruct (py.contains c "/:") eqn:E; [|done].
  by rewrite (contains_weaken c E) in Hc.
Qed.

Lemma opt_free_of_weaken (s : option string) :
  opt_free_of "/: " s = true → opt_free_of "/:" s = true.
Proof. destruct s; [apply free_of_weaken | done]. Qed.

Lemma stops_at_without_blank (s : string) :
  free_of " " s = true → stops_at "/: " s = stops_at "/:" s.
Proof.
  destruct s as [|c s]; [done |]. cbn [free_of stops_at py.contains].
  intros [Hc _]%andb_prop. apply negb_true_iff in Hc.
  rewrite orb_false_r in Hc. by rewrite Hc, !orb_false_r.
Qed.

Lemma free_of_tail (cs : string) (c : ascii) (s : string) :
  free_of cs (String c s) = true → free_of cs s = true.
Proof. cbn [free_of]. by intros [_ ?]%andb_prop. Qed.

Lemma ends_name_without_blank (lib tg : option string) (rest : string) :
  free_of " " rest = true →
  ends_name_in "/: " lib tg rest = ends_name_in "/:" lib tg rest.
Proof.
  intros Hrest. unfold ends_name_in.
  rewrite (stops_at_without_blank rest Hrest).
  destruct rest as [|c rest]; [done |].
  by rewrite (stops_at_without_blank rest (free_of_tail _ _ _ Hrest)).
Qed.

Lemma accepted_without_blank (name : string) :
  free_of " " name = true → accepted_in "/: " name = accepted_in "/:" name.
Proof.
  assert (H1 : ∀ c s, free_of " " (String c s) = true →
                      free_of "/: " (String c EmptyString)
                      = free_of "/:" (String c EmptyString)).
  { intros c s. cbn [free_of py.contains].
    intros [Hc _]%andb_prop. apply negb_true_iff in Hc.
    rewrite orb_false_r in Hc. by rewrite Hc, !orb_false_r. }
  destruct name as [|c s]; [done |]. intros Hname. cbn [accepted_in].
  rewrite (H1 c s Hname). destruct s as [|c2 s]; [done |].
  by rewrite (H1 c2 s (free_of_tail _ _ _ Hname)).
Qed.

(** X22: the two scripts read a name alike.  For an argument without a
    blank, either the launcher and the puller take it for the same image,
    the same library, image and tag, with the same defaults, or both turn
    it down with [invalid args]. *)
Theorem mains_agree
    (prog name : string) (cmd : list string) (urandom16 : list Byte.byte) :
  free_of " " name = true →
  (∃ img : Image,
     (∀ w, run.main (prog :: name :: cmd) urandom16 w
           = (RunCommand.execute
                (mkContainerInitParams img cmd (uuid.str (uuid.uuid4 urandom16)));;
              mret Returns) w)
     ∧ (∀ w, pull.main name w
             = (pull.PullCommand.execute (library img) (image img) (tag img);;
                mret Returns) w))
  ∨ ((∀ w, run.main (prog :: name :: cmd) urandom16 w
           = (Ok (SystemExit 1), logged (Print "invalid args") w))
     ∧ (∀ w, pull.main name w
             = (pull.Val (SystemExit 1),
                pull.set_events (pull.w_events w ++ [pull.Printed "invalid args"])
                                w))).
Proof.
  intros Hname. destruct (accepted name) eqn:Hacc.
  - left. unfold accepted in Hacc.
    destruct (name_shape "/: " name Hacc)
      as (lib & img & tg & rest & -> & Hl & Hi & Hne & Ht & Hrest).
    exists (mkImage (if_else lib "library") img (if_else tg "latest")). split.
    + intros w. unfold run.main.
      change ((prog :: (image_name lib img tg +:+ rest) :: cmd) !! 1%nat)
        with (Some (image_name lib img tg +:+ rest)).
      destruct (match_image_name lib img tg rest Hl Hi Hne Ht Hrest)
        as (m & -> & -> & -> & ->).
      reflexivity.
    + intros w. unfold pull.main.
      assert (Hrest' : ends_name_in "/:" lib tg rest = true).
      { rewrite <- ends_name_without_blank; [done |].
        rewrite free_of_app in Hname. by apply andb_prop in Hname as [_ ?]. }
      destruct (pull_match_image_name lib img tg rest
                  (opt_free_of_weaken _ Hl) (free_of_weaken _ Hi) Hne
                  (opt_free_of_weaken _ Ht) Hrest')
        as (m & -> & -> & -> & ->).
      cbv zeta. cbn [default library image tag]. by rewrite if_else_default.
  - right. split.
    + intros w. unfold run.main.
      change ((prog :: name :: cmd) !! 1%nat) with (Some name). cbv beta iota.
      destruct (re.match_ run.IMAGE_NAME name) as [m|] eqn:Hm; [|done].
      assert (accepted name = true); [|congruence].
      apply match_accepted. by rewrite Hm.
    + intros w. unfold pull.main.
      destruct (re.match_ pull.IMAGE_NAME name) as [m|] eqn:Hm; [|done].
      assert (accepted_in "/:" name = true) as Ha.
      { apply pull_match_accepted. by rewrite Hm. }
      unfold accepted in Hacc. rewrite accepted_without_blank in Hacc by done.
      congruence.
Qed.

End pull_main.

Section pull_main_on_hub.

Import pull.

(** The puller started as [pull.py "busybox --rm"]: the blank and what
    follows it are part of the image. *)
Lemma pull_main_reads_image_name_witness :
  let w := Hub.world_of Hub.manifest in
  pull.main "busybox --rm" w
  = (pull.PullCommand.execute "library" "busybox --rm" "latest";;
     mret Returns) w.
Proof.
  intros w.
  exact (pull_main_reads_image_name None "busybox --rm" None EmptyString w
           eq_refl eq_refl ltac:(discriminate) eq_refl eq_refl).
Defined.

(** The puller started as [pull.py :latest]. *)
Lemma pull_main_invalid_args_witness :
  let w := Hub.world_of Hub.manifest in
  pull.main ":latest" w
  = (pull.Val (SystemExit 1),
     pull.set_events (pull.w_events w ++ [pull.Printed "invalid args"]) w).
Proof.
  intros w. exact (proj2 (pull_main_invalid_args ":latest" w) eq_refl).
Defined.

(** [busybox:1.36] for both scripts. *)
Lemma mains_agree_witness :
  (∃ img : Image,
     (∀ w, run.main ["run.py"; "busybox:1.36"; "sh"] [] w
           = (RunCommand.execute
                (mkContainerInitParams img ["sh"] (uuid.str (uuid.uuid4 [])));;
              mret Returns) w)
     ∧ (∀ w, pull.main "busybox:1.36" w
             = (pull.PullCommand.execute (library img) (image img) (tag img);;
                mret Returns) w))
  ∨ ((∀ w, run.main ["run.py"; "busybox:1.36"; "sh"] [] w
           = (Ok (SystemExit 1), logged (Print "invalid args") w))
     ∧ (∀ w, pull.main "busybox:1.36" w
             = (pull.Val (SystemExit 1),
                pull.set_events (pull.w_events w ++ [pull.Printed "invalid args"])
                                w))).
Proof. exact (mains_agree "run.py" "busybox:1.36" ["sh"] [] eq_refl). Defined.

End pull_main_on_hub.
